(* ===== verification/_CoqProject ===== *)
-Q . S2P
Prelude.v
Dtype.v
Runtime.v
Args.v
BlasOp.v
Layout.v
Ops.v
Pipeline.v
PyBinding.v
Fixtures.v
Surfaces.v
TableWF.v
Templates.v
TemplateProps.v
LayoutProps.v
Negotiation.v
PipelineSteps.v
PipelineProps.v
Safety.v
SafeOps.v
Dispatch.v
ErrorPaths.v
PyProps.v
EndToEnd.v
CopyPath.v
FailedCopy.v
Increments.v
