(* ===== verification/Prelude.v ===== *)
(** * A verification development of libgpuarray's BLAS generator [gen_blas.py]

    The program.  [src/gen_blas.py] is a Python 2 script that, from one
    declarative table of three BLAS operations ([make_ops], lines 6-28:
    [gemv], [gemm], [ger]), renders five coupled artifacts through Mako
    templates:
    - [GENERIC_TMPL] (generic_blas.inc.c): per element type, a static
      function [s<op>]/[d<op>] forwarding to a backend and the backend
      dispatch table [<NAME>_ops];
    - [BUFFERBLAS_TMPL] (gpuarray/buffer_blas.h): the enums
      [cb_order]/[cb_transpose] and the struct [gpuarray_blas_ops] of
      function pointers;
    - [BLAS_TMPL] (gpuarray/blas.h): the public [GpuArray_r<op>]
      declarations and the per-type [#define] aliases;
    - [ARRAYBLAS_TMPL] (gpuarray_array_blas.c): the body of
      [GpuArray_r<op>], the runtime validation and layout-negotiation
      pipeline (type, rank, alignment, dimension checks, fallback copies
      of non-contiguous inputs, storage-order detection with transpose
      correction, backend dispatch, cleanup of the copies);
    - [BLAS_PYX_TMPL] (pygpu/blas.pyx): the Cython binding, which infers
      and allocates a missing output and copies a supplied one unless
      asked to overwrite it.
    The Python classes [Argument]/[scalar]/[size]/[inc]/[trans]/
    [matrix]/[vector] (lines 30-137) render each argument on every
    surface; [BlasOp] (lines 139-193) aggregates them; the C and Cython
    snippets [check_dims_*], [setup_order_*], [py_ensure_output_*]
    (lines 202-375) are the operation-specific parts of the pipeline.

    The development (files in dependency order, as in _CoqProject):
    - [Prelude]: this header; association lists keyed by strings (the C
      locals of the generated functions), the Python string helpers the
      generator uses ([str.lower], [str.upper], [s[-1]], [', '.join]),
      the control-flow result [cres] of a C statement (continue, [return],
      [goto cleanup], undefined behaviour) with its [let*] notation in
      [blas_scope], the hint databases [blas] and [blas_rw].
    - [Dtype]: the type registry ([Dtype], [float], [double], lines
      195-200) and the runtime typecodes and element sizes it maps to.
    - [Runtime]: the runtime objects the generated C code manipulates:
      [GpuArray] (dims, byte strides, offset, flags as a bit field, data
      handle), the enums of buffer_blas.h, the error codes, the
      contiguity flags and [GpuArray_copy], and the [BlasRuntime]
      interface (context lookup, backend table, backend calls) that the
      pipeline calls and treats as an opaque collaborator; the frame of
      locals of a generated [GpuArray_r<op>] and its heap of temporaries.
    - [Args]: the [Argument] class hierarchy as one inductive type with
      one constructor per Python class, and every [format_*] renderer.
    - [BlasOp]: the [BlasOp] record and its selectors and list renderers
      ([matrix_args], [array_args], [simple_args], [py_args],
      [format_arguments], [format_blas_args], [format_pyargs], ...).
    - [Layout]: [check_dims_gemv/gemm/ger] and [setup_order_gemv/gemm/
      ger] (lines 202-365) as frame transformers, and the binding's
      [py_ensure_output_*] fragments on the Python frame.
    - [Ops]: the table [make_ops] (lines 6-28), with each operation's
      fragments attached.
    - [Pipeline]: the body of [GpuArray_r<op>] rendered by
      [ARRAYBLAS_TMPL] (lines 567-674), generic over the operation as the
      template is, in an explicit state monad [CM] over the frame of
      locals and the heap (live buffers, next handle, backend calls):
      [check_typecode], [check_nd_type], [check_aligned], [check_dims],
      [set_elsize], [contig_all] (with [copy_into], the fallback copy:
      on success a fresh buffer of the heap and [Ap = &copyA], recorded
      in the frame's list of copies; on failure [goto cleanup] with the
      copy's error), [setup_order], [get_ctx], [get_blas_setup],
      [call_backend], then [cleanup], which releases the recorded
      copies of the input arrays; [GpuArray_r] binds the parameters and
      runs it.
    - [PyBinding]: the Cython wrapper [def <op>(...)] and
      [pygpu_blas_r<op>] (lines 697-742) as [py_op].
    - [Fixtures]: runtimes whose operations succeed ([rt_ok]) or whose
      copies fail ([rt_nomem]), and concrete arrays, for the witnesses.
    - [Surfaces]: the rendered signatures, calls, entry names and
      options over the whole table.
    - [TableWF]: the well-formedness of [make_ops] that the templates
      and the generated code rely on, as a record of propositions
      decided by a boolean check ([op_wfb], by reflection).
    - [Templates]: the text of [GENERIC_TMPL] (generic_blas.inc.c),
      [BUFFERBLAS_TMPL] (buffer_blas.h), [BLAS_TMPL] (blas.h) and the
      externs and wrappers of [BLAS_PYX_TMPL], line by line as Mako
      renders them ([render_generic], [render_bufferblas],
      [render_blas], [render_pyx_head]).
    - [TemplateProps]: those texts read back as the C preprocessor and
      compiler read them (struct fields, initializers, macro expansion,
      parameter lists).
    - [LayoutProps]: the spec's negotiation as functions of the caller's
      matrices (native order and leading dimension, corrected flag,
      shape of [op(A)]) and the refinement of every [check_dims_*] and of
      [setup_order_gemm] by them.
    - [Negotiation]: what a BLAS routine addresses under an order, flag
      and leading dimension, against what the caller's strides address.
    - [PipelineSteps]: one equation per statement of the body and the
      run lemmas that chain them.
    - [PipelineProps]: the invariant of the pipeline's state ([inv]: the
      live buffers are the copies the frame records followed by those
      live at entry, each input array copied at most once, nothing copied
      under [nocopy]), kept by every statement on every exit, and the
      cleanup releasing exactly the copies.
    - [Safety], [SafeOps]: a Hoare logic over [CM] ([csafe], [triple]),
      the frame invariant of each stage, the interface [SafeOp] that an
      operation's fragments satisfy (a typeclass, with an instance per
      operation of [make_ops]) and the totality of [GpuArray_r].
    - [Dispatch], [ErrorPaths], [CopyPath], [FailedCopy]: the end-to-end
      behaviour of [GpuArray_rgemm], [GpuArray_rgemv], [GpuArray_rger]:
      the exact backend call on valid arguments, each error exit, and
      the copy fallback when the copy succeeds and when it fails.
    - [PyProps]: the binding's output inference and examples.
    - [EndToEnd]: the binding's [gemm] over the pipeline, composed
      from the components' own equations: the frame of the Python call,
      the inference, the output copy, [pygpu_blas_rgemm] and the
      pipeline's call.
    - [Increments]: the increment argument of the backend call and its
      [size_t]/[int] conversions.

    What the theorems show (claim ids in PROJECT.json).  When copying
    is allowed and an input needs the fallback, a successful copy is
    what the backend sees: [gemm] is called on the Fortran-ordered copy
    of [A] (its context, its buffer, its leading dimension, [transA]
    corrected for it) (C1) and [gemv] on the copy of a negatively
    strided [X] with increment 1 (C4), and the copy is released before
    the function returns; a failed copy returns its own error with the
    heap unchanged (C5, C6).  For every operation of the table, a call
    leaves live exactly the buffers live before it (C2), and under
    [nocopy] allocates nothing (C12).  On well-formed parameters every
    [GpuArray_r<op>] returns a status on every path, whatever the
    runtime answers (C3).  On valid arguments each [GpuArray_r<op>]
    makes exactly one backend call, with the storage order of the
    order-defining matrix, the flags corrected to that order, the native
    leading dimensions and the increments in elements, and returns the
    backend's status (C7-C9).  Through the binding, [gemm] without [C]
    allocates it and makes its one call on it (C10), and with a [C] and
    without [overwrite_c] writes a fresh copy, never the caller's [C]
    (C11).  The increment argument [Xp->strides[0] / elsize] is the
    stride in elements in the range of [int] and wraps beyond (C13,
    C14).  Under the negotiated order, flags and leading dimensions the
    backend addresses exactly the caller's elements of [op(A)], [op(B)]
    and [C] for [gemm] (C15), of [op(A)] for [gemv] (C16) and of [A]
    for [ger] (C17), though the spec words the leading dimension of a
    column-major [A] otherwise (C18).  The struct of buffer_blas.h, the
    table of generic_blas.inc.c, the functions its macros define, blas.h
    and the Cython externs and wrappers agree name by name and parameter
    by parameter (C19-C21), and the table they are rendered from is well
    formed (C22).  Every check that fails returns its error code and
    leaves the heap unchanged, in the order the code checks (C23-C29);
    the fragments compute the spec's shapes (C30-C32).  The binding
    infers the spec's output shapes and requires [beta = 0] (C33-C36),
    except that [ger] does not check its vectors' ranks (C37).

    Bounds and widths.  No definition of the program uses fuel: every
    recursion is structural, on argument lists or strings, so the
    totality of [GpuArray_r] (C3) needs no bound.  [size_t] is 64 bits and
    [int] 32 bits (the platforms libgpuarray targets); the conversions
    are written out modulo [2^64] and [2^32].  Sizes and strides are
    [Z]; [size_t] overflow of dimension products is not modelled, as
    the code never multiplies them.

    Open work, where the development could go further: the error exits of [GpuArray_rgemv]/[GpuArray_rger] beyond the ones
    shown; the addressing of the vectors by their increments; the
    binding's [gemv] and [ger] over the pipeline, as [EndToEnd] does
    for [gemm]; the declarations of the size
    locals of [GpuArray_r<op>] (line 579) against the sizes its
    fragments set.

    Not modelled: the Mako templating engine itself (each template is
    written out as the list of lines Mako renders from it); the
    [#include] preamble of [ARRAYBLAS_TMPL] (lines 558-566, text with no
    behaviour); the numeric kernels of the backends (an opaque
    [BlasRuntime]); the runtime's allocator beyond fresh handles; the
    script's file output (lines 743-772, pure I/O). *)

From Stdlib Require Import String Ascii List Bool Arith ZArith Lia.
Import ListNotations.
Open Scope string_scope.

Declare Scope blas_scope.
Delimit Scope blas_scope with blas.

Create HintDb blas discriminated.
Create Rewrite HintDb blas_rw.

(** ** Association lists keyed by strings

    The generated C functions have a fixed set of named locals; the
    operation-specific snippets read and write them by name.  We keep
    them in association lists, most recent binding first. *)

Definition alist (V : Type) := list (string * V).

Fixpoint alookup {V} (l : alist V) (k : string) : option V :=
  match l with
  | [] => None
  | (k', v) :: l' => if String.eqb k k' then Some v else alookup l' k
  end.

Definition aset {V} (k : string) (v : V) (l : alist V) : alist V := (k, v) :: l.
Arguments aset : simpl never.

Lemma alookup_aset_eq {V} (l : alist V) k v : alookup (aset k v l) k = Some v.
Proof. unfold aset. simpl. now rewrite String.eqb_refl. Qed.

Lemma alookup_aset_ne {V} (l : alist V) k k' v :
  k <> k' -> alookup (aset k v l) k' = alookup l k'.
Proof.
  intros Hne. unfold aset. simpl. destruct (String.eqb_spec k' k); [congruence | reflexivity].
Qed.

#[export] Hint Rewrite @alookup_aset_eq : blas_rw.

(** ** Python string helpers used by the generator *)

Definition ascii_lower (c : ascii) : ascii :=
  let n := nat_of_ascii c in
  if ((65 <=? n) && (n <=? 90))%nat then ascii_of_nat (n + 32)%nat else c.

Definition ascii_upper (c : ascii) : ascii :=
  let n := nat_of_ascii c in
  if ((97 <=? n) && (n <=? 122))%nat then ascii_of_nat (n - 32)%nat else c.

Fixpoint str_map (f : ascii -> ascii) (s : string) : string :=
  match s with
  | EmptyString => EmptyString
  | String c s' => String (f c) (str_map f s')
  end.

(** [s.lower()] and [s.upper()] on ASCII strings. *)
Definition py_lower (s : string) : string := str_map ascii_lower s.
Definition py_upper (s : string) : string := str_map ascii_upper s.

(** [s[-1]]: the last character, or [None] where Python raises
    [IndexError] (the empty string). *)
Fixpoint py_last (s : string) : option string :=
  match s with
  | EmptyString => None
  | String c EmptyString => Some (String c EmptyString)
  | String _ s' => py_last s'
  end.

(** [sep.join(l)]. *)
Definition py_join (sep : string) (l : list string) : string := String.concat sep l.

Lemma str_map_length f s : String.length (str_map f s) = String.length s.
Proof. induction s; simpl; auto. Qed.

Lemma py_last_append s c :
  py_last (s ++ String c EmptyString) = Some (String c EmptyString).
Proof.
  induction s as [|c' s IH]; [reflexivity|].
  simpl. rewrite IH. destruct s; reflexivity.
Qed.

(** ** The control-flow result of a C statement

    A statement of the generated C code either falls through with a
    value, executes [return e], executes [err = e; goto cleanup], or
    reads an uninitialised or nonexistent location ([CUB]). *)

Inductive cres (E A : Type) : Type :=
| CNext (a : A)
| CReturn (e : E)
| CGoto (e : E)
| CUB.
Arguments CNext {E A} a.
Arguments CReturn {E A} e.
Arguments CGoto {E A} e.
Arguments CUB {E A}.

Definition cbind {E A B} (r : cres E A) (k : A -> cres E B) : cres E B :=
  match r with
  | CNext a => k a
  | CReturn e => CReturn e
  | CGoto e => CGoto e
  | CUB => CUB
  end.

(** Reading a location that may be missing: [None] is undefined
    behaviour. *)
Definition cread {E A} (o : option A) : cres E A :=
  match o with Some a => CNext a | None => CUB end.

Notation "'let*' x ':=' c 'in' k" := (cbind c (fun x => k))
  (at level 61, x name, c at next level, right associativity) : blas_scope.
Notation "'let*' ' p ':=' c 'in' k" := (cbind c (fun x => match x with p => k end))
  (at level 61, p pattern, c at next level, right associativity) : blas_scope.

Lemma cbind_next {E A B} (r : cres E A) (k : A -> cres E B) b :
  cbind r k = CNext b -> exists a, r = CNext a /\ k a = CNext b.
Proof. destruct r; simpl; try discriminate. eauto. Qed.

Lemma cread_next {E A} (o : option A) a : @cread E A o = CNext a <-> o = Some a.
Proof. destruct o; simpl; split; congruence. Qed.

#[export] Hint Resolve alookup_aset_eq : blas.

(** Case analysis on the boolean tests of the code in the goal. *)
Ltac case_ifs :=
  repeat (cbn beta iota in *;
          match goal with
          | |- context [if ?b then _ else _] =>
              lazymatch b with
              | true => fail | false => fail | _ => destruct b eqn:?
              end
          end).

(** ** Option as the result of Python code that may raise *)

Definition obind {A B} (o : option A) (k : A -> option B) : option B :=
  match o with Some a => k a | None => None end.

Notation "'let?' x ':=' c 'in' k" := (obind c (fun x => k))
  (at level 61, x name, c at next level, right associativity) : blas_scope.

(** [all_some]: a list comprehension whose elements may each raise. *)
Fixpoint all_some {A} (l : list (option A)) : option (list A) :=
  match l with
  | [] => Some []
  | Some a :: l' => match all_some l' with Some r => Some (a :: r) | None => None end
  | None :: _ => None
  end.

Lemma all_some_map_Some {A B} (f : A -> B) l :
  all_some (map (fun x => Some (f x)) l) = Some (map f l).
Proof. induction l as [|x l IH]; simpl; [|rewrite IH]; reflexivity. Qed.

Lemma all_some_length {A} (l : list (option A)) r :
  all_some l = Some r -> length r = length l.
Proof.
  revert r; induction l as [|[a|] l IH]; simpl; intros r H; try discriminate.
  - now injection H as <-.
  - destruct (all_some l) eqn:E; [|discriminate]. injection H as <-. simpl. f_equal. auto.
Qed.

(** Decompose a hypothesis [c = CNext v] where [c] is a chain of
    [let*] bindings, tests and pattern matches on pairs. *)
Ltac cres_inv :=
  repeat match goal with
  | H : cbind _ _ = CNext _ |- _ =>
      let x := fresh "x" in let Hx := fresh "Hx" in
      apply cbind_next in H as (x & Hx & H); cbv beta in H
  | H : (if ?b then _ else _) = CNext _ |- _ => destruct b eqn:?
  | H : match ?p with pair _ _ => _ end = CNext _ |- _ => destruct p
  | H : CReturn _ = CNext _ |- _ => discriminate H
  | H : CGoto _ = CNext _ |- _ => discriminate H
  | H : CUB = CNext _ |- _ => discriminate H
  | H : CNext _ = CNext _ |- _ => injection H as H; subst
  end.

(** A statement that never executes [return] (its failures all go
    through [goto cleanup]). *)
Definition no_return {E A} (r : cres E A) : Prop := forall e, r <> CReturn e.

Lemma no_return_bind {E A B} (r : cres E A) (k : A -> cres E B) :
  no_return r -> (forall a, no_return (k a)) -> no_return (cbind r k).
Proof.
  intros Hr Hk e. destruct r as [a|e0| |]; simpl; try congruence; [apply Hk|].
  intros [= ->]. exact (Hr e eq_refl).
Qed.

Lemma no_return_next {E A} (a : A) : no_return (@CNext E A a).
Proof. intros e; discriminate. Qed.

Lemma no_return_goto {E A} (e : E) : no_return (@CGoto E A e).
Proof. intros e'; discriminate. Qed.

Lemma no_return_ub {E A} : no_return (@CUB E A).
Proof. intros e'; discriminate. Qed.

Lemma no_return_cread {E A} (o : option A) : no_return (@cread E A o).
Proof. destruct o; intros e; discriminate. Qed.

#[export] Hint Resolve no_return_next no_return_goto no_return_ub no_return_cread : blas.

Ltac no_return_tac :=
  repeat first
    [ apply no_return_bind; [| intros ?]; cbv beta
    | progress (eauto with blas)
    | match goal with
      | |- no_return (if ?b then _ else _) => destruct b
      | |- no_return (match ?p with pair _ _ => _ end) => destruct p
      end ].

(** ** Shared list lemmas *)

Lemma filter_all_false {A} (p : A -> bool) l :
  (forall x, In x l -> p x = false) -> filter p l = [].
Proof.
  induction l as [|x l IH]; simpl; intros H; [reflexivity|].
  rewrite H by auto. apply IH. auto.
Qed.

Lemma filter_all_true {A} (p : A -> bool) l :
  (forall x, In x l -> p x = true) -> filter p l = l.
Proof.
  induction l as [|x l IH]; simpl; intros H; [reflexivity|].
  rewrite H by auto. f_equal. apply IH. auto.
Qed.

Lemma filter_filter_andb {A} (p q : A -> bool) l :
  filter p (filter q l) = filter (fun x => q x && p x) l.
Proof.
  induction l as [|x l IH]; simpl; [reflexivity|].
  destruct (q x); simpl; [destruct (p x); simpl; rewrite IH|]; auto.
Qed.

Lemma NoDup_app_disjoint {A} (l1 l2 : list A) x :
  NoDup (l1 ++ l2) -> In x l1 -> ~ In x l2.
Proof.
  induction l1 as [|y l1 IH]; simpl; intros Hnd Hin; [contradiction|].
  inversion Hnd as [|? ? Hy Hnd']; subst.
  destruct Hin as [<-|Hin]; [|auto].
  intros Hx. apply Hy, in_or_app. auto.
Qed.

(** Compute a model on symbolic inputs: simplify, then rewrite with the
    hypotheses that fix a lookup or a test, until nothing changes. *)
Ltac crunch :=
  repeat (simpl;
          match goal with
          | H : ?x = Some _ |- context [?x] => rewrite H
          | H : ?x = true |- context [?x] => rewrite H
          | H : ?x = false |- context [?x] => rewrite H
          end); simpl.

(** Case on the integer comparisons left in the goal, simplifying
    after each. *)
Ltac case_Zeqb :=
  repeat (simpl; match goal with |- context [Z.eqb ?x ?y] => destruct (Z.eqb x y) end);
  simpl.

(** Use hypotheses [k <> "lit"] to decide the name comparisons of the
    goal. *)
Ltac neq_keys :=
  repeat match goal with
  | H : ?k <> ?l |- context [String.eqb ?k ?l] => rewrite (proj2 (String.eqb_neq k l) H)
  end.
