(* ===== verification/Dtype.v ===== *)
(** * Type registry: [class Dtype] and the two element types

    [src/gen_blas.py] lines 195-200 declare the element types the
    generator stamps each operation for, with the letter that prefixes
    the per-type backend symbols ([s]gemm, [d]gemm).  The generated C
    code checks the runtime typecodes [GA_FLOAT]/[GA_DOUBLE] of
    libgpuarray's gpuarray/types.h and asks [gpuarray_get_elsize] for the
    element size; those two are runtime facts, modelled from the spec. *)

From Stdlib Require Import String ZArith List.
From S2P Require Import Prelude.
Import ListNotations.
Open Scope string_scope.

Module Dtypes.

(** [class Dtype]: [self.name] (the C type name) and [self.c] (the
    symbol letter). *)
Record Dtype := mkDtype { name : string; c : string }.

(** [float = Dtype('float', 's')], [double = Dtype('double', 'd')]. *)
Definition float : Dtype := mkDtype "float" "s".
Definition double : Dtype := mkDtype "double" "d".

End Dtypes.

(** The runtime typecodes of gpuarray/types.h ([enum GPUARRAY_TYPES]). *)
Definition GA_FLOAT : Z := 11.
Definition GA_DOUBLE : Z := 12.

(** [gpuarray_get_elsize]: the element size in bytes.  The generated
    code calls it only once the first array is known to be [GA_FLOAT] or
    [GA_DOUBLE]; other typecodes are outside the model and get 0. *)
Definition gpuarray_get_elsize (tc : Z) : Z :=
  if Z.eqb tc GA_FLOAT then 4
  else if Z.eqb tc GA_DOUBLE then 8
  else 0.

(** The C type name a typecode stands for in the generated code: the
    backend entry [blas->s<op>] is used for [GA_FLOAT], [blas->d<op>]
    otherwise ([if (Ap->typecode == GA_FLOAT) ... else ...]). *)
Definition dtype_of_typecode (tc : Z) : Dtypes.Dtype :=
  if Z.eqb tc GA_FLOAT then Dtypes.float else Dtypes.double.

Lemma elsize_pos tc : tc = GA_FLOAT \/ tc = GA_DOUBLE -> (0 < gpuarray_get_elsize tc)%Z.
Proof. intros [-> | ->]; reflexivity. Qed.

#[export] Hint Resolve elsize_pos : blas.
