(* ===== verification/Runtime.v ===== *)
(** * The runtime objects the generated code manipulates

    The C code rendered by [ARRAYBLAS_TMPL] ([src/gen_blas.py] lines
    559-675) works on libgpuarray's [GpuArray] structs, the enums of
    gpuarray/buffer_blas.h (rendered by [BUFFERBLAS_TMPL], lines 489-511),
    libgpuarray's error codes and array flags, [GpuArray_copy] and
    [GpuArray_clear], and a backend reached through a context.  This file
    models those objects: the enums from the template text; the struct,
    flags, copy and error codes from the spec (they are libgpuarray code
    outside [src/]); the backend as the interface [BlasRuntime], the
    opaque collaborator the pipeline calls.  It also holds the frame of
    locals of one call of a generated [GpuArray_r<op>] and the heap of
    temporaries and backend calls the pipeline threads. *)

From Stdlib Require Import String ZArith List Bool Floats Lia.
From S2P Require Import Prelude Dtype.
Import ListNotations.
Open Scope string_scope.
Open Scope Z_scope.

(** ** Enums of buffer_blas.h ([BUFFERBLAS_TMPL] lines 489-506) *)

Inductive cb_order := cb_row | cb_column.
Definition cb_c := cb_row.
Definition cb_fortran := cb_column.

Inductive cb_transpose := cb_no_trans | cb_trans | cb_conj_trans.

Definition cb_order_eqb (a b : cb_order) : bool :=
  match a, b with
  | cb_row, cb_row | cb_column, cb_column => true
  | _, _ => false
  end.

Definition cb_transpose_eqb (a b : cb_transpose) : bool :=
  match a, b with
  | cb_no_trans, cb_no_trans | cb_trans, cb_trans
  | cb_conj_trans, cb_conj_trans => true
  | _, _ => false
  end.

Lemma cb_transpose_eqb_spec a b : reflect (a = b) (cb_transpose_eqb a b).
Proof. destruct a, b; constructor; congruence. Qed.

Lemma cb_order_eqb_spec a b : reflect (a = b) (cb_order_eqb a b).
Proof. destruct a, b; constructor; congruence. Qed.

(** ** Error codes (gpuarray/error.h) *)

Inductive gaerr :=
| GA_NO_ERROR | GA_MEMORY_ERROR | GA_VALUE_ERROR | GA_IMPL_ERROR
| GA_INVALID_ERROR | GA_UNSUPPORTED_ERROR | GA_SYS_ERROR | GA_RUN_ERROR
| GA_DEVSUP_ERROR | GA_READONLY_ERROR | GA_WRITEONLY_ERROR | GA_BLAS_ERROR
| GA_UNALIGNED_ERROR | GA_COPY_ERROR.

Definition gaerr_eq_dec (a b : gaerr) : {a = b} + {a <> b}.
Proof. decide equality. Defined.

Definition gaerr_eqb (a b : gaerr) : bool := if gaerr_eq_dec a b then true else false.

(** ** Array flags (gpuarray/array.h), a bit field tested with [&] *)

Definition GA_C_CONTIGUOUS : Z := 1.
Definition GA_F_CONTIGUOUS : Z := 2.
Definition GA_ALIGNED : Z := 256.
Definition GA_WRITEABLE : Z := 1024.

(** [flags & mask] as a C condition. *)
Definition flag_test (flags mask : Z) : bool := negb (Z.land flags mask =? 0).

(** ** The [GpuArray] struct *)

Record GpuArray := mkGpuArray {
  data : nat;             (** [gpudata *data], a buffer handle *)
  offset : Z;             (** [size_t offset], in bytes *)
  dimensions : list Z;    (** [size_t *dimensions] *)
  strides : list Z;       (** [ssize_t *strides], in bytes *)
  nd : nat;               (** [unsigned int nd] *)
  typecode : Z;           (** [int typecode] *)
  flags : Z               (** [int flags] *)
}.

(** [a->dimensions[i]] and [a->strides[i]]: reading past [nd] is
    undefined behaviour. *)
Definition dim (a : GpuArray) (i : nat) : option Z :=
  if Nat.ltb i (nd a) then nth_error (dimensions a) i else None.

Definition stride (a : GpuArray) (i : nat) : option Z :=
  if Nat.ltb i (nd a) then nth_error (strides a) i else None.

(** [GpuArray_ISONESEGMENT(a)]: [a->flags & (GA_C_CONTIGUOUS|GA_F_CONTIGUOUS)]. *)
Definition GpuArray_ISONESEGMENT (a : GpuArray) : bool :=
  flag_test (flags a) (Z.lor GA_C_CONTIGUOUS GA_F_CONTIGUOUS).

Definition is_f_flag (a : GpuArray) : bool := flag_test (flags a) GA_F_CONTIGUOUS.
Definition is_c_flag (a : GpuArray) : bool := flag_test (flags a) GA_C_CONTIGUOUS.
Definition is_aligned (a : GpuArray) : bool := flag_test (flags a) GA_ALIGNED.

Lemma lor_eqb_0 x y : (Z.lor x y =? 0) = (x =? 0) && (y =? 0).
Proof.
  destruct (Z.eqb_spec (Z.lor x y) 0) as [H|H];
    [apply Z.lor_eq_0_iff in H as [-> ->]; reflexivity|].
  destruct (Z.eqb_spec x 0), (Z.eqb_spec y 0); subst; try reflexivity.
  exfalso. apply H. reflexivity.
Qed.

Lemma onesegment_c_or_f a : GpuArray_ISONESEGMENT a = is_c_flag a || is_f_flag a.
Proof.
  unfold GpuArray_ISONESEGMENT, is_c_flag, is_f_flag, flag_test.
  rewrite Z.land_lor_distr_r, lor_eqb_0. apply negb_andb.
Qed.

Lemma flag_test_lor x y m : flag_test (Z.lor x y) m = flag_test x m || flag_test y m.
Proof. unfold flag_test. rewrite Z.land_lor_distr_l, lor_eqb_0. apply negb_andb. Qed.

(** ** Contiguity and [GpuArray_copy]

    libgpuarray recomputes the contiguity flags of an array from its
    dimensions and strides ([GpuArray_fix_flags]): an array is
    Fortran-contiguous when, from the first dimension on, each stride is
    the product of the element size and the previous dimensions (a
    dimension of extent 1 imposes nothing); C-contiguous likewise from
    the last dimension. *)

Fixpoint contig_from (ds ss : list Z) (size : Z) : bool :=
  match ds, ss with
  | [], [] => true
  | d :: ds', s :: ss' => ((d =? 1) || (s =? size)) && contig_from ds' ss' (size * d)
  | _, _ => false
  end.

Fixpoint f_strides (ds : list Z) (size : Z) : list Z :=
  match ds with
  | [] => []
  | d :: ds' => size :: f_strides ds' (size * d)
  end.

Definition c_strides (ds : list Z) (size : Z) : list Z := rev (f_strides (rev ds) size).

Definition contig_flags (ds ss : list Z) (es : Z) : Z :=
  Z.lor (if contig_from (rev ds) (rev ss) es then GA_C_CONTIGUOUS else 0)
        (if contig_from ds ss es then GA_F_CONTIGUOUS else 0).

Inductive ga_order := GA_C_ORDER | GA_F_ORDER | GA_ANY_ORDER.

(** A freshly allocated array of a shape ([GpuArray_empty] with
    [GA_ANY_ORDER], which allocates in C order). *)
Definition alloc_array (shape : list Z) (tc : Z) (h : nat) : GpuArray :=
  let es := gpuarray_get_elsize tc in
  let ss := c_strides shape es in
  {| data := h; offset := 0; dimensions := shape; strides := ss;
     nd := length shape; typecode := tc;
     flags := Z.lor (contig_flags shape ss es) (Z.lor GA_ALIGNED GA_WRITEABLE) |}.

(** The array [GpuArray_copy(&res, a, ord)] produces on success: a fresh
    buffer [h] at offset 0, the same shape and typecode, packed strides
    in the requested order ([GA_ANY_ORDER] allocates in C order, as
    [GpuArray_empty] does), its flags recomputed, aligned and writeable. *)
Definition GpuArray_copy_result (a : GpuArray) (ord : ga_order) (h : nat) : GpuArray :=
  let es := gpuarray_get_elsize (typecode a) in
  let ss := match ord with
            | GA_F_ORDER => f_strides (dimensions a) es
            | _ => c_strides (dimensions a) es
            end in
  {| data := h; offset := 0; dimensions := dimensions a; strides := ss;
     nd := nd a; typecode := typecode a;
     flags := Z.lor (contig_flags (dimensions a) ss es) (Z.lor GA_ALIGNED GA_WRITEABLE) |}.

Lemma contig_from_f_strides ds size : contig_from ds (f_strides ds size) size = true.
Proof.
  revert size; induction ds as [|d ds IH]; intros size; [reflexivity|].
  simpl. rewrite Z.eqb_refl, orb_true_r. apply IH.
Qed.

(** A Fortran-order copy is flagged Fortran-contiguous, hence one segment. *)
Lemma copy_f_is_f a h : is_f_flag (GpuArray_copy_result a GA_F_ORDER h) = true.
Proof.
  unfold is_f_flag, GpuArray_copy_result, contig_flags; simpl.
  rewrite !flag_test_lor, contig_from_f_strides.
  change (flag_test GA_F_CONTIGUOUS GA_F_CONTIGUOUS) with true.
  now rewrite orb_true_r.
Qed.

Lemma copy_onesegment a ord h :
  ord = GA_F_ORDER -> GpuArray_ISONESEGMENT (GpuArray_copy_result a ord h) = true.
Proof. intros ->. rewrite onesegment_c_or_f, copy_f_is_f. apply orb_true_r. Qed.

(** A copy of a one-dimensional array has the element size as its
    stride, so it is never negatively strided. *)
Lemma copy_vector_stride a ord h d :
  dimensions a = [d] ->
  strides (GpuArray_copy_result a ord h) = [gpuarray_get_elsize (typecode a)].
Proof.
  intros Hd. unfold GpuArray_copy_result, c_strides; simpl.
  rewrite Hd. destruct ord; reflexivity.
Qed.

Lemma copy_aligned a ord h : is_aligned (GpuArray_copy_result a ord h) = true.
Proof.
  unfold is_aligned, GpuArray_copy_result; simpl.
  rewrite !flag_test_lor. now rewrite !orb_true_r.
Qed.

#[export] Hint Resolve copy_f_is_f copy_aligned : blas.

Lemma f_strides_length ds size : length (f_strides ds size) = length ds.
Proof. revert size; induction ds as [|d ds IH]; intros size; simpl; auto. Qed.

(** A copy has one stride per dimension, whatever its order. *)
Lemma copy_strides_length a ord h :
  length (strides (GpuArray_copy_result a ord h)) = length (dimensions a).
Proof.
  unfold GpuArray_copy_result, c_strides. simpl.
  destruct ord; rewrite ?length_rev, f_strides_length, ?length_rev; reflexivity.
Qed.

(** Packed C-order strides make an array C-contiguous: a fresh
    allocation and a [GA_ANY_ORDER] copy are flagged so, hence one
    segment, and both are aligned. *)
Lemma contig_from_c_strides ds size : contig_from (rev ds) (rev (c_strides ds size)) size = true.
Proof. unfold c_strides. rewrite rev_involutive. apply contig_from_f_strides. Qed.

Lemma alloc_c_flag shape tc h : is_c_flag (alloc_array shape tc h) = true.
Proof.
  unfold is_c_flag, alloc_array, contig_flags; simpl.
  rewrite !flag_test_lor, contig_from_c_strides. reflexivity.
Qed.

Lemma alloc_onesegment shape tc h : GpuArray_ISONESEGMENT (alloc_array shape tc h) = true.
Proof. now rewrite onesegment_c_or_f, alloc_c_flag. Qed.

Lemma alloc_aligned shape tc h : is_aligned (alloc_array shape tc h) = true.
Proof.
  unfold is_aligned, alloc_array; simpl.
  rewrite !flag_test_lor. now rewrite !orb_true_r.
Qed.

Lemma copy_any_c_flag a h : is_c_flag (GpuArray_copy_result a GA_ANY_ORDER h) = true.
Proof.
  unfold is_c_flag, GpuArray_copy_result, contig_flags; simpl.
  rewrite !flag_test_lor, contig_from_c_strides. reflexivity.
Qed.

Lemma copy_any_onesegment a h : GpuArray_ISONESEGMENT (GpuArray_copy_result a GA_ANY_ORDER h) = true.
Proof. now rewrite onesegment_c_or_f, copy_any_c_flag. Qed.

#[export] Hint Resolve alloc_onesegment alloc_aligned copy_any_onesegment : blas.

(** ** The frame of one call of a generated [GpuArray_r<op>]

    The locals of the C function ([ARRAYBLAS_TMPL] lines 568-581) and its
    parameters, by the names the template gives them. *)

Record frame := mkFrame {
  f_args : alist GpuArray;        (** the parameters [GpuArray *A], [*X], ... *)
  f_ptr : alist GpuArray;         (** the locals [Ap], [Xp], ..., keyed by [A], [X] *)
  f_copied : list string;         (** the arrays [a] with [ap == &copya] *)
  f_trans : alist cb_transpose;   (** the parameters [transA], [transB] *)
  f_scal : alist float;           (** the parameters [alpha], [beta] *)
  f_size : alist Z;               (** the [size_t] locals [m], [n], [k], [lda], ... *)
  f_order : option cb_order;      (** [cb_order o], uninitialised at entry *)
  f_elsize : Z;                   (** [size_t elsize] *)
  f_nocopy : bool;                (** [int nocopy] *)
  f_ctx : nat                     (** [void *ctx] *)
}.

Definition set_size (k : string) (v : Z) (f : frame) : frame :=
  {| f_args := f_args f; f_ptr := f_ptr f; f_copied := f_copied f;
     f_trans := f_trans f; f_scal := f_scal f; f_size := aset k v (f_size f);
     f_order := f_order f; f_elsize := f_elsize f; f_nocopy := f_nocopy f;
     f_ctx := f_ctx f |}.

Definition set_trans (k : string) (t : cb_transpose) (f : frame) : frame :=
  {| f_args := f_args f; f_ptr := f_ptr f; f_copied := f_copied f;
     f_trans := aset k t (f_trans f); f_scal := f_scal f; f_size := f_size f;
     f_order := f_order f; f_elsize := f_elsize f; f_nocopy := f_nocopy f;
     f_ctx := f_ctx f |}.

Definition set_order (o : cb_order) (f : frame) : frame :=
  {| f_args := f_args f; f_ptr := f_ptr f; f_copied := f_copied f;
     f_trans := f_trans f; f_scal := f_scal f; f_size := f_size f;
     f_order := Some o; f_elsize := f_elsize f; f_nocopy := f_nocopy f;
     f_ctx := f_ctx f |}.

(** Reads of the parameters and locals; a missing name is undefined
    behaviour (in C, a compile error of the generated file). *)
Definition arg (f : frame) (nm : string) : cres gaerr GpuArray := cread (alookup (f_args f) nm).
Definition ptr (f : frame) (nm : string) : cres gaerr GpuArray := cread (alookup (f_ptr f) nm).
Definition trans_of (f : frame) (nm : string) : cres gaerr cb_transpose :=
  cread (alookup (f_trans f) nm).
Definition dimc {E} (a : GpuArray) (i : nat) : cres E Z := cread (dim a i).

(** Frame transformers that leave the array pointers and the copy
    bookkeeping alone: the operation-specific snippets are of this kind. *)
Definition keeps_ptrs (f f' : frame) : Prop :=
  f_args f' = f_args f /\ f_ptr f' = f_ptr f /\ f_copied f' = f_copied f /\
  f_nocopy f' = f_nocopy f /\ f_elsize f' = f_elsize f /\ f_ctx f' = f_ctx f /\
  f_scal f' = f_scal f.

Lemma keeps_ptrs_refl f : keeps_ptrs f f.
Proof. repeat split. Qed.

Lemma keeps_ptrs_trans f1 f2 f3 : keeps_ptrs f1 f2 -> keeps_ptrs f2 f3 -> keeps_ptrs f1 f3.
Proof. unfold keeps_ptrs. intuition congruence. Qed.

Lemma keeps_ptrs_set_size f k v : keeps_ptrs f (set_size k v f).
Proof. repeat split. Qed.

Lemma keeps_ptrs_set_trans f k t : keeps_ptrs f (set_trans k t f).
Proof. repeat split. Qed.

Lemma keeps_ptrs_set_order f o : keeps_ptrs f (set_order o f).
Proof. repeat split. Qed.

Lemma keeps_ptrs_set_size_r f f1 k v : keeps_ptrs f f1 -> keeps_ptrs f (set_size k v f1).
Proof. intros H. eapply keeps_ptrs_trans; [exact H | apply keeps_ptrs_set_size]. Qed.

Lemma keeps_ptrs_set_trans_r f f1 k t : keeps_ptrs f f1 -> keeps_ptrs f (set_trans k t f1).
Proof. intros H. eapply keeps_ptrs_trans; [exact H | apply keeps_ptrs_set_trans]. Qed.

Lemma keeps_ptrs_set_order_r f f1 o : keeps_ptrs f f1 -> keeps_ptrs f (set_order o f1).
Proof. intros H. eapply keeps_ptrs_trans; [exact H | apply keeps_ptrs_set_order]. Qed.

#[export] Hint Resolve keeps_ptrs_refl keeps_ptrs_set_size_r keeps_ptrs_set_trans_r
  keeps_ptrs_set_order_r : blas.

(** ** The heap: live temporaries and the backend calls made *)

Inductive callarg :=
| CA_order (o : cb_order)
| CA_trans (t : cb_transpose)
| CA_size (n : Z)
| CA_scal (ctype : string) (v : float)   (** [(ctype)alpha] *)
| CA_int (i : Z)                          (** an [int] increment *)
| CA_buf (d : nat) (off : Z).             (** [Ap->data, Ap->offset / elsize] *)

Record blas_call := mkCall { bc_ctx : nat; bc_entry : string; bc_args : list callarg }.

Record heap := mkHeap {
  live : list nat;        (** buffers of the fallback copies not yet cleared *)
  next : nat;             (** the next fresh buffer handle *)
  calls : list blas_call; (** the backend calls made, most recent first *)
  zeroed : list nat       (** buffers allocated zero-filled ([pygpu_zeros]) *)
}.

(** ** The runtime interface the pipeline calls

    What the generated code needs from libgpuarray and the backend:
    the status of [GpuArray_copy] (on success the copy is the array
    [GpuArray_copy_result] describes), the context of a buffer
    ([ops->property(.., GA_BUFFER_PROP_CTX, &ctx)]), the backend table of
    a context ([GA_CTX_PROP_BLAS_OPS]), [blas->setup(ctx)] and the status
    returned by an entry [blas->s<op>]/[blas->d<op>].  The theorems on the
    pipeline hold for every implementation. *)
Class BlasRuntime := {
  rt_copy : GpuArray -> ga_order -> gaerr;
  rt_buffer_ctx : nat -> gaerr * nat;
  rt_ctx_blas : nat -> gaerr;
  rt_setup : nat -> gaerr;
  rt_call : nat -> string -> list callarg -> gaerr;
  rt_alloc : list Z -> Z -> gaerr
}.

(** ** The Cython binding's locals

    A function [def gemv(double alpha, GpuArray A, ...)] of
    [BLAS_PYX_TMPL] (lines 707-744): its array parameters (a Cython typed
    parameter also accepts [None]), its [double] parameters, its [bint]
    options ([trans_a], [overwrite_y], ...), its [cdef cb_transpose]
    locals and its [cdef size_t] shape buffers ([Yshp], [Cshp], ...).
    Python exceptions are the [return] of [cres]. *)

Inductive pyexc :=
| TypeError (msg : string)
| ValueError (msg : string)
| GpuArrayException (e : gaerr).

Record pyframe := mkPyFrame {
  p_arrays : alist (option GpuArray);
  p_scal : alist float;
  p_opts : alist bool;
  p_trans : alist cb_transpose;
  p_shp : alist (list Z)
}.

Definition pystate : Type := pyframe * heap.

Definition set_arr (k : string) (a : option GpuArray) (p : pyframe) : pyframe :=
  {| p_arrays := aset k a (p_arrays p); p_scal := p_scal p; p_opts := p_opts p;
     p_trans := p_trans p; p_shp := p_shp p |}.

Definition set_opt (k : string) (b : bool) (p : pyframe) : pyframe :=
  {| p_arrays := p_arrays p; p_scal := p_scal p; p_opts := aset k b (p_opts p);
     p_trans := p_trans p; p_shp := p_shp p |}.

Definition set_ptrans (k : string) (t : cb_transpose) (p : pyframe) : pyframe :=
  {| p_arrays := p_arrays p; p_scal := p_scal p; p_opts := p_opts p;
     p_trans := aset k t (p_trans p); p_shp := p_shp p |}.

Definition set_shp (k : string) (l : list Z) (p : pyframe) : pyframe :=
  {| p_arrays := p_arrays p; p_scal := p_scal p; p_opts := p_opts p;
     p_trans := p_trans p; p_shp := aset k l (p_shp p) |}.

(** [X.ga]: the array behind a Python name; [None] there dereferences a
    null object, undefined behaviour. *)
Definition py_arr (p : pyframe) (k : string) : cres pyexc GpuArray :=
  match alookup (p_arrays p) k with
  | Some (Some a) => CNext a
  | _ => CUB
  end.

(** [X is None]. *)
Definition py_is_none (p : pyframe) (k : string) : cres pyexc bool :=
  match alookup (p_arrays p) k with
  | Some o => CNext match o with None => true | Some _ => false end
  | None => CUB
  end.

Definition py_scal (p : pyframe) (k : string) : cres pyexc float := cread (alookup (p_scal p) k).
Definition py_opt (p : pyframe) (k : string) : cres pyexc bool := cread (alookup (p_opts p) k).
Definition py_trans (p : pyframe) (k : string) : cres pyexc cb_transpose :=
  cread (alookup (p_trans p) k).
