(* ===== verification/Args.v ===== *)
(** * The argument model: [class Argument] and its subclasses

    [src/gen_blas.py] lines 30-137.  The Python classes [scalar], [size],
    [inc], [trans] (subclasses of [ScalarArg]) and [matrix], [vector]
    (subclasses of [ArrayArg]) become the constructors of one inductive
    type; each method becomes one function by case on the constructor,
    following the method resolution of the Python classes (a method a
    subclass does not define is the one of its base class; a method no
    class in the chain defines raises [AttributeError], modelled as
    [None]). *)

From Stdlib Require Import String Ascii List Bool.
From S2P Require Import Prelude.
Import ListNotations.
Open Scope string_scope.
Open Scope blas_scope.

(** [Argument.__init__(self, name, const=False, pydef=None)]; the array
    classes take [output] instead and derive [pydef] from it. *)
Inductive Argument :=
| scalar (name : string) (const : bool) (pydef : option string)
| size (name : string) (const : bool) (pydef : option string)
| inc (name : string) (const : bool) (pydef : option string)
| trans (name : string) (const : bool) (pydef : option string)
| matrix (name : string) (isoutput : bool)
| vector (name : string) (isoutput : bool).

Definition arg_name (a : Argument) : string :=
  match a with
  | scalar n _ _ | size n _ _ | inc n _ _ | trans n _ _ | matrix n _ | vector n _ => n
  end.

Definition arg_const (a : Argument) : bool :=
  match a with
  | scalar _ c _ | size _ c _ | inc _ c _ | trans _ c _ => c
  | matrix _ _ | vector _ _ => false
  end.

(** [ArrayArg.__init__]: [pydef = 'None'] for an output array. *)
Definition arg_pydef (a : Argument) : option string :=
  match a with
  | scalar _ _ p | size _ _ p | inc _ _ p | trans _ _ p => p
  | matrix _ o | vector _ o => if o then Some "None" else None
  end.

(** [self.isoutput], set by [ArrayArg.__init__] only; the generator
    reads it on array arguments only. *)
Definition isoutput (a : Argument) : bool :=
  match a with
  | matrix _ o | vector _ o => o
  | _ => false
  end.

Definition ismatrix (a : Argument) : bool :=
  match a with matrix _ _ => true | _ => false end.

Definition isarray (a : Argument) : bool :=
  match a with matrix _ _ | vector _ _ => true | _ => false end.

(** The class attribute [ctype] of [size], [inc], [trans]. *)
Definition class_ctype (a : Argument) : option string :=
  match a with
  | size _ _ _ => Some "size_t"
  | inc _ _ _ => Some "int"
  | trans _ _ _ => Some "cb_transpose"
  | _ => None
  end.

(** The class attribute [tf_macro]. *)
Definition tf_macro (a : Argument) : option string :=
  match a with
  | scalar _ _ _ => Some "SCAL"
  | size _ _ _ => Some "SZ"
  | inc _ _ _ => Some ""
  | trans _ _ _ => Some "TRANS"
  | _ => None
  end.

Definition const_prefix (a : Argument) : string := if arg_const a then "const " else "".

(** [format_as_arg(ctype)]: the parameter of the low-level native
    signature ([scalar.format_as_arg] uses the [ctype] argument,
    [ScalarArg.format_as_arg] the class attribute, [ArrayArg] a
    buffer-and-offset pair). *)
Definition format_as_arg (a : Argument) (ctype : string) : option string :=
  match a with
  | scalar n _ _ => Some (const_prefix a ++ ctype ++ " " ++ n)
  | size n _ _ | inc n _ _ | trans n _ _ =>
      let? ct := class_ctype a in Some (const_prefix a ++ ct ++ " " ++ n)
  | matrix n _ | vector n _ => Some ("gpudata *" ++ n ++ ", size_t off" ++ n)
  end.

(** [format_simple_arg(ctype, arraytype)]: [ScalarArg.format_simple_arg
    = format_as_arg] is bound in the class body, so [size], [inc] and
    [trans] use [ScalarArg.format_as_arg] and [scalar] its own. *)
Definition format_simple_arg (a : Argument) (ctype arraytype : string) : option string :=
  match a with
  | matrix n _ | vector n _ => Some (arraytype ++ n)
  | _ => format_as_arg a ctype
  end.

(** Python's [pat % (name,)] for a pattern with one [%s] (and [%%]
    escapes); any other use of [%], or a count of [%s] other than one,
    raises [TypeError]/[ValueError]. *)
Fixpoint py_percent_s (pat name : string) (used : bool) : option string :=
  match pat with
  | EmptyString => if used then Some "" else None
  | String "%"%char (String "s"%char rest) =>
      if used then None
      else let? r := py_percent_s rest name true in Some (name ++ r)
  | String "%"%char (String "%"%char rest) =>
      let? r := py_percent_s rest name used in Some (String "%"%char r)
  | String "%"%char _ => None
  | String ch rest => let? r := py_percent_s rest name used in Some (String ch r)
  end.

(** [Argument.format_simple_call(arraypat)] and its [ArrayArg]
    override: the expression forwarding the argument from the
    simplified surface. *)
Module Argument.
Definition format_simple_call (a : Argument) (arraypat : string) : option string :=
  match a with
  | matrix n _ | vector n _ => py_percent_s arraypat n false
  | scalar n _ _ | size n _ _ | inc n _ _ | trans n _ _ => Some n
  end.
End Argument.

(** [format_as_call()]: the argument of the backend call in the generic
    layer, wrapped in the layer's conversion macro. *)
Definition format_as_call (a : Argument) : option string :=
  match a with
  | matrix n _ | vector n _ => Some ("ARRAY(" ++ n ++ ", dtype)")
  | _ => let? m := tf_macro a in Some (m ++ "(" ++ arg_name a ++ ")")
  end.

(** [format_as_callarg(ctype)]: the argument of the backend call
    [blas->s<op>(o, ...)] in [GpuArray_r<op>]. *)
Definition format_as_callarg (a : Argument) (ctype : string) : option string :=
  match a with
  | scalar n _ _ => Some ("(" ++ ctype ++ ")" ++ n)
  | size n _ _ => Some (py_lower n)
  | inc n _ _ => let? l := py_last n in Some (l ++ "p->strides[0] / elsize")
  | trans n _ _ => Some n
  | matrix n _ | vector n _ => Some (n ++ "p->data, " ++ n ++ "p->offset / elsize")
  end.

Definition pydef_suffix (a : Argument) : string :=
  match arg_pydef a with Some d => "=" ++ d | None => "" end.

(** [format_pyarg()]: only [scalar] and [ArrayArg] define it. *)
Definition format_pyarg (a : Argument) : option string :=
  match a with
  | scalar n _ _ => Some ("double " ++ n ++ pydef_suffix a)
  | matrix n _ | vector n _ => Some ("GpuArray " ++ n ++ pydef_suffix a)
  | _ => None
  end.
