(* ===== verification/BlasOp.v ===== *)
(** * The operation descriptor: [class BlasOp]

    [src/gen_blas.py] lines 139-193.  A [BlasOp] holds the operation's
    name, its element types, its ordered arguments, and the
    operation-specific code the templates paste into the generated
    functions: [check_dims] and [setup_order] (C fragments of
    [GpuArray_r<op>], here frame transformers of the C function) and
    [py_decls], [py_ensure_output] (Cython fragments of the binding, the
    latter a transformer of the binding's locals and heap).  The
    selectors and the list renderers are the methods of the class. *)

From Stdlib Require Import String List Bool ZArith.
From S2P Require Import Prelude Dtype Runtime Args.
Import ListNotations.
Open Scope string_scope.
Open Scope blas_scope.

Record BlasOp := mkBlasOp {
  name : string;
  types : list Dtypes.Dtype;
  arguments : list Argument;
  check_dims : frame -> cres gaerr frame;
  setup_order : frame -> cres gaerr frame;
  py_decls : string;
  py_ensure_output : pyframe -> heap -> cres pyexc (pyframe * heap)
}.

(** [self.has_order = any(arg.ismatrix() for arg in self.arguments)]. *)
Definition has_order (op : BlasOp) : bool := existsb ismatrix (arguments op).

Definition matrix_args (op : BlasOp) : list Argument := filter ismatrix (arguments op).
Definition array_args (op : BlasOp) : list Argument := filter isarray (arguments op).

(** [type(arg) is cls]: the class of an argument. *)
Inductive ArgClass := Cscalar | Csize | Cinc | Ctrans | Cmatrix | Cvector.

Definition arg_class (a : Argument) : ArgClass :=
  match a with
  | scalar _ _ _ => Cscalar | size _ _ _ => Csize | inc _ _ _ => Cinc
  | trans _ _ _ => Ctrans | matrix _ _ => Cmatrix | vector _ _ => Cvector
  end.

Definition ArgClass_eqb (c d : ArgClass) : bool :=
  match c, d with
  | Cscalar, Cscalar | Csize, Csize | Cinc, Cinc | Ctrans, Ctrans
  | Cmatrix, Cmatrix | Cvector, Cvector => true
  | _, _ => false
  end.

Definition args_per_class (op : BlasOp) (cls : ArgClass) : list Argument :=
  filter (fun a => ArgClass_eqb (arg_class a) cls) (arguments op).

Definition size_args (op : BlasOp) : list Argument := args_per_class op Csize.

(** [simple_args]: arrays, [scalar]s and [trans] flags. *)
Definition simple_args (op : BlasOp) : list Argument :=
  filter (fun a => isarray a || ArgClass_eqb (arg_class a) Cscalar
                   || ArgClass_eqb (arg_class a) Ctrans) (arguments op).

(** [py_args]: arrays and [scalar]s. *)
Definition py_args (op : BlasOp) : list Argument :=
  filter (fun a => isarray a || ArgClass_eqb (arg_class a) Cscalar) (arguments op).

(** [format_arguments(ctype)]: the low-level native parameter list. *)
Definition format_arguments (op : BlasOp) (ctype : string) : option string :=
  let order := if has_order op then "cb_order order, " else "" in
  let? l := all_some (map (fun a => format_as_arg a ctype) (arguments op)) in
  Some (order ++ py_join ", " l).

(** [format_blas_args(ctype)]: the backend call's arguments after [o]. *)
Definition format_blas_args (op : BlasOp) (ctype : string) : option string :=
  let? l := all_some (map (fun a => format_as_callarg a ctype) (arguments op)) in
  Some (py_join ", " l).

(** [format_call_args()]: the generic layer's forwarding call. *)
Definition format_call_args (op : BlasOp) : option string :=
  let order := if has_order op then "ORDER " else "" in
  let? l := all_some (map format_as_call (arguments op)) in
  Some (order ++ py_join ", " l).

Definition format_simple_args (op : BlasOp) (ctype arraytype : string) : option string :=
  let? l := all_some (map (fun a => format_simple_arg a ctype arraytype) (simple_args op)) in
  Some (py_join ", " l).

(** [BlasOp.format_simple_call(arraypat)]. *)
Module BlasOp.
Definition format_simple_call (op : BlasOp) (arraypat : string) : option string :=
  let? l := all_some (map (fun a => Argument.format_simple_call a arraypat) (simple_args op)) in
  Some (py_join ", " l).
End BlasOp.

(** The synthesised options of the binding: [trans_<x>=False] per
    [trans] argument ([t.name[-1].lower()]) and [overwrite_<y>=False] per
    output array. *)
Definition trans_opt_names (op : BlasOp) : option (list string) :=
  all_some (map (fun t => let? l := py_last (arg_name t) in Some ("trans_" ++ py_lower l))
                (args_per_class op Ctrans)).

Definition overwrite_opt_names (op : BlasOp) : list string :=
  map (fun a => "overwrite_" ++ py_lower (arg_name a)) (filter isoutput (array_args op)).

(** [format_pyargs()]. *)
Definition format_pyargs (op : BlasOp) : option string :=
  let? l := all_some (map format_pyarg (py_args op)) in
  let? ts := trans_opt_names op in
  Some (py_join ", " (l ++ map (fun t => t ++ "=False") ts
                        ++ map (fun o => o ++ "=False") (overwrite_opt_names op))).

(** ** Generic facts on the selectors *)

Lemma array_args_isarray op a : In a (array_args op) -> isarray a = true.
Proof. unfold array_args. now intros [_ H]%filter_In. Qed.

Lemma matrix_args_in_array_args op :
  incl (matrix_args op) (array_args op).
Proof.
  unfold matrix_args, array_args. intros a [Hin Hm]%filter_In.
  apply filter_In. split; [assumption|]. destruct a; simpl in *; congruence.
Qed.

(** The simplified surface drops exactly the sizes and the increments. *)
Lemma simple_args_drop_sizes_incs op :
  simple_args op =
  filter (fun a => negb (ArgClass_eqb (arg_class a) Csize || ArgClass_eqb (arg_class a) Cinc))
         (arguments op).
Proof.
  unfold simple_args. apply filter_ext. intros []; reflexivity.
Qed.
