(* ===== verification/Layout.v ===== *)
(** * The operation-specific code: dimension checks, order setup, output
      inference

    [src/gen_blas.py] lines 202-375.  Each C fragment [check_dims_<op>]
    and [setup_order_<op>] is pasted by [ARRAYBLAS_TMPL] into the body of
    [GpuArray_r<op>]; here each is a transformer of that function's
    frame, whose [return GA_VALUE_ERROR] is [CReturn] and whose
    [err = GA_VALUE_ERROR; goto cleanup] is [CGoto].  Each Cython
    fragment [py_ensure_output_<op>] is pasted into the binding [def
    <op>(...)]; here it transforms the binding's locals and the heap,
    raising a Python exception as [CReturn]. *)

From Stdlib Require Import String List Bool ZArith Floats.
From S2P Require Import Prelude Dtype Runtime.
Import ListNotations.
Open Scope string_scope.
Open Scope blas_scope.

(** [if (t == cb_no_trans) t = cb_trans; else t = cb_no_trans;] *)
Definition flip_trans (t : cb_transpose) : cb_transpose :=
  if cb_transpose_eqb t cb_no_trans then cb_trans else cb_no_trans.

(** ** [check_dims_gemv] (lines 202-216) *)
Definition check_dims_gemv (f : frame) : cres gaerr frame :=
  let* A := arg f "A" in
  let* X := arg f "X" in
  let* Y := arg f "Y" in
  let* transA := trans_of f "transA" in
  let* '(m, n) :=
    (if cb_transpose_eqb transA cb_no_trans
     then let* d0 := dimc A 0 in let* d1 := dimc A 1 in CNext (d0, d1)
     else let* d1 := dimc A 1 in let* d0 := dimc A 0 in CNext (d1, d0)) in
  let f := set_size "n" n (set_size "m" m f) in
  let* y0 := dimc Y 0 in
  if negb (y0 =? m)%Z then CReturn GA_VALUE_ERROR else
  let* x0 := dimc X 0 in
  if negb (x0 =? n)%Z then CReturn GA_VALUE_ERROR else
  let* a0 := dimc A 0 in
  let f := set_size "m" a0 f in
  let* a1 := dimc A 1 in
  CNext (set_size "n" a1 f).

(** The block that reads the storage order of the order-defining
    matrix [mat] and sets [o] and its leading dimension [ld]
    ([setup_order_gemv] lines 219-229, [setup_order_gemm] lines 272-281,
    [setup_order_ger] lines 354-364 are this block for [A], [C], [A]). *)
Definition order_defining (mat ld : string) (f : frame) : cres gaerr frame :=
  let* P := ptr f mat in
  if is_f_flag P then
    let* d0 := dimc P 0 in CNext (set_size ld d0 (set_order cb_fortran f))
  else if is_c_flag P then
    let* d1 := dimc P 1 in CNext (set_size ld d1 (set_order cb_c f))
  else CGoto GA_VALUE_ERROR.

(** The block of [setup_order_gemm] for a matrix that follows the fixed
    order (lines 282-301 for [A], 302-321 for [B]): its leading dimension
    is its native one, and its transpose flag is inverted when its
    storage order disagrees with [o]. *)
Definition order_following (mat tr ld : string) (f : frame) : cres gaerr frame :=
  let* P := ptr f mat in
  if is_f_flag P then
    let* d0 := dimc P 0 in
    let f := set_size ld d0 f in
    let* o := cread (f_order f) in
    if cb_order_eqb o cb_c then
      let* t := trans_of f tr in CNext (set_trans tr (flip_trans t) f)
    else CNext f
  else if is_c_flag P then
    let* d1 := dimc P 1 in
    let f := set_size ld d1 f in
    let* o := cread (f_order f) in
    if cb_order_eqb o cb_fortran then
      let* t := trans_of f tr in CNext (set_trans tr (flip_trans t) f)
    else CNext f
  else CGoto GA_VALUE_ERROR.

(** ** [setup_order_gemv] (lines 218-230) *)
Definition setup_order_gemv (f : frame) : cres gaerr frame := order_defining "A" "lda" f.

(** ** [check_dims_gemm] (lines 248-269) *)
Definition check_dims_gemm (f : frame) : cres gaerr frame :=
  let* A := arg f "A" in
  let* B := arg f "B" in
  let* C := arg f "C" in
  let* transA := trans_of f "transA" in
  let* '(m, k) :=
    (if cb_transpose_eqb transA cb_no_trans
     then let* d0 := dimc A 0 in let* d1 := dimc A 1 in CNext (d0, d1)
     else let* d1 := dimc A 1 in let* d0 := dimc A 0 in CNext (d1, d0)) in
  let f := set_size "k" k (set_size "m" m f) in
  let* transB := trans_of f "transB" in
  let* n :=
    (if cb_transpose_eqb transB cb_no_trans then
       let* n := dimc B 1 in
       let* b0 := dimc B 0 in
       if negb (b0 =? k)%Z then CReturn GA_VALUE_ERROR else CNext n
     else
       let* n := dimc B 0 in
       let* b1 := dimc B 1 in
       if negb (b1 =? k)%Z then CReturn GA_VALUE_ERROR else CNext n) in
  let f := set_size "n" n f in
  let* c0 := dimc C 0 in
  if negb (c0 =? m)%Z then CReturn GA_VALUE_ERROR else
  let* c1 := dimc C 1 in
  if negb (c1 =? n)%Z then CReturn GA_VALUE_ERROR else
  CNext f.

(** ** [setup_order_gemm] (lines 271-322) *)
Definition setup_order_gemm (f : frame) : cres gaerr frame :=
  let* f := order_defining "C" "ldc" f in
  let* f := order_following "A" "transA" "lda" f in
  order_following "B" "transB" "ldb" f.

(** ** [check_dims_ger] (lines 346-351) *)
Definition check_dims_ger (f : frame) : cres gaerr frame :=
  let* A := arg f "A" in
  let* X := arg f "X" in
  let* Y := arg f "Y" in
  let* m := dimc X 0 in
  let f := set_size "m" m f in
  let* n := dimc Y 0 in
  let f := set_size "n" n f in
  let* a0 := dimc A 0 in
  if negb (a0 =? m)%Z then CReturn GA_VALUE_ERROR else
  let* a1 := dimc A 1 in
  if negb (a1 =? n)%Z then CReturn GA_VALUE_ERROR else
  CNext f.

(** ** [setup_order_ger] (lines 353-365) *)
Definition setup_order_ger (f : frame) : cres gaerr frame := order_defining "A" "lda" f.

(** ** The Cython fragments *)

Section PyFragments.
Context {RT : BlasRuntime}.

(** [pygpu_empty(nd, shp, typecode, GA_ANY_ORDER, ctx, None)] and
    [pygpu_zeros(...)]: a fresh array, or the runtime's error raised as
    [GpuArrayException]. *)
Definition pygpu_alloc (zero : bool) (shape : list Z) (tc : Z) (h : heap)
  : cres pyexc (GpuArray * heap) :=
  match rt_alloc shape tc with
  | GA_NO_ERROR =>
      CNext (alloc_array shape tc (next h),
             {| live := live h; next := S (next h); calls := calls h;
                zeroed := if zero then next h :: zeroed h else zeroed h |})
  | e => CReturn (GpuArrayException e)
  end.

(** [py_ensure_output_gemv] (lines 234-246). *)
Definition py_ensure_output_gemv (p : pyframe) (h : heap) : cres pyexc (pyframe * heap) :=
  let* A := py_arr p "A" in
  if negb (Nat.eqb (nd A) 2) then CReturn (TypeError "A is not a matrix") else
  let* transA := py_trans p "transA" in
  let* Yshp := (if cb_transpose_eqb transA cb_no_trans then dimc A 0 else dimc A 1) in
  let p := set_shp "Yshp" [Yshp] p in
  let* ynone := py_is_none p "Y" in
  if ynone then
    let* beta := py_scal p "beta" in
    if negb (PrimFloat.eqb beta 0%float) then
      CReturn (ValueError "Y not provided and beta != 0")
    else
      let* '(Y, h) := pygpu_alloc false [Yshp] (typecode A) h in
      CNext (set_opt "overwrite_y" true (set_arr "Y" (Some Y) p), h)
  else CNext (p, h).

(** [py_ensure_output_gemm] (lines 326-344). *)
Definition py_ensure_output_gemm (p : pyframe) (h : heap) : cres pyexc (pyframe * heap) :=
  let* A := py_arr p "A" in
  if negb (Nat.eqb (nd A) 2) then CReturn (TypeError "A is not a matrix") else
  let* B := py_arr p "B" in
  if negb (Nat.eqb (nd B) 2) then CReturn (TypeError "B is not a matrix") else
  let* transA := py_trans p "transA" in
  let* c0 := (if cb_transpose_eqb transA cb_no_trans then dimc A 0 else dimc A 1) in
  let* transB := py_trans p "transB" in
  let* c1 := (if cb_transpose_eqb transB cb_no_trans then dimc B 1 else dimc B 0) in
  let p := set_shp "Cshp" [c0; c1] p in
  let* cnone := py_is_none p "C" in
  if cnone then
    let* beta := py_scal p "beta" in
    if negb (PrimFloat.eqb beta 0%float) then
      CReturn (ValueError "C not provided and beta != 0")
    else
      let* '(C, h) := pygpu_alloc false [c0; c1] (typecode A) h in
      CNext (set_opt "overwrite_c" true (set_arr "C" (Some C) p), h)
  else CNext (p, h).

(** [py_ensure_output_ger] (lines 369-375): note that it reads
    [X.ga.dimensions[0]] and [Y.ga.dimensions[0]] without checking the
    ranks of [X] and [Y]. *)
Definition py_ensure_output_ger (p : pyframe) (h : heap) : cres pyexc (pyframe * heap) :=
  let* anone := py_is_none p "A" in
  if anone then
    let* X := py_arr p "X" in
    let* a0 := dimc X 0 in
    let* Y := py_arr p "Y" in
    let* a1 := dimc Y 0 in
    let p := set_shp "Ashp" [a0; a1] p in
    let* '(A, h) := pygpu_alloc true [a0; a1] (typecode X) h in
    CNext (set_opt "overwrite_a" true (set_arr "A" (Some A) p), h)
  else CNext (p, h).

End PyFragments.

(** [py_decls_<op>] (lines 232, 324, 367): declarations only. *)
Definition py_decls_gemv := "cdef size_t Yshp".
Definition py_decls_gemm := "cdef size_t[2] Cshp".
Definition py_decls_ger := "cdef size_t[2] Ashp".

(** ** The fragments leave the array pointers alone *)

Lemma order_defining_keeps mat ld f f' :
  order_defining mat ld f = CNext f' -> keeps_ptrs f f'.
Proof. unfold order_defining. intros H. cres_inv; eauto 20 with blas. Qed.

Lemma order_following_keeps mat tr ld f f' :
  order_following mat tr ld f = CNext f' -> keeps_ptrs f f'.
Proof. unfold order_following. intros H. cres_inv; eauto 20 with blas. Qed.

Lemma check_dims_gemv_keeps f f' : check_dims_gemv f = CNext f' -> keeps_ptrs f f'.
Proof. unfold check_dims_gemv. intros H. cres_inv; eauto 20 with blas. Qed.

Lemma check_dims_gemm_keeps f f' : check_dims_gemm f = CNext f' -> keeps_ptrs f f'.
Proof. unfold check_dims_gemm. intros H. cres_inv; eauto 20 with blas. Qed.

Lemma check_dims_ger_keeps f f' : check_dims_ger f = CNext f' -> keeps_ptrs f f'.
Proof. unfold check_dims_ger. intros H. cres_inv; eauto 20 with blas. Qed.

Lemma setup_order_gemm_keeps f f' : setup_order_gemm f = CNext f' -> keeps_ptrs f f'.
Proof.
  unfold setup_order_gemm. intros H. cres_inv.
  apply order_defining_keeps in Hx. apply order_following_keeps in Hx0.
  apply order_following_keeps in H. eauto using keeps_ptrs_trans.
Qed.

(** ** The order setup never [return]s: its failure is a [goto cleanup] *)

Lemma order_defining_no_return mat ld f : no_return (order_defining mat ld f).
Proof. unfold order_defining, ptr. no_return_tac. Qed.

Lemma order_following_no_return mat tr ld f : no_return (order_following mat tr ld f).
Proof. unfold order_following, ptr, dimc, trans_of. no_return_tac. Qed.

Lemma setup_order_gemm_no_return f : no_return (setup_order_gemm f).
Proof.
  unfold setup_order_gemm.
  apply no_return_bind; [apply order_defining_no_return | intros f1].
  apply no_return_bind; [apply order_following_no_return | intros f2].
  apply order_following_no_return.
Qed.
