(* ===== verification/Ops.v ===== *)
(** * The declarative operation table: [make_ops]

    [src/gen_blas.py] lines 6-28: the three operations [gemv], [gemm],
    [ger], each with its element types, its ordered arguments and its
    operation-specific fragments from [Layout].  The well-formedness of
    the table that the templates rely on is proved in [TableWF]. *)

From Stdlib Require Import String List Bool ZArith.
From S2P Require Import Prelude Dtype Runtime Args BlasOp Layout.
Import ListNotations.
Open Scope string_scope.

Section Table.
Context {RT : BlasRuntime}.

Definition gemv_op : BlasOp :=
  mkBlasOp "gemv" [Dtypes.float; Dtypes.double]
    [trans "transA" false None; size "M" false None; size "N" false None;
     scalar "alpha" false None; matrix "A" false; size "lda" false None;
     vector "X" false; inc "incX" false None;
     scalar "beta" false (Some "0.0"); vector "Y" true; inc "incY" false None]
    check_dims_gemv setup_order_gemv py_decls_gemv py_ensure_output_gemv.

Definition gemm_op : BlasOp :=
  mkBlasOp "gemm" [Dtypes.float; Dtypes.double]
    [trans "transA" false None; trans "transB" false None;
     size "M" false None; size "N" false None; size "K" false None;
     scalar "alpha" false None; matrix "A" false; size "lda" false None;
     matrix "B" false; size "ldb" false None; scalar "beta" false None;
     matrix "C" true; size "ldc" false None]
    check_dims_gemm setup_order_gemm py_decls_gemm py_ensure_output_gemm.

Definition ger_op : BlasOp :=
  mkBlasOp "ger" [Dtypes.float; Dtypes.double]
    [size "M" false None; size "N" false None; scalar "alpha" false None;
     vector "X" false; inc "incX" false None; vector "Y" false; inc "incY" false None;
     matrix "A" true; size "lda" false None]
    check_dims_ger setup_order_ger py_decls_ger py_ensure_output_ger.

Definition make_ops : list BlasOp := [gemv_op; gemm_op; ger_op].

End Table.
