(* ===== verification/Pipeline.v ===== *)
(** * The validation and dispatch pipeline [GpuArray_r<op>]

    [src/gen_blas.py] lines 559-675 ([ARRAYBLAS_TMPL]).  For each
    operation the template renders one C function
    [int GpuArray_r<op>(<simple args>, int nocopy)] whose body is the
    same sequence of statements for every operation, parameterised by the
    operation's array arguments and its [check_dims]/[setup_order]
    fragments.  We model it once, generic in the [BlasOp], as the
    template is: a state monad [CM] over the frame of locals and the heap,
    whose results distinguish falling through, [return e] (which skips
    the cleanup) and [err = e; goto cleanup].  [GpuArray_r] runs the body
    and then the code after the [cleanup:] label. *)

From Stdlib Require Import String List Bool ZArith Floats.
From S2P Require Import Prelude Dtype Runtime Args BlasOp.
Import ListNotations.
Open Scope string_scope.
Open Scope blas_scope.

Definition cstate : Type := frame * heap.

(** A statement of the C function: from a state to a control-flow
    result and the state it leaves. *)
Definition CM (A : Type) : Type := cstate -> cres gaerr A * cstate.

Definition cm_ret {A} (a : A) : CM A := fun s => (CNext a, s).

Definition cm_bind {A B} (c : CM A) (k : A -> CM B) : CM B :=
  fun s => match c s with
           | (CNext a, s') => k a s'
           | (CReturn e, s') => (CReturn e, s')
           | (CGoto e, s') => (CGoto e, s')
           | (CUB, s') => (CUB, s')
           end.

Declare Scope cm_scope.
Delimit Scope cm_scope with cm.
Notation "x <- c ;; k" := (cm_bind c (fun x => k))
  (at level 61, c at next level, right associativity) : cm_scope.
Open Scope cm_scope.

(** Lifting a pure fragment of the frame: its [return] stays a
    [return], its [goto cleanup] a [goto]. *)
Definition cm_frame (t : frame -> cres gaerr frame) : CM unit :=
  fun '(f, h) => match t f with
                 | CNext f' => (CNext tt, (f', h))
                 | CReturn e => (CReturn e, (f, h))
                 | CGoto e => (CGoto e, (f, h))
                 | CUB => (CUB, (f, h))
                 end.

Definition cm_lift {A} (r : cres gaerr A) : CM A := fun s => (r, s).

Definition cm_get : CM frame := fun '(f, h) => (CNext f, (f, h)).

Fixpoint cm_iter {A} (c : A -> CM unit) (l : list A) : CM unit :=
  match l with
  | [] => cm_ret tt
  | a :: l' => _ <- c a ;; cm_iter c l'
  end.

(** ** C integer conversions of the backend arguments *)

(** [Xp->strides[0] / elsize]: the [ssize_t] stride converted to
    [size_t] for the division by the [size_t] element size. *)
Definition size_t_of_ssize (s : Z) : Z := s mod 2 ^ 64.

(** The [size_t] quotient passed to an [int] parameter (two's
    complement truncation, as the compilers libgpuarray targets do). *)
Definition int_of_size_t (v : Z) : Z :=
  let r := v mod 2 ^ 32 in if (2 ^ 31 <=? r)%Z then (r - 2 ^ 32)%Z else r.

(** Frame updates of the statements below. *)
Definition with_elsize (f : frame) (e : Z) : frame :=
  {| f_args := f_args f; f_ptr := f_ptr f; f_copied := f_copied f;
     f_trans := f_trans f; f_scal := f_scal f; f_size := f_size f;
     f_order := f_order f; f_elsize := e; f_nocopy := f_nocopy f; f_ctx := f_ctx f |}.

Definition with_ctx (f : frame) (ctx : nat) : frame :=
  {| f_args := f_args f; f_ptr := f_ptr f; f_copied := f_copied f;
     f_trans := f_trans f; f_scal := f_scal f; f_size := f_size f;
     f_order := f_order f; f_elsize := f_elsize f; f_nocopy := f_nocopy f; f_ctx := ctx |}.

(** [Ap = &copy<A>], [copy<A>] holding [C]. *)
Definition with_copy (f : frame) (nm : string) (C : GpuArray) : frame :=
  {| f_args := f_args f; f_ptr := aset nm C (f_ptr f); f_copied := nm :: f_copied f;
     f_trans := f_trans f; f_scal := f_scal f; f_size := f_size f; f_order := f_order f;
     f_elsize := f_elsize f; f_nocopy := f_nocopy f; f_ctx := f_ctx f |}.

(** A buffer allocated from the heap. *)
Definition with_alloc (h : heap) : heap :=
  {| live := next h :: live h; next := S (next h); calls := calls h; zeroed := zeroed h |}.

(** The heap after one backend call. *)
Definition with_call (h : heap) (c : blas_call) : heap :=
  {| live := live h; next := next h; calls := c :: calls h; zeroed := zeroed h |}.

Section Pipeline.
Context {RT : BlasRuntime}.
Variable op : BlasOp.

(** [firsta = op.array_args()[0].name]. *)
Definition firsta : option string := option_map arg_name (hd_error (array_args op)).

(** ** The checks (lines 584-605) *)

(** [if (firsta->typecode != GA_FLOAT && firsta->typecode != GA_DOUBLE)
    return GA_INVALID_ERROR;] *)
Definition check_typecode : CM unit :=
  f <- cm_get ;;
  fa <- cm_lift (cread firsta) ;;
  A <- cm_lift (arg f fa) ;;
  if negb (typecode A =? GA_FLOAT)%Z && negb (typecode A =? GA_DOUBLE)%Z
  then cm_lift (CReturn GA_INVALID_ERROR) else cm_ret tt.

(** [ndcond(a)] and [typecond(first, a)]. *)
Definition ndcond (f : frame) (a : Argument) : cres gaerr bool :=
  let* P := arg f (arg_name a) in
  CNext (negb (Nat.eqb (nd P) (if ismatrix a then 2 else 1))).

Definition typecond (f : frame) (first : GpuArray) (a : Argument) : cres gaerr bool :=
  let* P := arg f (arg_name a) in CNext (negb (typecode P =? typecode first)%Z).

Definition aligncond (f : frame) (a : Argument) : cres gaerr bool :=
  let* P := arg f (arg_name a) in CNext (negb (is_aligned P)).

(** A C condition [c(a1) || c(a2) || ...] over the array arguments;
    the operands have no side effects. *)
Fixpoint any_cond (c : Argument -> cres gaerr bool) (l : list Argument) : cres gaerr bool :=
  match l with
  | [] => CNext false
  | a :: l' => let* b := c a in if b then CNext true else any_cond c l'
  end.

Definition check_nd_type : CM unit :=
  f <- cm_get ;;
  fa <- cm_lift (cread firsta) ;;
  first <- cm_lift (arg f fa) ;;
  bnd <- cm_lift (any_cond (ndcond f) (array_args op)) ;;
  bty <- cm_lift (if bnd then CNext true else any_cond (typecond f first) (array_args op)) ;;
  if bty then cm_lift (CReturn GA_VALUE_ERROR) else cm_ret tt.

Definition check_aligned : CM unit :=
  f <- cm_get ;;
  b <- cm_lift (any_cond (aligncond f) (array_args op)) ;;
  if b then cm_lift (CReturn GA_UNALIGNED_ERROR) else cm_ret tt.

(** [elsize = gpuarray_get_elsize(firsta->typecode);] *)
Definition set_elsize : CM unit :=
  fun '(f, h) =>
    match firsta with
    | None => (CUB, (f, h))
    | Some fa =>
        match alookup (f_args f) fa with
        | None => (CUB, (f, h))
        | Some A => (CNext tt, (with_elsize f (gpuarray_get_elsize (typecode A)), h))
        end
    end.

(** ** The contiguity fallback (lines 611-645) *)

(** [err = GpuArray_copy(&copy<A>, A, ord); if (err != GA_NO_ERROR)
    goto cleanup; Ap = &copy<A>;] (lines 621-624 and 637-640).  A copy
    that succeeds takes the next buffer of the heap, and from then on
    [Ap] is the copy: the frame marks [A] as copied, which the cleanup
    reads as [Ap == &copy<A>].  A copy that fails jumps to the cleanup
    with its error; [Ap] is still [A]. *)
Definition copy_into (nm : string) (A : GpuArray) (ord : ga_order) : CM unit :=
  fun '(f, h) =>
    match rt_copy A ord with
    | GA_NO_ERROR => (CNext tt, (with_copy f nm (GpuArray_copy_result A ord (next h)), with_alloc h))
    | e => (CGoto e, (f, h))
    end.

(** The block for one array argument: a matrix must be one segment, a
    vector must not be negatively strided; an output with the defect is
    rejected, an input is rejected under [nocopy] or copied. *)
Definition contig_one (a : Argument) : CM unit :=
  f <- cm_get ;;
  match a with
  | matrix nm out =>
      A <- cm_lift (arg f nm) ;;
      if GpuArray_ISONESEGMENT A then cm_ret tt
      else if out then cm_lift (CGoto GA_VALUE_ERROR)
      else if f_nocopy f then cm_lift (CReturn GA_COPY_ERROR)
      else copy_into nm A GA_F_ORDER
  | vector nm out =>
      A <- cm_lift (arg f nm) ;;
      s0 <- cm_lift (cread (stride A 0)) ;;
      if negb (s0 <? 0)%Z then cm_ret tt
      else if out then cm_lift (CGoto GA_VALUE_ERROR)
      else if f_nocopy f then cm_lift (CReturn GA_COPY_ERROR)
      else copy_into nm A GA_ANY_ORDER
  | _ => cm_ret tt
  end.

Definition contig_all : CM unit := cm_iter contig_one (array_args op).

(** ** Backend selection and call (lines 649-663) *)

(** The value of one argument of [blas->s<op>(o, ...)], as
    [format_as_callarg] renders it. *)
Definition eval_callarg (f : frame) (ctype : string) (a : Argument) : cres gaerr callarg :=
  match a with
  | scalar n _ _ => let* v := cread (alookup (f_scal f) n) in CNext (CA_scal ctype v)
  | size n _ _ => let* v := cread (alookup (f_size f) (py_lower n)) in CNext (CA_size v)
  | inc n _ _ =>
      let* l := cread (py_last n) in
      let* P := ptr f l in
      let* s := cread (stride P 0) in
      CNext (CA_int (int_of_size_t (size_t_of_ssize s / f_elsize f)))
  | trans n _ _ => let* t := trans_of f n in CNext (CA_trans t)
  | matrix n _ | vector n _ =>
      let* P := ptr f n in CNext (CA_buf (data P) (offset P / f_elsize f))
  end.

Fixpoint eval_callargs (f : frame) (ctype : string) (l : list Argument)
  : cres gaerr (list callarg) :=
  match l with
  | [] => CNext []
  | a :: l' => let* c := eval_callarg f ctype a in
               let* cs := eval_callargs f ctype l' in CNext (c :: cs)
  end.

(** [err = firstp->ops->property(NULL, firstp->data, NULL,
    GA_BUFFER_PROP_CTX, &ctx); if (err != GA_NO_ERROR) goto cleanup;]
    and the same for the backend table and [blas->setup(ctx)]. *)
Definition get_ctx : CM unit :=
  fun '(f, h) =>
    match firsta with
    | None => (CUB, (f, h))
    | Some fa =>
        match alookup (f_ptr f) fa with
        | None => (CUB, (f, h))
        | Some P =>
            let '(err, ctx) := rt_buffer_ctx (data P) in
            match err with
            | GA_NO_ERROR => (CNext tt, (with_ctx f ctx, h))
            | e => (CGoto e, (f, h))
            end
        end
    end.

Definition check_status (err : gaerr) : CM unit :=
  match err with GA_NO_ERROR => cm_ret tt | e => cm_lift (CGoto e) end.

Definition get_blas_setup : CM unit :=
  f <- cm_get ;;
  _ <- check_status (rt_ctx_blas (f_ctx f)) ;;
  check_status (rt_setup (f_ctx f)).

(** [if (firstp->typecode == GA_FLOAT) err = blas->s<op>(o, ...); else
    err = blas->d<op>(o, ...);]: the call is recorded in the heap. *)
Definition call_backend : CM gaerr :=
  fun '(f, h) =>
    match firsta with
    | None => (CUB, (f, h))
    | Some fa =>
        match alookup (f_ptr f) fa, f_order f with
        | Some P, Some o =>
            let dt := dtype_of_typecode (typecode P) in
            match eval_callargs f (Dtypes.name dt) (arguments op) with
            | CNext args =>
                let entry := Dtypes.c dt ++ name op in
                let err := rt_call (f_ctx f) entry (CA_order o :: args) in
                (CNext err, (f, with_call h (mkCall (f_ctx f) entry (CA_order o :: args))))
            | _ => (CUB, (f, h))
            end
        | _, _ => (CUB, (f, h))
        end
    end.

(** The statements before the [cleanup:] label. *)
Definition body : CM gaerr :=
  _ <- check_typecode ;;
  _ <- check_nd_type ;;
  _ <- check_aligned ;;
  _ <- cm_frame (check_dims op) ;;
  _ <- set_elsize ;;
  _ <- contig_all ;;
  _ <- cm_frame (setup_order op) ;;
  _ <- get_ctx ;;
  _ <- get_blas_setup ;;
  call_backend.

(** ** Cleanup (lines 665-672) *)

(** [if (ap == &copya) GpuArray_clear(&copya);] for each input array. *)
Definition release (d : nat) (h : heap) : heap :=
  {| live := filter (fun x => negb (Nat.eqb x d)) (live h); next := next h;
     calls := calls h; zeroed := zeroed h |}.

Definition cleanup_one (f : frame) (h : heap) (a : Argument) : heap :=
  if isoutput a then h
  else if existsb (String.eqb (arg_name a)) (f_copied f) then
    match alookup (f_ptr f) (arg_name a) with
    | Some P => release (data P) h
    | None => h
    end
  else h.

Definition cleanup (f : frame) (h : heap) : heap :=
  fold_left (cleanup_one f) (array_args op) h.

(** The whole function on an initial frame: [None] is undefined
    behaviour. *)
Definition run (f : frame) (h : heap) : option gaerr * heap :=
  match body (f, h) with
  | (CNext err, (f', h')) => (Some err, cleanup f' h')
  | (CGoto err, (f', h')) => (Some err, cleanup f' h')
  | (CReturn err, (_, h')) => (Some err, h')
  | (CUB, (_, h')) => (None, h')
  end.

(** ** The entry point: binding the simplified parameters *)

Inductive cval := VTrans (t : cb_transpose) | VScal (d : float) | VArr (a : GpuArray).

Definition bind_scal (nm : string) (d : float) (f : frame) : frame :=
  {| f_args := f_args f; f_ptr := f_ptr f; f_copied := f_copied f;
     f_trans := f_trans f; f_scal := aset nm d (f_scal f); f_size := f_size f;
     f_order := f_order f; f_elsize := f_elsize f; f_nocopy := f_nocopy f;
     f_ctx := f_ctx f |}.

(** An array parameter [GpuArray *A] and its local [GpuArray *Ap = A;]. *)
Definition bind_arr (nm : string) (A : GpuArray) (f : frame) : frame :=
  {| f_args := aset nm A (f_args f); f_ptr := aset nm A (f_ptr f);
     f_copied := f_copied f; f_trans := f_trans f; f_scal := f_scal f;
     f_size := f_size f; f_order := f_order f; f_elsize := f_elsize f;
     f_nocopy := f_nocopy f; f_ctx := f_ctx f |}.

Fixpoint bind_params (l : list Argument) (vs : list cval) (f : frame) : option frame :=
  match l, vs with
  | [], [] => Some f
  | a :: l', v :: vs' =>
      let nm := arg_name a in
      match a, v with
      | trans _ _ _, VTrans t => bind_params l' vs' (set_trans nm t f)
      | scalar _ _ _, VScal d => bind_params l' vs' (bind_scal nm d f)
      | matrix _ _, VArr A | vector _ _, VArr A => bind_params l' vs' (bind_arr nm A f)
      | _, _ => None
      end
  | _, _ => None
  end.

Definition empty_frame (nocopy : bool) : frame :=
  {| f_args := []; f_ptr := []; f_copied := []; f_trans := []; f_scal := [];
     f_size := []; f_order := None; f_elsize := 0; f_nocopy := nocopy; f_ctx := 0 |}.

(** [GpuArray_r<op>(<simple args>, nocopy)]. *)
Definition GpuArray_r (vs : list cval) (nocopy : bool) (h : heap) : option gaerr * heap :=
  match bind_params (simple_args op) vs (empty_frame nocopy) with
  | Some f => run f h
  | None => (None, h)
  end.

End Pipeline.
