(* ===== verification/PyBinding.v ===== *)
(** * The Cython binding [def <op>(...)] of [pygpu/blas.pyx]

    [src/gen_blas.py] lines 697-742 ([BLAS_PYX_TMPL]).  For each
    operation the template renders a wrapper [pygpu_blas_r<op>] that
    calls [GpuArray_r<op>] and raises [GpuArrayException] on an error,
    and a Python function [<op>] that turns the [trans_<m>] booleans into
    [cb_transpose] values, runs the operation's [py_ensure_output]
    fragment, copies each supplied output unless [overwrite_<o>] is set,
    calls the wrapper with copying allowed ([nocopy = 0]) and returns the
    outputs.  The Python locals are a [pyframe]; the heap records the
    buffers allocated and the backend calls. *)

From Stdlib Require Import String List Bool ZArith Floats.
From S2P Require Import Prelude Dtype Runtime Args BlasOp Layout Pipeline.
Import ListNotations.
Open Scope string_scope.
Open Scope blas_scope.

Section Binding.
Context {RT : BlasRuntime}.
Variable op : BlasOp.

(** [if trans_<m>: trans<M> = cb_trans else: trans<M> = cb_no_trans]
    for an input matrix [M] (lines 716-723). *)
Definition py_set_trans (p : pyframe) (m : Argument) : cres pyexc pyframe :=
  let* b := py_opt p ("trans_" ++ py_lower (arg_name m)) in
  CNext (set_ptrans ("trans" ++ arg_name m) (if b then cb_trans else cb_no_trans) p).

Fixpoint py_set_transes (p : pyframe) (l : list Argument) : cres pyexc pyframe :=
  match l with
  | [] => CNext p
  | m :: l' => let* p := py_set_trans p m in py_set_transes p l'
  end.

(** [pygpu_copy(A, GA_ANY_ORDER)]: a new array holding a copy, owned
    by Python (like the arrays of [pygpu_alloc], it is not one of the C
    function's temporaries of [live]). *)
Definition pygpu_copy (A : GpuArray) (h : heap) : cres pyexc (GpuArray * heap) :=
  match rt_copy A GA_ANY_ORDER with
  | GA_NO_ERROR =>
      CNext (GpuArray_copy_result A GA_ANY_ORDER (next h),
             {| live := live h; next := S (next h); calls := calls h; zeroed := zeroed h |})
  | e => CReturn (GpuArrayException e)
  end.

(** [if not overwrite_<o>: O = pygpu_copy(O, GA_ANY_ORDER)] for each
    output array [O] (lines 727-732). *)
Fixpoint py_copy_outputs (p : pyframe) (h : heap) (l : list Argument)
  : cres pyexc (pyframe * heap) :=
  match l with
  | [] => CNext (p, h)
  | a :: l' =>
      let* ow := py_opt p ("overwrite_" ++ py_lower (arg_name a)) in
      if ow then py_copy_outputs p h l'
      else
        let* A := py_arr p (arg_name a) in
        let* '(A', h) := pygpu_copy A h in
        py_copy_outputs (set_arr (arg_name a) (Some A') p) h l'
  end.

(** The arguments of [format_simple_call('%s')]: each simple argument
    by its Python local. *)
Definition py_cval (p : pyframe) (a : Argument) : cres pyexc cval :=
  match a with
  | trans n _ _ => let* t := py_trans p n in CNext (VTrans t)
  | scalar n _ _ => let* d := py_scal p n in CNext (VScal d)
  | matrix n _ | vector n _ => let* A := py_arr p n in CNext (VArr A)
  | _ => CUB
  end.

Fixpoint py_cvals (p : pyframe) (l : list Argument) : cres pyexc (list cval) :=
  match l with
  | [] => CNext []
  | a :: l' => let* v := py_cval p a in let* vs := py_cvals p l' in CNext (v :: vs)
  end.

(** [pygpu_blas_r<op>] (lines 697-703): the C function, its error raised. *)
Definition pygpu_blas_r (vs : list cval) (nocopy : bool) (h : heap) : cres pyexc heap :=
  match GpuArray_r op vs nocopy h with
  | (Some GA_NO_ERROR, h') => CNext h'
  | (Some e, _) => CReturn (GpuArrayException e)
  | (None, _) => CUB
  end.

Fixpoint py_outputs (p : pyframe) (l : list Argument) : cres pyexc (list GpuArray) :=
  match l with
  | [] => CNext []
  | a :: l' => let* A := py_arr p (arg_name a) in
               let* As := py_outputs p l' in CNext (A :: As)
  end.

(** [def <op>(...)] (lines 708-742): the values of the returned outputs
    and the heap after the call. *)
Definition py_op (p : pyframe) (h : heap) : cres pyexc (list GpuArray * heap) :=
  let* p := py_set_transes p (filter (fun m => negb (isoutput m)) (matrix_args op)) in
  let* '(p, h) := py_ensure_output op p h in
  let* '(p, h) := py_copy_outputs p h (filter isoutput (array_args op)) in
  let* vs := py_cvals p (simple_args op) in
  let* h := pygpu_blas_r vs false h in
  let* outs := py_outputs p (filter isoutput (array_args op)) in
  CNext (outs, h).

End Binding.

(** The Python frame of a call: the array arguments ([None] for an
    omitted output), the scalars and the keyword options. *)
Definition py_call (arrays : alist (option GpuArray)) (scal : alist float)
  (opts : alist bool) : pyframe :=
  {| p_arrays := arrays; p_scal := scal; p_opts := opts; p_trans := []; p_shp := [] |}.
