(* ===== verification/Fixtures.v ===== *)
(** * Concrete inputs for the witnesses

    A runtime whose every operation succeeds, and the arrays of the
    spec's examples (contiguous, non-contiguous, negatively strided),
    used by the witness lemmas that apply the theorems at concrete
    inputs. *)

From Stdlib Require Import String List ZArith Floats.
From S2P Require Import Prelude Dtype Runtime.
Import ListNotations.
Open Scope Z_scope.

(** Every runtime operation succeeds; the context of every buffer is 7. *)
Definition rt_ok : BlasRuntime := {|
  rt_copy := fun _ _ => GA_NO_ERROR;
  rt_buffer_ctx := fun _ => (GA_NO_ERROR, 7%nat);
  rt_ctx_blas := fun _ => GA_NO_ERROR;
  rt_setup := fun _ => GA_NO_ERROR;
  rt_call := fun _ _ _ => GA_NO_ERROR;
  rt_alloc := fun _ _ => GA_NO_ERROR |}.

(** The same runtime, out of device memory for copies: every
    [GpuArray_copy] fails with [GA_MEMORY_ERROR]. *)
Definition rt_nomem : BlasRuntime := {|
  rt_copy := fun _ _ => GA_MEMORY_ERROR;
  rt_buffer_ctx := fun _ => (GA_NO_ERROR, 7%nat);
  rt_ctx_blas := fun _ => GA_NO_ERROR;
  rt_setup := fun _ => GA_NO_ERROR;
  rt_call := fun _ _ _ => GA_NO_ERROR;
  rt_alloc := fun _ _ => GA_NO_ERROR |}.

Definition flags_c : Z := Z.lor (Z.lor GA_C_CONTIGUOUS GA_ALIGNED) GA_WRITEABLE.
Definition flags_f : Z := Z.lor (Z.lor GA_F_CONTIGUOUS GA_ALIGNED) GA_WRITEABLE.
Definition flags_nc : Z := Z.lor GA_ALIGNED GA_WRITEABLE.

(** A C-contiguous float matrix of shape [(d0, d1)] in buffer [b]. *)
Definition cmat (b : nat) (d0 d1 : Z) : GpuArray :=
  mkGpuArray b 0 [d0; d1] [4 * d1; 4] 2 GA_FLOAT flags_c.

(** A Fortran-contiguous float matrix. *)
Definition fmat (b : nat) (d0 d1 : Z) : GpuArray :=
  mkGpuArray b 0 [d0; d1] [4; 4 * d0] 2 GA_FLOAT flags_f.

(** A float matrix every other row of a larger one: not one segment. *)
Definition ncmat (b : nat) (d0 d1 : Z) : GpuArray :=
  mkGpuArray b 0 [d0; d1] [8 * d1; 4] 2 GA_FLOAT flags_nc.

(** A float vector of length [n] with byte stride [s]. *)
Definition fvec (b : nat) (n s : Z) : GpuArray :=
  mkGpuArray b 0 [n] [s] 1 GA_FLOAT flags_c.

(** A C-contiguous matrix of doubles. *)
Definition dmat (b : nat) (d0 d1 : Z) : GpuArray :=
  mkGpuArray b 0 [d0; d1] [8 * d1; 8] 2 GA_DOUBLE flags_c.

(** A C-contiguous matrix of 32-bit integers (libgpuarray's [GA_INT] is 5). *)
Definition imat (b : nat) (d0 d1 : Z) : GpuArray :=
  mkGpuArray b 0 [d0; d1] [4 * d1; 4] 2 5 flags_c.

(** A C-contiguous float matrix whose buffer is not aligned. *)
Definition umat (b : nat) (d0 d1 : Z) : GpuArray :=
  mkGpuArray b 0 [d0; d1] [4 * d1; 4] 2 GA_FLOAT (Z.lor GA_C_CONTIGUOUS GA_WRITEABLE).

Definition heap0 : heap := mkHeap [] 100 [] [].

(** A frame of [GpuArray_r<op>] with the given arrays bound (and their
    pointers [Ap = A]) and the given transpose flags. *)
Definition frame_of (arrs : alist GpuArray) (tr : alist cb_transpose) : frame :=
  {| f_args := arrs; f_ptr := arrs; f_copied := []; f_trans := tr; f_scal := [];
     f_size := []; f_order := None; f_elsize := 4; f_nocopy := false; f_ctx := 0 |}.
