(* ===== verification/Surfaces.v ===== *)
(** * The surfaces the generator renders from the table

    Properties of the text the templates produce from [make_ops], through
    the renderers of [Args] and [BlasOp]: the backend entry names are
    pairwise distinct; the binding's [trans_<m>] options and [trans<M>]
    variables are the ones of the operation's input matrices and
    [trans] arguments; every [inc] argument names a vector of its
    operation, whose pointer [Xp] the backend call reads. *)

From Stdlib Require Import String List Bool.
From S2P Require Import Prelude Dtype Runtime Args BlasOp Layout Ops Fixtures.
Import ListNotations.
Open Scope string_scope.

Section Surfaces.
Context {RT : BlasRuntime}.

(** The names of the backend entries [blas->s<op>], [blas->d<op>]. *)
Definition entry_names (ops : list BlasOp) : list string :=
  flat_map (fun op => map (fun dt => Dtypes.c dt ++ name op) (types op)) ops.

(** The input matrices of an operation: those with a transpose option. *)
Definition input_matrices (op : BlasOp) : list Argument :=
  filter (fun m => negb (isoutput m)) (matrix_args op).

(** The per-type backend entries of the table,
    [<type letter><op name>], are pairwise distinct, and so are the
    operation names of the simplified and binding surfaces. *)
Theorem entry_names_nodup : NoDup (entry_names make_ops) /\ NoDup (map name make_ops).
Proof.
  split; vm_compute; repeat constructor; simpl; intuition discriminate.
Qed.

(** For every operation of the table, the binding's
    [trans_<m>=False] options are [trans_] and the lowered name of each
    input matrix, in order, and the [trans] arguments of the simplified
    call are [trans] and the name of each input matrix: the variables
    [trans<M>] the binding assigns are the ones it passes. *)
Theorem trans_options_match op :
  In op make_ops ->
  trans_opt_names op = Some (map (fun m => "trans_" ++ py_lower (arg_name m)) (input_matrices op))
  /\ map arg_name (args_per_class op Ctrans) = map (fun m => "trans" ++ arg_name m) (input_matrices op).
Proof.
  simpl. intros [<-|[<-|[<-|[]]]]; vm_compute; split; reflexivity.
Qed.

(** For every operation of the table, each [inc]
    argument [incX] names, by its last character, a vector argument [X]
    of the operation. *)
Theorem inc_targets op :
  In op make_ops ->
  forall i, In i (args_per_class op Cinc) ->
  exists nm o, py_last (arg_name i) = Some nm /\ In (vector nm o) (arguments op).
Proof.
  simpl. intros [<-|[<-|[<-|[]]]] i Hi; vm_compute in Hi;
    repeat destruct Hi as [<-|Hi]; try contradiction;
    do 2 eexists; (split; [reflexivity | simpl; auto 20]).
Qed.

End Surfaces.

(** The trans-option theorem at [gemm]. *)
Lemma trans_options_match_witness :
  In (@gemm_op rt_ok) (@make_ops rt_ok) /\
  trans_opt_names (@gemm_op rt_ok) = Some ["trans_a"; "trans_b"].
Proof.
  split; [simpl; auto|].
  destruct (trans_options_match (RT := rt_ok) (@gemm_op rt_ok)) as [H _]; [simpl; auto|].
  rewrite H. vm_compute. reflexivity.
Defined.

(** The inc-target theorem at [ger]'s [incY]. *)
Lemma inc_targets_witness :
  In (@ger_op rt_ok) (@make_ops rt_ok) /\
  In (inc "incY" false None) (args_per_class (@ger_op rt_ok) Cinc) /\
  exists nm o, py_last "incY" = Some nm /\ In (vector nm o) (arguments (@ger_op rt_ok)).
Proof.
  split; [simpl; auto|]. split; [simpl; auto|].
  refine (inc_targets (RT := rt_ok) (@ger_op rt_ok) _ (inc "incY" false None) _); simpl; auto.
Defined.
