(* ===== verification/TableWF.v ===== *)
(** * The well-formedness of the operation table

    [make_ops] (lines 6-28) is data that the rest of the generator reads
    without checking it.
    - The C parameters rendered from an operation's arguments must have
      distinct names.
    - [ARRAYBLAS_TMPL] takes [op.array_args()[0]] as [firsta] (line 567).
    - The binding infers the one output array.
    - [inc.format_as_callarg] reads [<name[-1]>p->strides[0]]
      (lines 88-93), which must be a vector's pointer.
    - The [trans<M>] arguments are set from the input matrices' [trans_<m>]
      options.
    - The backend call picks [blas->s<op>] for [GA_FLOAT] and
      [blas->d<op>] otherwise, entries the generic table has only for
      the operation's [types].
    [op_wf] states these as a record of propositions, [op_wfb] decides
    them, and [op_wfb_sound] reflects the boolean check into the record,
    so that the table's well-formedness is proved by evaluation. *)

From Stdlib Require Import String List Bool Arith ZArith.
From S2P Require Import Prelude Dtype Runtime Args BlasOp Ops Surfaces.
Import ListNotations.
Open Scope string_scope.

(** ** The properties *)

Record op_wf (op : BlasOp) : Prop := {
  wf_names : NoDup (map arg_name (arguments op));
  wf_first : array_args op <> [];
  wf_one_output : length (filter isoutput (array_args op)) = 1%nat;
  wf_incs : forall i, In i (args_per_class op Cinc) ->
    exists nm o, py_last (arg_name i) = Some nm /\ In (vector nm o) (arguments op);
  wf_trans : forall t, In t (args_per_class op Ctrans) ->
    exists m, In (matrix m false) (arguments op) /\ arg_name t = "trans" ++ m;
  wf_types : In Dtypes.float (types op) /\ In Dtypes.double (types op)
}.

(** ** The boolean check *)

Fixpoint nodupb (l : list string) : bool :=
  match l with
  | [] => true
  | x :: l' => negb (existsb (String.eqb x) l') && nodupb l'
  end.

Definition is_vector_named (nm : string) (a : Argument) : bool :=
  match a with vector n _ => String.eqb n nm | _ => false end.

Definition inc_ok (op : BlasOp) (i : Argument) : bool :=
  match py_last (arg_name i) with
  | Some nm => existsb (is_vector_named nm) (arguments op)
  | None => false
  end.

Definition trans_ok (op : BlasOp) (t : Argument) : bool :=
  existsb (fun m => match m with
                    | matrix n false => String.eqb (arg_name t) ("trans" ++ n)
                    | _ => false
                    end) (arguments op).

Definition dtype_eqb (a b : Dtypes.Dtype) : bool :=
  String.eqb (Dtypes.name a) (Dtypes.name b) && String.eqb (Dtypes.c a) (Dtypes.c b).

Definition op_wfb (op : BlasOp) : bool :=
  nodupb (map arg_name (arguments op))
  && negb (Nat.eqb (length (array_args op)) 0)
  && Nat.eqb (length (filter isoutput (array_args op))) 1
  && forallb (inc_ok op) (args_per_class op Cinc)
  && forallb (trans_ok op) (args_per_class op Ctrans)
  && existsb (dtype_eqb Dtypes.float) (types op)
  && existsb (dtype_eqb Dtypes.double) (types op).

(** ** Reflection *)

Lemma nodupb_sound l : nodupb l = true -> NoDup l.
Proof.
  induction l as [|x l IH]; simpl; [constructor|].
  intros H. apply andb_true_iff in H as [Hx Hl]. constructor; [|auto].
  intros Hin. apply negb_true_iff in Hx.
  assert (existsb (String.eqb x) l = true) as E
    by (apply existsb_exists; exists x; split; [exact Hin | apply String.eqb_refl]).
  congruence.
Qed.

Lemma dtype_eqb_eq a b : dtype_eqb a b = true -> a = b.
Proof.
  destruct a, b. unfold dtype_eqb. simpl.
  rewrite andb_true_iff, !String.eqb_eq. intros [-> ->]. reflexivity.
Qed.

Lemma existsb_dtype dt l : existsb (dtype_eqb dt) l = true -> In dt l.
Proof.
  intros H. apply existsb_exists in H as (x & Hx & E).
  apply dtype_eqb_eq in E. subst. exact Hx.
Qed.

Lemma inc_ok_sound op i :
  inc_ok op i = true -> exists nm o, py_last (arg_name i) = Some nm /\ In (vector nm o) (arguments op).
Proof.
  unfold inc_ok. destruct (py_last (arg_name i)) as [nm|]; [|discriminate].
  intros H. apply existsb_exists in H as ([] & Hin & E); try discriminate.
  simpl in E. apply String.eqb_eq in E. subst. eauto.
Qed.

Lemma trans_ok_sound op t :
  trans_ok op t = true -> exists m, In (matrix m false) (arguments op) /\ arg_name t = "trans" ++ m.
Proof.
  unfold trans_ok. intros H. apply existsb_exists in H as ([| | | |n [|]|] & Hin & E);
    try discriminate.
  apply String.eqb_eq in E. eauto.
Qed.

Lemma op_wfb_sound op : op_wfb op = true -> op_wf op.
Proof.
  unfold op_wfb. rewrite !andb_true_iff, !forallb_forall.
  intros [[[[[[Hn Ha] Ho] Hi] Ht] Hf] Hd]. constructor.
  - apply nodupb_sound, Hn.
  - apply negb_true_iff, Nat.eqb_neq in Ha. intros E. rewrite E in Ha. apply Ha. reflexivity.
  - apply Nat.eqb_eq, Ho.
  - intros i Hin. apply inc_ok_sound, Hi, Hin.
  - intros t Hin. apply trans_ok_sound, Ht, Hin.
  - split; apply existsb_dtype; assumption.
Qed.

Section Table.
Context {RT : BlasRuntime}.

Lemma make_ops_wfb : forallb op_wfb make_ops = true.
Proof. vm_compute. reflexivity. Qed.

Lemma In_make_ops_wf op : In op make_ops -> op_wf op.
Proof.
  intros Hop. apply op_wfb_sound. exact (proj1 (forallb_forall _ _) make_ops_wfb op Hop).
Qed.

(** The entry the generated function calls for a typecode, [s<op>] or
    [d<op>], is an entry of the generic table. *)
Lemma typecode_entry_in_table op tc :
  In op make_ops -> In (Dtypes.c (dtype_of_typecode tc) ++ name op) (entry_names make_ops).
Proof.
  intros Hop. destruct (wf_types op (In_make_ops_wf op Hop)) as [Hf Hd].
  unfold entry_names. apply in_flat_map. exists op. split; [exact Hop|].
  apply (in_map (fun dt => Dtypes.c dt ++ name op)).
  unfold dtype_of_typecode. destruct (Z.eqb tc GA_FLOAT); assumption.
Qed.

(** C22.  Every operation of the table is well formed: its
    arguments have distinct names, it has a first array argument (the
    [firsta] of the generated function) and exactly one output array,
    every [inc] argument names by its last character a vector argument,
    every [trans] argument is [trans<M>] for an input matrix [M], and its
    element types include [float] and [double], the two entries
    [s<op>]/[d<op>] the generated function calls. *)
Theorem make_ops_wf : Forall op_wf make_ops.
Proof.
  apply Forall_forall. intros op Hop. apply op_wfb_sound.
  simpl in Hop. destruct Hop as [<-|[<-|[<-|[]]]]; vm_compute; reflexivity.
Qed.

End Table.
