(* ===== verification/Templates.v ===== *)
(** * The text of the generated C headers, generic layer and Cython externs

    [src/gen_blas.py] renders five files from [make_ops] with Mako.  This
    file models the text of four of them as Mako renders it: every line
    of the template that is not a control line ([% for], [% endfor],
    [% if]) is output with its [${...}] substitutions and a newline; the
    control lines output nothing.  The [${bs}] of [GENERIC_TMPL] is the
    backslash [BS] (line 382) that continues the C macro definition.
    - [render_generic]: [GENERIC_TMPL] (lines 384-475), the backend
      layer generic_blas.inc.c: the order macros, one C macro per
      operation that defines the static function [typec ## <op>], its
      uses per element type, and the positional initializer of the
      table [gpuarray_blas_ops];
    - [render_bufferblas]: [BUFFERBLAS_TMPL] (lines 477-530),
      gpuarray/buffer_blas.h: the enums and the struct of function
      pointers [gpuarray_blas_ops];
    - [render_blas]: [BLAS_TMPL] (lines 532-557), gpuarray/blas.h: the
      declarations of [GpuArray_r<op>] and the per-type aliases;
    - [render_pyx_head]: the first part of [BLAS_PYX_TMPL] (lines
      677-706): the Cython [extern] declarations of [GpuArray_r<op>] and
      the wrappers [pygpu_blas_r<op>] (whose behaviour [PyBinding]
      models).
    A template expression that raises (a [format_*] renderer on an
    argument it cannot render, [op.array_args()[0]] on an operation
    without arrays) makes the rendering [None]. *)

From Stdlib Require Import String List Ascii Bool.
From S2P Require Import Prelude Dtype Runtime Args BlasOp.
Import ListNotations.
Open Scope string_scope.
Open Scope blas_scope.

(** List concatenation, beside the string [++] of [string_scope]. *)
Infix "+++" := app (at level 60, right associativity) : blas_scope.

(** ** Characters the template text uses *)

Definition chr (n : nat) : string := String (ascii_of_nat n) EmptyString.
Definition nl : string := chr 10.
Definition tab : string := chr 9.
Definition dq : string := chr 34.

Fixpoint rep (s : string) (n : nat) : string :=
  match n with O => "" | S n' => s ++ rep s n' end.
Definition tabs (n : nat) : string := rep tab n.
Definition spaces (n : nat) : string := rep " " n.

(** [BS = '\\'] (line 382). *)
Definition bs : string := "\".

(** Mako's output: each line followed by a newline.  The template
    string starts right after [Template(""], so its first line is empty. *)
Definition render_lines (ls : list string) : string := String.concat "" (map (fun l => l ++ nl) ls).

(** [op.array_args()[0].name], which raises on an operation without
    arrays. *)
Definition first_array_name (op : BlasOp) : option string :=
  option_map arg_name (hd_error (array_args op)).

Definition upper_name (op : BlasOp) : string := py_upper (name op).

(** ** [GENERIC_TMPL]: generic_blas.inc.c *)

(** Lines 384-390. *)
Definition generic_head : list string :=
  [""; "/* This file is generated by gen_blas.py in the root of the distribution */";
   "#if !defined(FETCH_CONTEXT) || !defined(PREFIX) || !defined(ARRAY) || !defined(POST_CALL)";
   "#error " ++ dq ++ "required macros not defined" ++ dq;
   "#endif"; ""; "#ifdef ORDER"].

(** Lines 391-398: the default empty order hooks of an operation. *)
Definition generic_order_lines (op : BlasOp) : list string :=
  ["#ifndef PREP_ORDER_" ++ upper_name op; "#define PREP_ORDER_" ++ upper_name op; "#endif";
   "#ifndef HANDLE_ORDER_" ++ upper_name op; "#define HANDLE_ORDER_" ++ upper_name op; "#endif"].

(** Lines 399-433: the defaults of the other hooks and the token
    pasting macros. *)
Definition generic_macros : list string :=
  ["#else"; "#define ORDER"; "#endif"; "";
   "#ifndef INIT_ARGS"; "#define INIT_ARGS"; "#endif"; "";
   "#ifndef TRAIL_ARGS"; "#define TRAIL_ARGS"; "#endif"; "";
   "#ifndef SZ"; "#define SZ(a) a"; "#endif"; "";
   "#ifndef TRANS"; "#define TRANS(t) t"; "#endif"; "";
   "#ifndef SCAL"; "#define SCAL(s) s"; "#endif"; "";
   "#ifndef FUNC_INIT"; "#define FUNC_INIT"; "#endif"; "";
   "#ifndef FUNC_FINI"; "#define FUNC_FINI"; "#endif"; "";
   "#define __GLUE(part1, part2) __GLUE_INT(part1, part2)";
   "#define __GLUE_INT(part1, part2) part1 ## part2"; ""].

(** A line of the macro body: text, padding, continuation backslash. *)
Definition cont (s : string) (t sp : nat) : string := s ++ tabs t ++ spaces sp ++ bs.

(** Lines 434-461: for one operation, the macro [<OP>(dtype, typec,
    TYPEC)] defining [static int typec ## <op>(...)], and its use for
    each element type. *)
Definition generic_op_macro (op : BlasOp) : option (list string) :=
  let? args := format_arguments op "dtype" in
  let? first := first_array_name op in
  let? call := format_call_args op in
  Some ([cont ("#define " ++ upper_name op ++ "(dtype, typec, TYPEC)") 3 4;
         "  static int typec ## " ++ name op ++ "(" ++ args ++ ") { " ++ bs;
         cont ("    FETCH_CONTEXT(" ++ first ++ ");") 3 4;
         cont "    FUNC_DECLS;" 7 4;
         cont ("    PREP_ORDER_" ++ upper_name op ++ ";") 2 20;
         cont "" 8 4;
         cont ("    HANDLE_ORDER_" ++ upper_name op ++ ";") 1 28;
         cont "    FUNC_INIT;" 7 4;
         cont "" 8 4]
        +++ map (fun a => cont ("    ARRAY_INIT(" ++ arg_name a ++ ");") 5 4) (array_args op)
        +++ [cont "" 8 4;
            "    PRE_CALL __GLUE(PREFIX(typec, TYPEC), " ++ name op ++ ")(INIT_ARGS " ++ call
              ++ " TRAIL_ARGS); " ++ bs;
            cont "    POST_CALL;" 7 4;
            cont "" 8 4]
        +++ map (fun a => cont ("    ARRAY_FINI(" ++ arg_name a ++ ");") 5 4) (array_args op)
        +++ [cont "    FUNC_FINI;" 7 4;
            cont "" 8 4;
            cont "    return GA_NO_ERROR;" 6 4;
            "  }"; ""]
        +++ map (fun t => upper_name op ++ "(" ++ Dtypes.name t ++ ", " ++ Dtypes.c t ++ ", "
                         ++ py_upper (Dtypes.c t) ++ ")") (types op)).

(** The names of the table's entries, in the order of the template's
    loops (lines 465-473). *)
Definition entry_list (ops : list BlasOp) : list string :=
  ["setup"; "teardown"]
  +++ flat_map (fun op => map (fun t => Dtypes.c t ++ name op) (types op)) ops
  +++ ["sgemmBatch"; "dgemmBatch"].

(** Lines 465-473: the positional initializer of the table. *)
Definition generic_table_entries (ops : list BlasOp) : list string :=
  ["  setup,"; "  teardown,"]
  +++ flat_map (fun op => map (fun t => "  " ++ Dtypes.c t ++ name op ++ ",") (types op)) ops
  +++ ["  sgemmBatch,"; "  dgemmBatch,"].

(** Lines 463-474. *)
Definition generic_table (ops : list BlasOp) : list string :=
  [""; "GPUARRAY_LOCAL gpuarray_blas_ops __GLUE(NAME, _ops) = {"]
  +++ generic_table_entries ops +++ ["};"].

Definition render_generic (ops : list BlasOp) : option string :=
  let? macros := all_some (map generic_op_macro ops) in
  Some (render_lines (generic_head +++ flat_map generic_order_lines ops +++ generic_macros
                      +++ concat macros +++ generic_table ops)).

(** ** [BUFFERBLAS_TMPL]: gpuarray/buffer_blas.h *)

(** Lines 477-515. *)
Definition bufferblas_head : list string :=
  [""; "/* This file is generated by gen_blas.py in the root of the distribution */";
   "#ifndef GPUARRAY_BUFFER_BLAS_H"; "#define GPUARRAY_BUFFER_BLAS_H"; "";
   "#include <gpuarray/buffer.h>"; "#include <gpuarray/config.h>"; "";
   "#ifdef __cplusplus"; "extern " ++ dq ++ "C" ++ dq ++ " {"; "#endif"; "";
   "typedef enum _cb_order {"; "  cb_row,"; "  cb_column"; "} cb_order;"; "";
   "#define cb_c cb_row"; "#define cb_fortran cb_column"; "";
   "typedef enum _cb_side {"; "  cb_left,"; "  cb_right"; "} cb_side;"; "";
   "typedef enum _cb_transpose {"; "  cb_no_trans,"; "  cb_trans,"; "  cb_conj_trans";
   "} cb_transpose;"; "";
   "typedef enum _cb_uplo {"; "  cb_upper,"; "  cb_lower"; "} cb_uplo;"; "";
   "typedef struct _gpuarray_blas_ops {"].

(** Lines 514-515: the fields before the loop. *)
Definition bufferblas_setup_fields : list string :=
  ["  int (*setup)(void *ctx);"; "  void (*teardown)(void *ctx);"].

(** Line 518: the field of one operation and element type. *)
Definition bufferblas_field (op : BlasOp) (t : Dtypes.Dtype) : option string :=
  let? args := format_arguments op (Dtypes.name t) in
  Some ("  int (*" ++ Dtypes.c t ++ name op ++ ")(" ++ args ++ ");").

(** Lines 516-520. *)
Definition bufferblas_fields (ops : list BlasOp) : option (list string) :=
  all_some (flat_map (fun op => map (bufferblas_field op) (types op)) ops).

(** Lines 521-522: the batched [gemm] entries, written out. *)
Definition batch_field (c ctype : string) : string :=
  "  int (*" ++ c ++ "gemmBatch)(cb_order order, cb_transpose transA, cb_transpose transB, "
  ++ "size_t M, size_t N, size_t K, " ++ ctype ++ " alpha, gpudata **A, size_t *offA, "
  ++ "size_t lda, gpudata **B, size_t *offB, size_t ldb, " ++ ctype ++ " beta, "
  ++ "gpudata **C, size_t *offC, size_t ldc, size_t batchCount);".

Definition bufferblas_batch_fields : list string := [batch_field "s" "float"; batch_field "d" "double"].

(** Lines 523-529. *)
Definition bufferblas_tail : list string :=
  ["} gpuarray_blas_ops;"; ""; "#ifdef __cplusplus"; "}"; "#endif"; ""; "#endif"].

(** The function pointer fields of the struct, in order. *)
Definition bufferblas_ptr_fields (ops : list BlasOp) : option (list string) :=
  let? fs := bufferblas_fields ops in
  Some (bufferblas_setup_fields +++ fs +++ bufferblas_batch_fields).

Definition render_bufferblas (ops : list BlasOp) : option string :=
  let? ps := bufferblas_ptr_fields ops in
  Some (render_lines (bufferblas_head +++ ps +++ bufferblas_tail)).

(** ** [BLAS_TMPL]: gpuarray/blas.h *)

(** Lines 532-543. *)
Definition blas_head : list string :=
  [""; "/* This file is generated by gen_blas.py in the root of the distribution */";
   "#ifndef GPUARRAY_BLAS_H"; "#define GPUARRAY_BLAS_H"; "";
   "#include <gpuarray/buffer_blas.h>"; "#include <gpuarray/array.h>"; "";
   "#ifdef __cplusplus"; "extern " ++ dq ++ "C" ++ dq ++ " {"; "#endif"; ""].

(** Lines 544-550: the declaration of [GpuArray_r<op>] and its alias
    per element type. *)
Definition blas_decl (op : BlasOp) : option (list string) :=
  let? ps := format_simple_args op "double" "GpuArray *" in
  Some (["GPUARRAY_PUBLIC int GpuArray_r" ++ name op ++ "(" ++ ps ++ ",";
         spaces 40 ++ "int nocopy);"]
        +++ map (fun t => "#define GpuArray_" ++ Dtypes.c t ++ name op ++ " GpuArray_r" ++ name op)
               (types op)).

(** Lines 551-556. *)
Definition blas_tail : list string := [""; "#ifdef __cplusplus"; "}"; "#endif"; ""; "#endif"].

Definition render_blas (ops : list BlasOp) : option string :=
  let? ds := all_some (map blas_decl ops) in
  Some (render_lines (blas_head +++ concat ds +++ blas_tail)).

(** ** The externs and wrappers of [BLAS_PYX_TMPL]: pygpu/blas.pyx *)

(** Lines 677-690. *)
Definition pyx_head : list string :=
  [""; "# This file is generated by gen_blas.py in the root of the distribution";
   "from pygpu.gpuarray import GpuArrayException";
   "from pygpu.gpuarray cimport (_GpuArray, GpuArray, GA_NO_ERROR, GpuArray_error,";
   spaces 29 ++ "pygpu_copy, pygpu_empty, pygpu_zeros,";
   spaces 29 ++ "GA_ANY_ORDER, GA_F_ORDER, GpuArray_ISONESEGMENT)"; "";
   "cdef extern from " ++ dq ++ "gpuarray/buffer_blas.h" ++ dq ++ ":";
   "    ctypedef enum cb_transpose:"; "        cb_no_trans,"; "        cb_trans,";
   "        cb_conj_trans"; ""; "cdef extern from " ++ dq ++ "gpuarray/blas.h" ++ dq ++ ":"].

(** Lines 691-694: the Cython declaration of [GpuArray_r<op>]. *)
Definition pyx_extern (op : BlasOp) : option (list string) :=
  let? ps := format_simple_args op "double" "_GpuArray *" in
  Some ["    int GpuArray_r" ++ name op ++ "(" ++ ps ++ ","; spaces 29 ++ "int nocopy)"].

(** Lines 696-705: the wrapper [pygpu_blas_r<op>]. *)
Definition pyx_wrapper (op : BlasOp) : option (list string) :=
  let? ps := format_simple_args op "double" "GpuArray " in
  let? cs := BlasOp.format_simple_call op "&%s.ga" in
  let? first := first_array_name op in
  Some ["cdef api int pygpu_blas_r" ++ name op ++ "(" ++ ps ++ ",";
        spaces 22 ++ "bint nocopy) except -1:";
        "    cdef int err";
        "    err = GpuArray_r" ++ name op ++ "(" ++ cs ++ ", nocopy);";
        "    if err != GA_NO_ERROR:";
        "        raise GpuArrayException(GpuArray_error(&" ++ first ++ ".ga, err), err)";
        "    return 0"; ""].

Definition render_pyx_head (ops : list BlasOp) : option string :=
  let? es := all_some (map pyx_extern ops) in
  let? ws := all_some (map pyx_wrapper ops) in
  Some (render_lines (pyx_head +++ concat es +++ [""] +++ concat ws +++ [""])).
