(* ===== verification/TemplateProps.v ===== *)
(** * The generated surfaces agree with each other

    The generic layer fills the table [gpuarray_blas_ops] by a
    positional initializer (generic_blas.inc.c, [GENERIC_TMPL]) whose
    type is the struct declared in buffer_blas.h ([BUFFERBLAS_TMPL]);
    each entry is a static function the generic layer defines through
    the C macro of its operation.  The binding's wrapper calls the
    function that blas.h declares.  A mismatch between two of these
    texts compiles to wrong code or does not link.  The theorems read
    the rendered text back, as the C preprocessor and compiler do:
    - the [i]-th function pointer field of the struct and the [i]-th
      initializer of the table name the same function, for every table
      whose operation names and type letters are identifiers (a round
      trip of the name through the two renderings);
    - the static function the macro of an operation defines for an
      element type has the name and the parameter list of the field it
      initializes;
    - the wrapper [pygpu_blas_r<op>] passes, position by position, its
      parameter of the name of the declaration's parameter, as [&X.ga]
      for an array. *)

From Stdlib Require Import String List Ascii Bool Arith.
From S2P Require Import Prelude Dtype Runtime Args BlasOp Ops Fixtures Templates.
Import ListNotations.
Open Scope string_scope.
Open Scope blas_scope.

(** ** Reading the text back *)

Fixpoint strip_prefix (p s : string) : option string :=
  match p, s with
  | EmptyString, _ => Some s
  | String a p', String b s' => if Ascii.eqb a b then strip_prefix p' s' else None
  | _, _ => None
  end.

(** The text after the first occurrence of [p]. *)
Fixpoint after (p s : string) : option string :=
  match strip_prefix p s with
  | Some r => Some r
  | None => match s with EmptyString => None | String _ s' => after p s' end
  end.

(** The text before the first [c]. *)
Fixpoint take_until (c : ascii) (s : string) : string :=
  match s with
  | EmptyString => EmptyString
  | String d r => if Ascii.eqb d c then EmptyString else String d (take_until c r)
  end.

(** The function a struct field [  int ( *name)(...);] points to. *)
Definition field_name (l : string) : option string :=
  option_map (take_until ")") (after "(*" l).

(** The function an initializer [  name,] names. *)
Definition init_name (l : string) : option string :=
  option_map (take_until ",") (strip_prefix "  " l).

Definition ident_char (c : ascii) : bool :=
  let n := nat_of_ascii c in
  (Nat.leb 48 n && Nat.leb n 57) || (Nat.leb 65 n && Nat.leb n 90)
  || (Nat.leb 97 n && Nat.leb n 122) || Nat.eqb n 95.

Fixpoint is_ident (s : string) : bool :=
  match s with EmptyString => true | String c r => ident_char c && is_ident r end.

(** ** Lemmas on strings and lists *)

Lemma str_app_assoc (a b c : string) : (a ++ b) ++ c = a ++ (b ++ c).
Proof. induction a as [|x a IH]; simpl; congruence. Qed.

Lemma is_ident_app a b : is_ident (a ++ b) = is_ident a && is_ident b.
Proof. induction a as [|x a IH]; simpl; [reflexivity|]. rewrite IH. apply andb_assoc. Qed.

Lemma take_until_ident c n r :
  ident_char c = false -> is_ident n = true -> take_until c (n ++ String c r) = n.
Proof.
  intros Hc. induction n as [|d n IH]; simpl.
  - now rewrite Ascii.eqb_refl.
  - intros Hn. apply andb_true_iff in Hn as [Hd Hn].
    destruct (Ascii.eqb_spec d c) as [->|_]; [congruence|]. now rewrite IH.
Qed.

Lemma field_name_line n args :
  is_ident n = true -> field_name ("  int (*" ++ n ++ ")(" ++ args ++ ");") = Some n.
Proof.
  intros Hn. unfold field_name. cbn [after strip_prefix append Ascii.eqb Bool.eqb].
  simpl. now rewrite take_until_ident.
Qed.

Lemma init_name_line n : is_ident n = true -> init_name ("  " ++ n ++ ",") = Some n.
Proof. intros Hn. unfold init_name. simpl. now rewrite take_until_ident. Qed.

(** The (operation, element type) pairs of a table, in the order of the
    templates' nested loops. *)
Definition op_types (ops : list BlasOp) : list (BlasOp * Dtypes.Dtype) :=
  flat_map (fun op => map (fun t => (op, t)) (types op)) ops.

Lemma flat_map_op_types {B} (g : BlasOp -> Dtypes.Dtype -> B) ops :
  flat_map (fun op => map (g op) (types op)) ops = map (fun p => g (fst p) (snd p)) (op_types ops).
Proof.
  unfold op_types. induction ops as [|op ops IH]; simpl; [reflexivity|].
  now rewrite map_app, map_map, IH.
Qed.

Lemma all_some_map_rel {A B C} (g : A -> option B) (h : B -> C) (k : A -> C) l fs :
  (forall x y, In x l -> g x = Some y -> h y = k x) ->
  all_some (map g l) = Some fs -> map h fs = map k l.
Proof.
  revert fs. induction l as [|x l IH]; simpl; intros fs Hx Hs.
  - now injection Hs as <-.
  - destruct (g x) as [y|] eqn:Hg; [|discriminate].
    destruct (all_some (map g l)) as [ys|] eqn:Hl; [|discriminate].
    injection Hs as <-. simpl. rewrite (Hx x y (or_introl eq_refl) Hg).
    f_equal. apply IH; auto.
Qed.

Lemma In_op_types ops op t : In (op, t) (op_types ops) -> In op ops /\ In t (types op).
Proof.
  unfold op_types. intros H. apply in_flat_map in H as (op' & Hop & Ht).
  apply in_map_iff in Ht as (t' & E & Ht). injection E as -> ->. auto.
Qed.

(** ** The struct and the table name the same functions *)

(** C19.  For every table whose entry names ([<type letter><op
    name>]) are identifiers, the name read back from the [i]-th
    function pointer field of the struct [gpuarray_blas_ops]
    (buffer_blas.h) and the name read back from the [i]-th initializer
    of the table (generic_blas.inc.c) are both the [i]-th entry of the
    table: the positional initializer stores every function in the
    field of its own name. *)
Theorem table_fields_agree ops ps :
  (forall op t, In op ops -> In t (types op) -> is_ident (Dtypes.c t ++ name op) = true) ->
  bufferblas_ptr_fields ops = Some ps ->
  map field_name ps = map Some (entry_list ops) /\
  map init_name (generic_table_entries ops) = map Some (entry_list ops).
Proof.
  intros Hid Hps. unfold bufferblas_ptr_fields in Hps.
  destruct (bufferblas_fields ops) as [fs|] eqn:Hfs; [|discriminate]. injection Hps as <-.
  unfold bufferblas_fields in Hfs. rewrite flat_map_op_types in Hfs.
  assert (H1 : map field_name fs = map (fun p => Some (Dtypes.c (snd p) ++ name (fst p))) (op_types ops)).
  { refine (all_some_map_rel _ _ _ _ _ _ Hfs). intros [op t] y Hp Hy. apply In_op_types in Hp as [Hop Ht]. simpl in *.
    unfold bufferblas_field in Hy. destruct (format_arguments op (Dtypes.name t)); [|discriminate].
    injection Hy as <-. rewrite <- str_app_assoc. apply field_name_line, Hid; assumption. }
  assert (H2 : map init_name (map (fun p => "  " ++ Dtypes.c (snd p) ++ name (fst p) ++ ",") (op_types ops))
               = map (fun p => Some (Dtypes.c (snd p) ++ name (fst p))) (op_types ops)).
  { rewrite map_map. apply map_ext_in. intros [op t] Hp. apply In_op_types in Hp as [Hop Ht].
    simpl. rewrite <- str_app_assoc. apply init_name_line, Hid; assumption. }
  unfold entry_list, generic_table_entries, bufferblas_setup_fields.
  rewrite !flat_map_op_types. cbn [map app]. rewrite !map_app, H1, H2, map_map.
  split; reflexivity.
Qed.

(** ** The functions of the generic layer have the fields' types *)

(** The C preprocessor's replacement of the macro parameter [x] by the
    argument [v]: every identifier token equal to [x] is replaced. *)
Fixpoint subst_go (x v tok s : string) : string :=
  match s with
  | EmptyString => if String.eqb tok x then v else tok
  | String c r =>
      if ident_char c then subst_go x v (tok ++ String c EmptyString) r
      else (if String.eqb tok x then v else tok) ++ String c (subst_go x v EmptyString r)
  end.

Definition subst_ident (x v s : string) : string := subst_go x v EmptyString s.

(** The token pasting [a ## b]. *)
Fixpoint paste (s : string) : string :=
  match s with
  | String " " (String "#" (String "#" (String " " r))) => paste r
  | String c r => String c (paste r)
  | EmptyString => EmptyString
  end.

(** A line of the macro of [GENERIC_TMPL] as it reads after the use
    [<OP>(t.name, t.c, T)] of line 460: its parameters replaced by the
    arguments (none of which mentions another parameter) and the
    tokens pasted. *)
Definition expand_use (t : Dtypes.Dtype) (l : string) : string :=
  paste (subst_ident "TYPEC" (py_upper (Dtypes.c t))
           (subst_ident "typec" (Dtypes.c t) (subst_ident "dtype" (Dtypes.name t) l))).

(** The name and parameter list of a function definition
    [static int name(params) {]. *)
Definition def_sig (l : string) : option (string * string) :=
  let? r := after "static int " l in
  let? ps := after "(" r in
  Some (take_until "(" r, take_until ")" ps).

(** The name and parameter list of a function pointer field
    [int ( *name)(params);]. *)
Definition field_sig (l : string) : option (string * string) :=
  let? r := after "(*" l in
  let? ps := after ")(" r in
  Some (take_until ")" r, take_until ")" ps).

(** C20.  For every operation of [make_ops] and each of its
    element types, the static function that the operation's macro in
    generic_blas.inc.c defines at the use for that type has the name
    and the parameter list, parameter by parameter and type by type, of
    the struct field of buffer_blas.h that the table initializes with
    it. *)
Theorem generic_functions_match_fields {RT : BlasRuntime} op t :
  In op make_ops -> In t (types op) ->
  exists ms fld, generic_op_macro op = Some ms /\ bufferblas_field op t = Some fld /\
    In (upper_name op ++ "(" ++ Dtypes.name t ++ ", " ++ Dtypes.c t ++ ", " ++ py_upper (Dtypes.c t)
        ++ ")") ms /\
    option_map (fun l => def_sig (expand_use t l)) (nth_error ms 1) = Some (field_sig fld) /\
    field_sig fld <> None.
Proof.
  intros Hop Ht. destruct Hop as [<-|[<-|[<-|[]]]]; simpl in Ht; destruct Ht as [<-|[<-|[]]];
    do 2 eexists; (split; [reflexivity|]); (split; [reflexivity|]);
    (split; [simpl; tauto|]); vm_compute; (split; [reflexivity | discriminate]).
Qed.

(** ** The wrapper calls the declared function with its own parameters *)

(** A C parameter list split at its separators [", "]. *)
Fixpoint split_go (cur s : string) : list string :=
  match s with
  | EmptyString => [cur]
  | String "," (String " " r) => cur :: split_go EmptyString r
  | String c r => split_go (cur ++ String c EmptyString) r
  end.

Definition split_params (s : string) : list string := split_go EmptyString s.

(** The name a parameter declares: its last word ([GpuArray *A],
    [double alpha]). *)
Fixpoint last_word (cur s : string) : string :=
  match s with
  | EmptyString => cur
  | String c r =>
      if Ascii.eqb c " " || Ascii.eqb c "*" then last_word EmptyString r
      else last_word (cur ++ String c EmptyString) r
  end.

(** The argument the wrapper passes for a parameter of the declaration:
    its own parameter of the same name, as [&X.ga] for an array. *)
Definition arg_passes (decl wrap call : string) : bool :=
  let nm := last_word EmptyString decl in
  String.eqb (last_word EmptyString wrap) nm &&
  String.eqb call (match strip_prefix "GpuArray *" decl with
                   | Some _ => "&" ++ nm ++ ".ga"
                   | None => nm
                   end).

Fixpoint all3 (f : string -> string -> string -> bool) (a b c : list string) : bool :=
  match a, b, c with
  | [], [], [] => true
  | x :: a', y :: b', z :: c' => f x y z && all3 f a' b' c'
  | _, _, _ => false
  end.

(** C21.  For every operation of [make_ops], the parameter list of
    [GpuArray_r<op>] that blas.h declares (and gpuarray_array_blas.c
    defines), the one the Cython [extern] declares, the parameters of
    the wrapper [pygpu_blas_r<op>] and the arguments of its call render,
    and they correspond position by position: the extern declares the
    parameters of blas.h by the same names, and the call passes for each
    parameter of blas.h the wrapper's parameter of that name, as [&X.ga]
    for an array ([GpuArray *]) parameter. *)
Theorem pyx_call_matches_decl {RT : BlasRuntime} op :
  In op make_ops ->
  exists ds xs ws cs,
    format_simple_args op "double" "GpuArray *" = Some ds /\
    format_simple_args op "double" "_GpuArray *" = Some xs /\
    format_simple_args op "double" "GpuArray " = Some ws /\
    BlasOp.format_simple_call op "&%s.ga" = Some cs /\
    all3 arg_passes (split_params ds) (split_params ws) (split_params cs) = true /\
    map (last_word EmptyString) (split_params xs) = map (last_word EmptyString) (split_params ds).
Proof.
  intros [<-|[<-|[<-|[]]]]; do 4 eexists;
    repeat (split; [reflexivity|]); vm_compute; reflexivity.
Qed.

(** The round trip at the table of the generator, [make_ops]. *)
Lemma table_fields_agree_witness :
  exists ps, bufferblas_ptr_fields (@make_ops rt_ok) = Some ps /\
    map field_name ps = map Some (entry_list (@make_ops rt_ok)) /\
    map init_name (generic_table_entries (@make_ops rt_ok)) = map Some (entry_list (@make_ops rt_ok)).
Proof.
  eexists. split; [vm_compute; reflexivity|].
  apply (table_fields_agree (@make_ops rt_ok)); [|vm_compute; reflexivity].
  intros op t Hop Ht. destruct Hop as [<-|[<-|[<-|[]]]]; simpl in Ht;
    destruct Ht as [<-|[<-|[]]]; reflexivity.
Defined.

(** The macro of [gemm] at [double]. *)
Lemma generic_functions_match_fields_witness :
  In (@gemm_op rt_ok) (@make_ops rt_ok) /\ In Dtypes.double (types (@gemm_op rt_ok)) /\
  bufferblas_field (@gemm_op rt_ok) Dtypes.double <> None.
Proof.
  split; [simpl; auto|]. split; [simpl; auto|].
  destruct (generic_functions_match_fields (RT := rt_ok) (@gemm_op rt_ok) Dtypes.double) as (ms & fld & _ & Hf & _);
    [simpl; auto | simpl; auto |].
  rewrite Hf. discriminate.
Defined.

(** The wrapper of [ger]. *)
Lemma pyx_call_matches_decl_witness :
  In (@ger_op rt_ok) (@make_ops rt_ok) /\
  BlasOp.format_simple_call (@ger_op rt_ok) "&%s.ga" = Some "alpha, &X.ga, &Y.ga, &A.ga".
Proof.
  split; [simpl; auto|].
  destruct (pyx_call_matches_decl (RT := rt_ok) (@ger_op rt_ok)) as (ds & xs & ws & cs & _ & _ & _ & Hc & _);
    [simpl; auto|].
  rewrite Hc. vm_compute in Hc. injection Hc as <-. reflexivity.
Defined.
