(* ===== verification/LayoutProps.v ===== *)
(** * Specification of the layout negotiation and its refinement

    The spec's description of the negotiation (section 4.3, step 6) as
    functions of the caller's matrices: the storage order of a
    one-segment matrix, its leading dimension, the transpose flag as
    corrected for a fixed order, and the shape of [op(A)].  The theorems
    show what each fragment of [Layout] computes in terms of them: the
    dimension checks of the three operations, and the order setup of
    [gemm] (the only one that corrects flags). *)

From Stdlib Require Import String List Bool ZArith Lia.
From S2P Require Import Prelude Dtype Runtime Layout Fixtures.
Import ListNotations.
Open Scope string_scope.
Open Scope Z_scope.

(** ** The abstract specification *)

(** The storage order the code reads from a one-segment matrix:
    Fortran order is tested first. *)
Definition native_order (P : GpuArray) : cb_order :=
  if is_f_flag P then cb_fortran else cb_c.

(** The leading dimension of a matrix stored in its own order: the
    number of rows in column-major storage, of columns in row-major. *)
Definition native_ld (P : GpuArray) (d0 d1 : Z) : Z :=
  if is_f_flag P then d0 else d1.

(** The transpose flag a matrix needs when the call's order is [o]:
    inverted when the matrix is stored the other way. *)
Definition corrected_trans (o : cb_order) (P : GpuArray) (t : cb_transpose) : cb_transpose :=
  if cb_order_eqb (native_order P) o then t else flip_trans t.

(** The shape of [op(A)] for a [d0 x d1] matrix [A]. *)
Definition op_shape (t : cb_transpose) (d0 d1 : Z) : Z * Z :=
  if cb_transpose_eqb t cb_no_trans then (d0, d1) else (d1, d0).

(** A matrix argument bound in a list of locals, with its rank and
    dimensions. *)
Definition mat_at (l : alist GpuArray) (nm : string) (P : GpuArray) (d0 d1 : Z) : Prop :=
  alookup l nm = Some P /\ nd P = 2%nat /\ dimensions P = [d0; d1].

Definition vec_at (l : alist GpuArray) (nm : string) (P : GpuArray) (d0 : Z) : Prop :=
  alookup l nm = Some P /\ nd P = 1%nat /\ dimensions P = [d0].

Lemma mat_at_dim l nm P d0 d1 :
  mat_at l nm P d0 d1 -> dim P 0 = Some d0 /\ dim P 1 = Some d1.
Proof. intros (_ & Hnd & Hd). unfold dim. now rewrite Hnd, Hd. Qed.

Lemma vec_at_dim l nm P d0 : vec_at l nm P d0 -> dim P 0 = Some d0.
Proof. intros (_ & Hnd & Hd). unfold dim. now rewrite Hnd, Hd. Qed.

(** A one-segment matrix is Fortran-flagged, or C-flagged and not
    Fortran-flagged. *)
Lemma onesegment_cases P :
  GpuArray_ISONESEGMENT P = true ->
  is_f_flag P = true \/ (is_f_flag P = false /\ is_c_flag P = true).
Proof.
  rewrite onesegment_c_or_f. destruct (is_f_flag P), (is_c_flag P); auto.
Qed.

(** Rewrite with the facts about the bound arguments and compute. *)
Ltac frame_facts :=
  repeat match goal with
  | H : mat_at _ _ _ _ _ |- _ =>
      let H1 := fresh in let H2 := fresh in
      pose proof (mat_at_dim _ _ _ _ _ H) as [H1 H2];
      destruct H as [? [_ _]]
  | H : vec_at _ _ _ _ |- _ =>
      let H1 := fresh in
      pose proof (vec_at_dim _ _ _ _ H) as H1;
      destruct H as [? [_ _]]
  end.

(** ** The dimension checks *)

(** [check_dims_gemm] accepts exactly when the inner
    dimensions of [op(A)] and [op(B)] agree and [C] has the shape of
    their product, and then sets [m], [k], [n] to that shape; otherwise
    it returns [GA_VALUE_ERROR]. *)
Lemma check_dims_gemm_eq f A B C a0 a1 b0 b1 c0 c1 ta tb :
  mat_at (f_args f) "A" A a0 a1 -> mat_at (f_args f) "B" B b0 b1 ->
  mat_at (f_args f) "C" C c0 c1 ->
  alookup (f_trans f) "transA" = Some ta -> alookup (f_trans f) "transB" = Some tb ->
  let '(m, k) := op_shape ta a0 a1 in
  let '(kb, n) := op_shape tb b0 b1 in
  check_dims_gemm f =
    if (kb =? k) && (c0 =? m) && (c1 =? n)
    then CNext (set_size "n" n (set_size "k" k (set_size "m" m f)))
    else CReturn GA_VALUE_ERROR.
Proof.
  intros HA HB HC Hta Htb. unfold check_dims_gemm, op_shape, arg, trans_of, dimc.
  frame_facts. crunch.
  destruct ta, tb; crunch; case_Zeqb; reflexivity.
Qed.

(** [check_dims_gemv] accepts exactly when [Y] has as many elements as
    [op(A)] has rows and [X] as many as it has columns; it then leaves
    [m], [n] set to the dimensions of [A] itself (the backend receives
    [A]'s shape and the transpose flag). *)
Lemma check_dims_gemv_eq f A X Y a0 a1 x0 y0 ta :
  mat_at (f_args f) "A" A a0 a1 -> vec_at (f_args f) "X" X x0 ->
  vec_at (f_args f) "Y" Y y0 -> alookup (f_trans f) "transA" = Some ta ->
  let '(m, n) := op_shape ta a0 a1 in
  check_dims_gemv f =
    if (y0 =? m) && (x0 =? n)
    then CNext (set_size "n" a1 (set_size "m" a0 (set_size "n" n (set_size "m" m f))))
    else CReturn GA_VALUE_ERROR.
Proof.
  intros HA HX HY Hta. unfold check_dims_gemv, op_shape, arg, trans_of, dimc.
  frame_facts. crunch. destruct ta; crunch; case_Zeqb; reflexivity.
Qed.

(** [check_dims_ger] accepts exactly when [A] is [len X x len Y]. *)
Lemma check_dims_ger_eq f A X Y a0 a1 x0 y0 :
  mat_at (f_args f) "A" A a0 a1 -> vec_at (f_args f) "X" X x0 ->
  vec_at (f_args f) "Y" Y y0 ->
  check_dims_ger f =
    if (a0 =? x0) && (a1 =? y0)
    then CNext (set_size "n" y0 (set_size "m" x0 f))
    else CReturn GA_VALUE_ERROR.
Proof.
  intros HA HX HY. unfold check_dims_ger, arg, dimc.
  frame_facts. crunch. case_Zeqb; reflexivity.
Qed.

(** ** The storage-order setup of [gemm] *)

(** The order-defining block, on a one-segment matrix, sets the call's
    order to the matrix's own and its leading dimension to the native
    one; [setup_order_gemv] and [setup_order_ger] are this block for [A]. *)
Lemma order_defining_spec f mat ld P d0 d1 :
  mat_at (f_ptr f) mat P d0 d1 -> GpuArray_ISONESEGMENT P = true ->
  order_defining mat ld f = CNext (set_size ld (native_ld P d0 d1) (set_order (native_order P) f)).
Proof.
  intros HP SP. unfold order_defining, ptr, dimc, native_ld, native_order.
  frame_facts. crunch.
  destruct (onesegment_cases _ SP) as [F|[F C]]; rewrite F; crunch; reflexivity.
Qed.

(** [setup_order_gemm], on one-segment matrices, fixes the call's order
    to [C]'s, takes each leading dimension from its own matrix's storage,
    and corrects the flags of [A] and [B] for that order; it touches
    nothing else of the frame. *)
Lemma setup_order_gemm_eq f A B C a0 a1 b0 b1 c0 c1 ta tb :
  mat_at (f_ptr f) "A" A a0 a1 -> mat_at (f_ptr f) "B" B b0 b1 ->
  mat_at (f_ptr f) "C" C c0 c1 ->
  GpuArray_ISONESEGMENT A = true -> GpuArray_ISONESEGMENT B = true ->
  GpuArray_ISONESEGMENT C = true ->
  alookup (f_trans f) "transA" = Some ta -> alookup (f_trans f) "transB" = Some tb ->
  exists f', setup_order_gemm f = CNext f' /\
    f_order f' = Some (native_order C) /\
    alookup (f_size f') "ldc" = Some (native_ld C c0 c1) /\
    alookup (f_size f') "lda" = Some (native_ld A a0 a1) /\
    alookup (f_size f') "ldb" = Some (native_ld B b0 b1) /\
    alookup (f_trans f') "transA" = Some (corrected_trans (native_order C) A ta) /\
    alookup (f_trans f') "transB" = Some (corrected_trans (native_order C) B tb) /\
    (forall key, key <> "lda" -> key <> "ldb" -> key <> "ldc" ->
       alookup (f_size f') key = alookup (f_size f) key) /\
    keeps_ptrs f f'.
Proof.
  intros HA HB HC SA SB SC Hta Htb.
  unfold setup_order_gemm, order_defining, order_following, ptr, trans_of, dimc.
  unfold native_order, native_ld, corrected_trans, native_order.
  frame_facts.
  destruct (onesegment_cases _ SA) as [FA|[FA CA]];
  destruct (onesegment_cases _ SB) as [FB|[FB CB]];
  destruct (onesegment_cases _ SC) as [FC|[FC CC]];
  crunch; eexists; (split; [reflexivity|]); simpl;
  repeat split; try reflexivity; eauto 20 with blas;
  intros key K1 K2 K3; unfold aset; simpl; neq_keys; reflexivity.
Qed.

(** ** The layout error *)

(** A matrix that is neither Fortran- nor C-flagged is a layout error
    of the block that reads it, through the cleanup. *)
Lemma not_onesegment_flags P :
  GpuArray_ISONESEGMENT P = false -> is_f_flag P = false /\ is_c_flag P = false.
Proof. rewrite onesegment_c_or_f. destruct (is_c_flag P), (is_f_flag P); auto; discriminate. Qed.

Lemma order_defining_defect f mat ld P :
  alookup (f_ptr f) mat = Some P -> GpuArray_ISONESEGMENT P = false ->
  order_defining mat ld f = CGoto GA_VALUE_ERROR.
Proof.
  intros HP SP. destruct (not_onesegment_flags P SP) as [F C].
  unfold order_defining, ptr. rewrite HP. simpl. now rewrite F, C.
Qed.

Lemma order_following_defect f mat tr ld P :
  alookup (f_ptr f) mat = Some P -> GpuArray_ISONESEGMENT P = false ->
  order_following mat tr ld f = CGoto GA_VALUE_ERROR.
Proof.
  intros HP SP. destruct (not_onesegment_flags P SP) as [F C].
  unfold order_following, ptr. rewrite HP. simpl. now rewrite F, C.
Qed.

(** [setup_order_gemm] with [Cp] in one segment and [Ap] not: the
    layout error. *)
Lemma setup_order_gemm_defect_A f C A c0 c1 :
  mat_at (f_ptr f) "C" C c0 c1 -> GpuArray_ISONESEGMENT C = true ->
  alookup (f_ptr f) "A" = Some A -> GpuArray_ISONESEGMENT A = false ->
  setup_order_gemm f = CGoto GA_VALUE_ERROR.
Proof.
  intros HC SC HA SA. unfold setup_order_gemm.
  rewrite (order_defining_spec f "C" "ldc" C c0 c1 HC SC). cbn [cbind].
  rewrite (order_following_defect _ "A" "transA" "lda" A); [reflexivity | exact HA | exact SA].
Qed.

(** C30.  [check_dims_gemm] accepts exactly when the inner
    dimensions of [op(A)] and [op(B)] agree and [C] has the shape of
    their product, and then sets [m], [k], [n] to that shape; otherwise
    it returns [GA_VALUE_ERROR]. *)
Theorem check_dims_gemm_spec f A B C a0 a1 b0 b1 c0 c1 ta tb :
  mat_at (f_args f) "A" A a0 a1 -> mat_at (f_args f) "B" B b0 b1 ->
  mat_at (f_args f) "C" C c0 c1 ->
  alookup (f_trans f) "transA" = Some ta -> alookup (f_trans f) "transB" = Some tb ->
  let '(m, k) := op_shape ta a0 a1 in
  let '(kb, n) := op_shape tb b0 b1 in
  check_dims_gemm f =
    if (kb =? k) && (c0 =? m) && (c1 =? n)
    then CNext (set_size "n" n (set_size "k" k (set_size "m" m f)))
    else CReturn GA_VALUE_ERROR.
Proof. apply check_dims_gemm_eq. Qed.

(** C31.  [check_dims_gemv] accepts exactly when [Y] has as many
    elements as [op(A)] has rows and [X] as many as it has columns, and
    then leaves [m], [n] set to the dimensions of [A] itself; otherwise
    it returns [GA_VALUE_ERROR]. *)
Theorem check_dims_gemv_spec f A X Y a0 a1 x0 y0 ta :
  mat_at (f_args f) "A" A a0 a1 -> vec_at (f_args f) "X" X x0 ->
  vec_at (f_args f) "Y" Y y0 -> alookup (f_trans f) "transA" = Some ta ->
  let '(m, n) := op_shape ta a0 a1 in
  check_dims_gemv f =
    if (y0 =? m) && (x0 =? n)
    then CNext (set_size "n" a1 (set_size "m" a0 (set_size "n" n (set_size "m" m f))))
    else CReturn GA_VALUE_ERROR.
Proof. apply check_dims_gemv_eq. Qed.

(** C32.  [check_dims_ger] accepts exactly when [A] is
    [len X x len Y], and then sets [m], [n] to the vectors' lengths;
    otherwise it returns [GA_VALUE_ERROR]. *)
Theorem check_dims_ger_spec f A X Y a0 a1 x0 y0 :
  mat_at (f_args f) "A" A a0 a1 -> vec_at (f_args f) "X" X x0 ->
  vec_at (f_args f) "Y" Y y0 ->
  check_dims_ger f =
    if (a0 =? x0) && (a1 =? y0)
    then CNext (set_size "n" y0 (set_size "m" x0 f))
    else CReturn GA_VALUE_ERROR.
Proof. apply check_dims_ger_eq. Qed.

(** On one-segment matrices, [setup_order_gemm] refines
    the layout negotiation: the call's order is [C]'s native order, each
    leading dimension is its matrix's native one, the flags of [A] and
    [B] are corrected for the call's order, and nothing else of the frame
    changes. *)
Theorem setup_order_gemm_spec f A B C a0 a1 b0 b1 c0 c1 ta tb :
  mat_at (f_ptr f) "A" A a0 a1 -> mat_at (f_ptr f) "B" B b0 b1 ->
  mat_at (f_ptr f) "C" C c0 c1 ->
  GpuArray_ISONESEGMENT A = true -> GpuArray_ISONESEGMENT B = true ->
  GpuArray_ISONESEGMENT C = true ->
  alookup (f_trans f) "transA" = Some ta -> alookup (f_trans f) "transB" = Some tb ->
  exists f', setup_order_gemm f = CNext f' /\
    f_order f' = Some (native_order C) /\
    alookup (f_size f') "ldc" = Some (native_ld C c0 c1) /\
    alookup (f_size f') "lda" = Some (native_ld A a0 a1) /\
    alookup (f_size f') "ldb" = Some (native_ld B b0 b1) /\
    alookup (f_trans f') "transA" = Some (corrected_trans (native_order C) A ta) /\
    alookup (f_trans f') "transB" = Some (corrected_trans (native_order C) B tb) /\
    (forall key, key <> "lda" -> key <> "ldb" -> key <> "ldc" ->
       alookup (f_size f') key = alookup (f_size f) key) /\
    keeps_ptrs f f'.
Proof. apply setup_order_gemm_eq. Qed.

(** C18.  The scenario of the spec's section 8: a matrix [A] stored
    column-major (and not row-major) while the output [C] is row-major
    (and not column-major).  The call is made in row-major order, [A]'s
    flag is inverted, and its leading dimension is its FIRST dimension
    (its number of rows, the stride between its columns); the spec's
    section 8 says the second. *)
Theorem setup_order_gemm_colmajor_A f A B C a0 a1 b0 b1 c0 c1 ta tb :
  mat_at (f_ptr f) "A" A a0 a1 -> mat_at (f_ptr f) "B" B b0 b1 ->
  mat_at (f_ptr f) "C" C c0 c1 ->
  is_f_flag A = true -> GpuArray_ISONESEGMENT B = true ->
  is_f_flag C = false -> is_c_flag C = true ->
  alookup (f_trans f) "transA" = Some ta -> alookup (f_trans f) "transB" = Some tb ->
  exists f', setup_order_gemm f = CNext f' /\ f_order f' = Some cb_row /\
    alookup (f_size f') "lda" = Some a0 /\ alookup (f_trans f') "transA" = Some (flip_trans ta).
Proof.
  intros HA HB HC FA SB FC CC Hta Htb.
  assert (SA : GpuArray_ISONESEGMENT A = true) by (rewrite onesegment_c_or_f, FA; apply orb_true_r).
  assert (SC : GpuArray_ISONESEGMENT C = true) by (rewrite onesegment_c_or_f, CC; reflexivity).
  destruct (setup_order_gemm_eq f A B C a0 a1 b0 b1 c0 c1 ta tb HA HB HC SA SB SC Hta Htb)
    as (f' & Hs & Ho & _ & Hla & _ & Hta' & _).
  exists f'. unfold corrected_trans, native_order, native_ld in *.
  rewrite FC in Ho, Hta'. rewrite FA in Hla, Hta'. simpl in Hta'. auto.
Qed.

(** ** The theorems at concrete frames *)

(** [C = A B] with [A] [2 x 3], [B] [3 x 4], [C] [2 x 4]: accepted. *)
Lemma check_dims_gemm_spec_witness :
  let fr := frame_of [("A", cmat 1 2 3); ("B", cmat 2 3 4); ("C", cmat 3 2 4)]
                     [("transA", cb_no_trans); ("transB", cb_no_trans)] in
  check_dims_gemm fr = CNext (set_size "n" 4 (set_size "k" 3 (set_size "m" 2 fr))).
Proof.
  intros fr. exact (check_dims_gemm_spec fr _ _ _ 2 3 3 4 2 4 cb_no_trans cb_no_trans
    (conj eq_refl (conj eq_refl eq_refl)) (conj eq_refl (conj eq_refl eq_refl))
    (conj eq_refl (conj eq_refl eq_refl)) eq_refl eq_refl).
Defined.

(** [y = A^T x] with [A] [3 x 2], [x] of length 3, [y] of length 2. *)
Lemma check_dims_gemv_spec_witness :
  let fr := frame_of [("A", cmat 1 3 2); ("X", fvec 2 3 4); ("Y", fvec 3 2 4)]
                     [("transA", cb_trans)] in
  check_dims_gemv fr =
    CNext (set_size "n" 2 (set_size "m" 3 (set_size "n" 3 (set_size "m" 2 fr)))).
Proof.
  intros fr. exact (check_dims_gemv_spec fr _ _ _ 3 2 3 2 cb_trans
    (conj eq_refl (conj eq_refl eq_refl)) (conj eq_refl (conj eq_refl eq_refl))
    (conj eq_refl (conj eq_refl eq_refl)) eq_refl).
Defined.

(** The spec's rank-1 example: [X] of length 5, [Y] of length 7 and an
    [A] of shape [5 x 6]: rejected. *)
Lemma check_dims_ger_spec_witness :
  let fr := frame_of [("A", cmat 1 5 6); ("X", fvec 2 5 4); ("Y", fvec 3 7 4)] [] in
  check_dims_ger fr = CReturn GA_VALUE_ERROR.
Proof.
  intros fr. exact (check_dims_ger_spec fr _ _ _ 5 6 5 7
    (conj eq_refl (conj eq_refl eq_refl)) (conj eq_refl (conj eq_refl eq_refl))
    (conj eq_refl (conj eq_refl eq_refl))).
Defined.

(** A Fortran-ordered [A] and C-ordered [B], [C]. *)
Lemma setup_order_gemm_spec_witness :
  let fr := frame_of [("A", fmat 1 2 3); ("B", cmat 2 3 4); ("C", cmat 3 2 4)]
                     [("transA", cb_no_trans); ("transB", cb_no_trans)] in
  exists f', setup_order_gemm fr = CNext f' /\ f_order f' = Some cb_c /\
    alookup (f_size f') "ldc" = Some 4 /\ alookup (f_size f') "lda" = Some 2 /\
    alookup (f_size f') "ldb" = Some 4 /\
    alookup (f_trans f') "transA" = Some cb_trans /\
    alookup (f_trans f') "transB" = Some cb_no_trans /\
    (forall key, key <> "lda" -> key <> "ldb" -> key <> "ldc" ->
       alookup (f_size f') key = alookup (f_size fr) key) /\
    keeps_ptrs fr f'.
Proof.
  intros fr. exact (setup_order_gemm_spec fr _ _ _ 2 3 3 4 2 4 cb_no_trans cb_no_trans
    (conj eq_refl (conj eq_refl eq_refl)) (conj eq_refl (conj eq_refl eq_refl))
    (conj eq_refl (conj eq_refl eq_refl)) eq_refl eq_refl eq_refl eq_refl eq_refl).
Defined.

(** The section 8 scenario with a [2 x 3] column-major [A]: [lda = 2],
    its first dimension. *)
Lemma setup_order_gemm_colmajor_A_witness :
  let fr := frame_of [("A", fmat 1 2 3); ("B", cmat 2 3 4); ("C", cmat 3 2 4)]
                     [("transA", cb_no_trans); ("transB", cb_no_trans)] in
  exists f', setup_order_gemm fr = CNext f' /\ f_order f' = Some cb_row /\
    alookup (f_size f') "lda" = Some 2 /\ alookup (f_trans f') "transA" = Some cb_trans.
Proof.
  intros fr. exact (setup_order_gemm_colmajor_A fr _ _ _ 2 3 3 4 2 4 cb_no_trans cb_no_trans
    (conj eq_refl (conj eq_refl eq_refl)) (conj eq_refl (conj eq_refl eq_refl))
    (conj eq_refl (conj eq_refl eq_refl)) eq_refl eq_refl eq_refl eq_refl eq_refl eq_refl).
Defined.
