(* ===== verification/Negotiation.v ===== *)
(** * The layout negotiation is sound

    [LayoutProps] shows what [setup_order_gemm] computes: the call's
    order, each matrix's leading dimension and corrected flag.  This file
    shows that what it computes is right.  A BLAS routine called with
    order [o], flag [t] and leading dimension [ld] reads element [(i, j)]
    of [op(M)] at a fixed position of the buffer ([blas_offset]); the
    caller means element [(i, j)] of [op(P)] of its [GpuArray] [P],
    whose address its byte strides give ([caller_offset]).  On a
    one-segment matrix whose flags are those libgpuarray computes from
    its strides, the two agree at every index of [op(P)], whatever the
    order of the call: the corrected flag and the native leading
    dimension make the backend address exactly the caller's elements.
    [gemv] and [ger] take the order of [A] itself, so their flag needs
    no correction: composed with the dimension check, their fragments
    make the backend address the caller's [op(A)] and [A].

    The flags are read as [GpuArray_fix_flags] sets them ([contig_from]
    of [Runtime]): a dimension of extent 1 constrains no stride, and only
    index 0 is valid there.  [cb_conj_trans] addresses like [cb_trans]
    (the element types are real). *)

From Stdlib Require Import String List Bool ZArith Lia.
From S2P Require Import Prelude Dtype Runtime Layout Fixtures LayoutProps.
Import ListNotations.
Open Scope Z_scope.

(** ** What the caller and the backend address *)

(** The indices into the matrix of element [(i, j)] of [op(M)]. *)
Definition op_index (t : cb_transpose) (i j : Z) : Z * Z :=
  if cb_transpose_eqb t cb_no_trans then (i, j) else (j, i).

(** Element [(i, j)] of [op(P)] for the caller, in bytes from [P]'s
    offset: its byte strides. *)
Definition caller_offset (P : GpuArray) (t : cb_transpose) (i j : Z) : option Z :=
  let '(r, c) := op_index t i j in
  match strides P with [s0; s1] => Some (r * s0 + c * s1) | _ => None end.

(** Element [(i, j)] of [op(M)] for a BLAS routine given [M] with order
    [o], flag [t] and leading dimension [ld], in elements from the
    offset it is given. *)
Definition blas_offset (o : cb_order) (t : cb_transpose) (ld i j : Z) : Z :=
  let '(r, c) := op_index t i j in
  match o with cb_row => r * ld + c | cb_column => r + c * ld end.

(** The contiguity flags of [P] are those libgpuarray computes from its
    dimensions and byte strides for the element size [es]. *)
Definition flags_from_strides (P : GpuArray) (es : Z) : Prop :=
  is_f_flag P = contig_from (dimensions P) (strides P) es /\
  is_c_flag P = contig_from (rev (dimensions P)) (rev (strides P)) es.

(** ** The operand view *)

Lemma op_index_shape t d0 d1 i j :
  let '(m, n) := op_shape t d0 d1 in 0 <= i < m -> 0 <= j < n ->
  let '(r, c) := op_index t i j in 0 <= r < d0 /\ 0 <= c < d1.
Proof. unfold op_shape, op_index. destruct t; simpl; auto. Qed.

(** One extent and stride of a packed layout: the stride is the packed
    one, or the extent is 1 and the index 0. *)
Lemma packed_term d s size r :
  ((d =? 1) || (s =? size)) = true -> 0 <= r < d -> r * s = r * size.
Proof.
  intros H Hr. apply orb_true_iff in H as [H|H]; apply Z.eqb_eq in H; subst; [|reflexivity].
  assert (r = 0) by lia. subst. ring.
Qed.

Lemma contig_from_length ds ss size :
  contig_from ds ss size = true -> length ds = length ss.
Proof.
  revert ss size. induction ds as [|d ds IH]; intros [|s ss] size; simpl; try discriminate; auto.
  intros H. apply andb_true_iff in H as [_ H]. f_equal. eapply IH, H.
Qed.

Lemma flip_index t i j :
  op_index (flip_trans t) i j = let '(r, c) := op_index t i j in (c, r).
Proof. destruct t; reflexivity. Qed.

(** The backend's view of a one-segment matrix under the corrected flag
    and the native leading dimension, in the order [o] of the call, is
    the caller's [op(P)]. *)
Lemma operand_view_eq P d0 d1 es o t i j :
  dimensions P = [d0; d1] -> flags_from_strides P es -> GpuArray_ISONESEGMENT P = true ->
  let '(m, n) := op_shape t d0 d1 in 0 <= i < m -> 0 <= j < n ->
  caller_offset P t i j = Some (es * blas_offset o (corrected_trans o P t) (native_ld P d0 d1) i j).
Proof.
  intros Hd [Hf Hc] SP. pose proof (op_index_shape t d0 d1 i j) as Hr.
  destruct (op_shape t d0 d1) as [m n]. intros Hi Hj. specialize (Hr Hi Hj).
  unfold caller_offset, blas_offset, corrected_trans, native_order, native_ld.
  assert (Hlen : length (strides P) = 2%nat).
  { rewrite onesegment_c_or_f in SP. apply orb_true_iff in SP as [C|F].
    - rewrite Hc in C. apply contig_from_length in C. rewrite !length_rev, Hd in C. auto.
    - rewrite Hf in F. apply contig_from_length in F. rewrite Hd in F. auto. }
  rewrite Hd in Hf, Hc. simpl in Hc.
  destruct (strides P) as [|s0 [|s1 [|]]] eqn:Hs; simpl in Hlen; try discriminate.
  simpl in Hf, Hc. rewrite !andb_true_r in Hf, Hc.
  destruct (op_index t i j) as [r c] eqn:Ht. destruct Hr as [Hr Hc'].
  destruct (is_f_flag P) eqn:F.
  - symmetry in Hf. apply andb_true_iff in Hf as [F0 F1].
    rewrite (packed_term _ _ _ _ F0 Hr), (packed_term _ _ _ _ F1 Hc').
    destruct o; simpl; [rewrite flip_index, Ht|rewrite Ht]; f_equal; ring.
  - rewrite onesegment_c_or_f, F, orb_false_r in SP. rewrite SP in Hc.
    symmetry in Hc. apply andb_true_iff in Hc as [C1 C0].
    rewrite (packed_term _ _ _ _ C0 Hr), (packed_term _ _ _ _ C1 Hc').
    destruct o; simpl; [rewrite Ht|rewrite flip_index, Ht]; f_equal; ring.
Qed.

(** The backend's view of a matrix is the caller's: for a
    one-segment matrix [P] of shape [d0 x d1] whose contiguity flags are
    those libgpuarray computes from its strides, and for a call in
    either order [o], the BLAS routine given [P] with the flag
    [corrected_trans o P t] and the leading dimension [native_ld P d0 d1]
    addresses element [(i, j)] of [op(P)], for every [(i, j)] in the
    shape of [op(P)], at exactly the byte the caller's strides give it:
    the transpose correction and the leading dimension of
    [setup_order_gemm] are sound. *)
Theorem operand_view P d0 d1 es o t i j :
  dimensions P = [d0; d1] -> flags_from_strides P es -> GpuArray_ISONESEGMENT P = true ->
  let '(m, n) := op_shape t d0 d1 in 0 <= i < m -> 0 <= j < n ->
  caller_offset P t i j = Some (es * blas_offset o (corrected_trans o P t) (native_ld P d0 d1) i j).
Proof. apply operand_view_eq. Qed.

Lemma corrected_trans_self o P t : native_order P = o -> corrected_trans o P t = t.
Proof.
  intros <-. unfold corrected_trans. destruct (cb_order_eqb_spec (native_order P) (native_order P));
    congruence.
Qed.

(** C15.  [setup_order_gemm] makes the call compute the product the
    caller asked for: on one-segment matrices [A], [B], [C] whose flags
    are those libgpuarray computes from their strides, it falls through
    with an order, leading dimensions and flags under which the BLAS
    routine addresses every element of [op(A)], [op(B)] and [C] at the
    byte the caller's strides give it. *)
Theorem setup_order_gemm_sound f A B C a0 a1 b0 b1 c0 c1 ta tb es :
  mat_at (f_ptr f) "A" A a0 a1 -> mat_at (f_ptr f) "B" B b0 b1 ->
  mat_at (f_ptr f) "C" C c0 c1 ->
  GpuArray_ISONESEGMENT A = true -> GpuArray_ISONESEGMENT B = true ->
  GpuArray_ISONESEGMENT C = true ->
  flags_from_strides A es -> flags_from_strides B es -> flags_from_strides C es ->
  alookup (f_trans f) "transA" = Some ta -> alookup (f_trans f) "transB" = Some tb ->
  exists f' o lda ldb ldc ta' tb',
    setup_order_gemm f = CNext f' /\ f_order f' = Some o /\
    alookup (f_size f') "lda" = Some lda /\ alookup (f_size f') "ldb" = Some ldb /\
    alookup (f_size f') "ldc" = Some ldc /\
    alookup (f_trans f') "transA" = Some ta' /\ alookup (f_trans f') "transB" = Some tb' /\
    (forall i j, let '(m, k) := op_shape ta a0 a1 in 0 <= i < m -> 0 <= j < k ->
       caller_offset A ta i j = Some (es * blas_offset o ta' lda i j)) /\
    (forall i j, let '(k, n) := op_shape tb b0 b1 in 0 <= i < k -> 0 <= j < n ->
       caller_offset B tb i j = Some (es * blas_offset o tb' ldb i j)) /\
    (forall i j, 0 <= i < c0 -> 0 <= j < c1 ->
       caller_offset C cb_no_trans i j = Some (es * blas_offset o cb_no_trans ldc i j)).
Proof.
  intros HA HB HC SA SB SC FA FB FC Hta Htb.
  destruct (setup_order_gemm_eq f A B C a0 a1 b0 b1 c0 c1 ta tb HA HB HC SA SB SC Hta Htb)
    as (f' & Hs & Ho & Hlc & Hla & Hlb & Hta' & Htb' & _ & _).
  do 7 eexists. repeat (split; [eassumption|]). split; [|split].
  - intros i j. exact (operand_view_eq A a0 a1 es _ ta i j (proj2 (proj2 HA)) FA SA).
  - intros i j. exact (operand_view_eq B b0 b1 es _ tb i j (proj2 (proj2 HB)) FB SB).
  - intros i j Hi Hj.
    pose proof (operand_view_eq C c0 c1 es (native_order C) cb_no_trans i j (proj2 (proj2 HC)) FC SC)
      as H. simpl in H. rewrite corrected_trans_self in H by reflexivity. exact (H Hi Hj).
Qed.

(** ** [gemv] and [ger]: the order-defining matrix

    [setup_order_gemv] and [setup_order_ger] are the order-defining
    block for [A]: the call takes [A]'s own order and native leading
    dimension and passes the flag unchanged.  Under that order no
    correction is needed, so the backend's view of [A] is the caller's. *)

Lemma order_defining_sound f mat ld P d0 d1 es :
  mat_at (f_ptr f) mat P d0 d1 -> GpuArray_ISONESEGMENT P = true -> flags_from_strides P es ->
  order_defining mat ld f = CNext (set_size ld (native_ld P d0 d1) (set_order (native_order P) f))
  /\ (forall t i j, let '(m, n) := op_shape t d0 d1 in 0 <= i < m -> 0 <= j < n ->
    caller_offset P t i j = Some (es * blas_offset (native_order P) t (native_ld P d0 d1) i j)).
Proof.
  intros HP SP FP. split; [exact (order_defining_spec f mat ld P d0 d1 HP SP)|].
  intros t i j. pose proof (operand_view_eq P d0 d1 es (native_order P) t i j
                              (proj2 (proj2 HP)) FP SP) as H.
  rewrite corrected_trans_self in H by reflexivity. exact H.
Qed.

(** C16.  [check_dims_gemv] followed by [setup_order_gemv] makes the
    call compute [y <- alpha op(A) x + beta y] on the caller's [A]: on a
    one-segment [A] of shape [a0 x a1] whose flags are those libgpuarray
    computes from its strides, and vectors whose lengths match
    [op(A)], both fragments fall through with the order [o], the sizes
    [m], [n] and the leading dimension [lda] of the call and the
    caller's flag; [op] of an [m x n] matrix has the vectors' shape, and
    the BLAS routine addresses every element of [op(A)] at the byte the
    caller's strides give it. *)
Theorem gemv_layout_sound f A X Y a0 a1 x0 y0 ta es :
  mat_at (f_args f) "A" A a0 a1 -> alookup (f_ptr f) "A" = Some A ->
  vec_at (f_args f) "X" X x0 -> vec_at (f_args f) "Y" Y y0 ->
  alookup (f_trans f) "transA" = Some ta -> op_shape ta a0 a1 = (y0, x0) ->
  GpuArray_ISONESEGMENT A = true -> flags_from_strides A es ->
  exists f' o m n lda,
    (let* f1 := check_dims_gemv f in setup_order_gemv f1) = CNext f' /\
    f_order f' = Some o /\ alookup (f_size f') "m" = Some m /\
    alookup (f_size f') "n" = Some n /\ alookup (f_size f') "lda" = Some lda /\
    alookup (f_trans f') "transA" = Some ta /\ op_shape ta m n = (y0, x0) /\
    (forall i j, 0 <= i < y0 -> 0 <= j < x0 ->
       caller_offset A ta i j = Some (es * blas_offset o ta lda i j)).
Proof.
  intros HA HpA HX HY Hta Hsh SA FA.
  pose proof (check_dims_gemv_eq f A X Y a0 a1 x0 y0 ta HA HX HY Hta) as Hc.
  rewrite Hsh, !Z.eqb_refl in Hc. simpl in Hc. rewrite Hc. cbn [cbind].
  set (f1 := set_size "n" a1 _).
  assert (HA1 : mat_at (f_ptr f1) "A" A a0 a1) by (destruct HA as (_ & ? & ?); now split).
  destruct (order_defining_sound f1 "A" "lda" A a0 a1 es HA1 SA FA) as [Ho Hv].
  unfold setup_order_gemv. rewrite Ho.
  do 5 eexists. split; [reflexivity|]. unfold f1, aset; simpl.
  repeat split; try reflexivity; [exact Hta|exact Hsh|].
  intros i j. specialize (Hv ta i j). rewrite Hsh in Hv. exact Hv.
Qed.

(** C17.  [check_dims_ger] followed by [setup_order_ger] makes the
    call compute [A <- alpha x y^T + A] on the caller's [A]: on a
    one-segment [A] of shape [len X x len Y] whose flags are those
    libgpuarray computes from its strides, both fragments fall through
    with [m = len X], [n = len Y] and the order and leading dimension
    under which the BLAS routine addresses every element of [A] at the
    byte the caller's strides give it. *)
Theorem ger_layout_sound f A X Y x0 y0 es :
  mat_at (f_args f) "A" A x0 y0 -> alookup (f_ptr f) "A" = Some A ->
  vec_at (f_args f) "X" X x0 -> vec_at (f_args f) "Y" Y y0 ->
  GpuArray_ISONESEGMENT A = true -> flags_from_strides A es ->
  exists f' o lda,
    (let* f1 := check_dims_ger f in setup_order_ger f1) = CNext f' /\
    f_order f' = Some o /\ alookup (f_size f') "m" = Some x0 /\
    alookup (f_size f') "n" = Some y0 /\ alookup (f_size f') "lda" = Some lda /\
    (forall i j, 0 <= i < x0 -> 0 <= j < y0 ->
       caller_offset A cb_no_trans i j = Some (es * blas_offset o cb_no_trans lda i j)).
Proof.
  intros HA HpA HX HY SA FA.
  pose proof (check_dims_ger_eq f A X Y x0 y0 x0 y0 HA HX HY) as Hc.
  rewrite !Z.eqb_refl in Hc. simpl in Hc. rewrite Hc. cbn [cbind].
  set (f1 := set_size "n" y0 _).
  assert (HA1 : mat_at (f_ptr f1) "A" A x0 y0) by (destruct HA as (_ & ? & ?); now split).
  destruct (order_defining_sound f1 "A" "lda" A x0 y0 es HA1 SA FA) as [Ho Hv].
  unfold setup_order_ger. rewrite Ho.
  do 3 eexists. split; [reflexivity|]. unfold f1, aset; simpl.
  repeat split; try reflexivity. exact (Hv cb_no_trans).
Qed.

(** The operand view of a [2 x 3] Fortran-ordered float matrix in a
    row-major call: element [(1, 2)] is byte 20 for both. *)
Lemma operand_view_witness :
  caller_offset (fmat 1 2 3) cb_no_trans 1 2 =
  Some (4 * blas_offset cb_row (corrected_trans cb_row (fmat 1 2 3) cb_no_trans)
                        (native_ld (fmat 1 2 3) 2 3) 1 2) /\
  caller_offset (fmat 1 2 3) cb_no_trans 1 2 = Some 20.
Proof.
  split; [|reflexivity].
  apply (operand_view (fmat 1 2 3) 2 3 4 cb_row cb_no_trans 1 2);
    solve [reflexivity | split; reflexivity | lia].
Defined.

(** The soundness theorem on the spec's scenario: a column-major [A],
    row-major [B] and [C]. *)
Lemma setup_order_gemm_sound_witness :
  let fr := frame_of [("A", fmat 1 2 3); ("B", cmat 2 3 4); ("C", cmat 3 2 4)]
                     [("transA", cb_no_trans); ("transB", cb_no_trans)] in
  exists f' o lda ta', setup_order_gemm fr = CNext f' /\ f_order f' = Some o /\
    alookup (f_size f') "lda" = Some lda /\ alookup (f_trans f') "transA" = Some ta' /\
    caller_offset (fmat 1 2 3) cb_no_trans 1 2 = Some (4 * blas_offset o ta' lda 1 2).
Proof.
  intros fr.
  destruct (setup_order_gemm_sound fr (fmat 1 2 3) (cmat 2 3 4) (cmat 3 2 4) 2 3 3 4 2 4
              cb_no_trans cb_no_trans 4) as (f' & o & lda & ldb & ldc & ta' & tb' &
                                             Hs & Ho & Hla & _ & _ & Hta & _ & HvA & _ & _);
    try solve [reflexivity | repeat split | split; reflexivity].
  exists f', o, lda, ta'. repeat split; try assumption.
  apply (HvA 1 2); lia.
Defined.

(** [y = A^T x] with a C-ordered [3 x 2] float [A]: element [(1, 2)] of
    [A^T] is [A]'s element [(2, 1)], byte [2 * 8 + 1 * 4 = 20] for both. *)
Lemma gemv_layout_sound_witness :
  let fr := frame_of [("A", cmat 1 3 2); ("X", fvec 2 3 4); ("Y", fvec 3 2 4)]
                     [("transA", cb_trans)] in
  exists f' o lda, (let* f1 := check_dims_gemv fr in setup_order_gemv f1) = CNext f' /\
    f_order f' = Some o /\ alookup (f_size f') "lda" = Some lda /\
    caller_offset (cmat 1 3 2) cb_trans 1 2 = Some (4 * blas_offset o cb_trans lda 1 2) /\
    caller_offset (cmat 1 3 2) cb_trans 1 2 = Some 20.
Proof.
  intros fr.
  destruct (gemv_layout_sound fr (cmat 1 3 2) (fvec 2 3 4) (fvec 3 2 4) 3 2 3 2 cb_trans 4)
    as (f' & o & m & n & lda & Hs & Ho & _ & _ & Hla & _ & _ & Hv);
    try solve [reflexivity | repeat split | split; reflexivity].
  exists f', o, lda. repeat split; try assumption. apply (Hv 1 2); lia.
Defined.

(** [A <- x y^T + A] with a Fortran-ordered [5 x 7] float [A]: element
    [(4, 6)] is byte [4 * (4 + 6 * 5) = 136] for both. *)
Lemma ger_layout_sound_witness :
  let fr := frame_of [("A", fmat 1 5 7); ("X", fvec 2 5 4); ("Y", fvec 3 7 4)] [] in
  exists f' o lda, (let* f1 := check_dims_ger fr in setup_order_ger f1) = CNext f' /\
    f_order f' = Some o /\ alookup (f_size f') "lda" = Some lda /\
    caller_offset (fmat 1 5 7) cb_no_trans 4 6 = Some (4 * blas_offset o cb_no_trans lda 4 6) /\
    caller_offset (fmat 1 5 7) cb_no_trans 4 6 = Some 136.
Proof.
  intros fr.
  destruct (ger_layout_sound fr (fmat 1 5 7) (fvec 2 5 4) (fvec 3 7 4) 5 7 4)
    as (f' & o & lda & Hs & Ho & _ & _ & Hla & Hv);
    try solve [reflexivity | repeat split | split; reflexivity].
  exists f', o, lda. repeat split; try assumption. apply (Hv 4 6); lia.
Defined.
