(* ===== verification/PipelineSteps.v ===== *)
(** * One equation per statement of the pipeline

    The statements of [Pipeline.body], each evaluated on a state whose
    relevant facts are given: the checks that pass and those that fail,
    the contiguity stage without copies, the context and backend lookups,
    the backend call, and the run with its cleanup.  The end-to-end
    theorems of [Dispatch] chain these equations instead of computing the
    whole body. *)

From Stdlib Require Import String List Bool ZArith Floats Lia.
From S2P Require Import Prelude Dtype Runtime Args BlasOp Pipeline.
Import ListNotations.
Open Scope string_scope.
Open Scope cm_scope.

Lemma cm_bind_next {A B} (c : CM A) (k : A -> CM B) s a s' :
  c s = (CNext a, s') -> cm_bind c k s = k a s'.
Proof. intros H. unfold cm_bind. now rewrite H. Qed.

Lemma cm_bind_return {A B} (c : CM A) (k : A -> CM B) s e s' :
  c s = (CReturn e, s') -> cm_bind c k s = (CReturn e, s').
Proof. intros H. unfold cm_bind. now rewrite H. Qed.

Lemma cm_bind_goto {A B} (c : CM A) (k : A -> CM B) s e s' :
  c s = (CGoto e, s') -> cm_bind c k s = (CGoto e, s').
Proof. intros H. unfold cm_bind. now rewrite H. Qed.

Lemma cm_frame_next t f f' h : t f = CNext f' -> cm_frame t (f, h) = (CNext tt, (f', h)).
Proof. intros H. unfold cm_frame. now rewrite H. Qed.

Lemma cm_frame_return t f e h : t f = CReturn e -> cm_frame t (f, h) = (CReturn e, (f, h)).
Proof. intros H. unfold cm_frame. now rewrite H. Qed.

(** [any_cond] is false when every operand is, true when one is and
    none before it is undefined. *)
Lemma any_cond_false c l : (forall a, In a l -> c a = CNext false) -> any_cond c l = CNext false.
Proof.
  induction l as [|a l IH]; intros H; simpl; [reflexivity|].
  rewrite H by now left. simpl. apply IH. intros; apply H; now right.
Qed.

Lemma any_cond_true c l1 a l2 :
  (forall x, In x l1 -> c x = CNext false) -> c a = CNext true ->
  any_cond c (l1 ++ a :: l2) = CNext true.
Proof.
  induction l1 as [|x l1 IH]; intros H Ha; simpl; [now rewrite Ha|].
  rewrite H by now left. simpl. apply IH; auto. intros; apply H; now right.
Qed.

Lemma any_cond_exists c l :
  (forall x, In x l -> exists v, c x = CNext v) -> (exists x, In x l /\ c x = CNext true) ->
  any_cond c l = CNext true.
Proof.
  induction l as [|a l IH]; intros Hd (x & Hx & Hc); [destruct Hx|]. simpl.
  destruct Hx as [<-|Hx]; [now rewrite Hc|].
  destruct (Hd a (or_introl eq_refl)) as [[|] Ha]; rewrite Ha; simpl; [reflexivity|].
  apply IH; [intros; apply Hd; now right | eauto].
Qed.

Section Steps.
Context {RT : BlasRuntime}.
Variable op : BlasOp.

Lemma check_typecode_pass f h fa A :
  firsta op = Some fa -> alookup (f_args f) fa = Some A ->
  typecode A = GA_FLOAT \/ typecode A = GA_DOUBLE ->
  check_typecode op (f, h) = (CNext tt, (f, h)).
Proof.
  intros Hf HA Ht. unfold check_typecode, cm_bind, cm_get, cm_lift, arg.
  simpl. rewrite Hf. simpl. rewrite HA. simpl. destruct Ht as [-> | ->]; reflexivity.
Qed.

Lemma check_typecode_fail f h fa A :
  firsta op = Some fa -> alookup (f_args f) fa = Some A ->
  typecode A <> GA_FLOAT -> typecode A <> GA_DOUBLE ->
  check_typecode op (f, h) = (CReturn GA_INVALID_ERROR, (f, h)).
Proof.
  intros Hf HA H1 H2. unfold check_typecode, cm_bind, cm_get, cm_lift, arg.
  simpl. rewrite Hf. simpl. rewrite HA. simpl.
  apply Z.eqb_neq in H1, H2. now rewrite H1, H2.
Qed.

(** The arrays as the checks see them: bound, of the rank their kind
    demands, of the first array's typecode ([arrays_ranked]), and
    aligned ([arrays_typed]). *)
Definition arrays_ranked (f : frame) (tc : Z) : Prop :=
  forall a, In a (array_args op) ->
    exists P, alookup (f_args f) (arg_name a) = Some P /\
      nd P = (if ismatrix a then 2 else 1)%nat /\ typecode P = tc.

Definition arrays_typed (f : frame) (tc : Z) : Prop :=
  forall a, In a (array_args op) ->
    exists P, alookup (f_args f) (arg_name a) = Some P /\
      nd P = (if ismatrix a then 2 else 1)%nat /\ typecode P = tc /\ is_aligned P = true.

Lemma arrays_typed_ranked f tc : arrays_typed f tc -> arrays_ranked f tc.
Proof. intros H a Ha. destruct (H a Ha) as (P & ? & ? & ? & _). eauto. Qed.

Lemma check_nd_type_pass f h fa F :
  firsta op = Some fa -> alookup (f_args f) fa = Some F -> arrays_ranked f (typecode F) ->
  check_nd_type op (f, h) = (CNext tt, (f, h)).
Proof.
  intros Hf HF Ht. unfold check_nd_type, cm_bind, cm_get, cm_lift, arg.
  simpl. rewrite Hf. simpl. rewrite HF. simpl.
  rewrite any_cond_false, any_cond_false; [reflexivity| |];
    intros a Ha; destruct (Ht a Ha) as (P & HP & Hn & Htc);
    unfold ndcond, typecond, arg; rewrite HP; simpl.
  - now rewrite Htc, Z.eqb_refl.
  - now rewrite Hn, Nat.eqb_refl.
Qed.

(** Ranks right and one array of another type than the first: the
    shape/type check fails with [GA_VALUE_ERROR]. *)
Lemma check_nd_type_mismatch f h fa F b B :
  firsta op = Some fa -> alookup (f_args f) fa = Some F ->
  (forall a, In a (array_args op) -> exists P, alookup (f_args f) (arg_name a) = Some P /\
     nd P = (if ismatrix a then 2 else 1)%nat) ->
  In b (array_args op) -> alookup (f_args f) (arg_name b) = Some B -> typecode B <> typecode F ->
  check_nd_type op (f, h) = (CReturn GA_VALUE_ERROR, (f, h)).
Proof.
  intros Hf HF Hr Hb HB Hty. unfold check_nd_type, cm_bind, cm_get, cm_lift, arg.
  simpl. rewrite Hf. simpl. rewrite HF. simpl.
  rewrite any_cond_false.
  - rewrite any_cond_exists; [reflexivity| |].
    + intros a Ha. destruct (Hr a Ha) as (P & HP & _). unfold typecond, arg.
      rewrite HP. simpl. eauto.
    + exists b. split; [assumption|]. unfold typecond, arg. rewrite HB. simpl.
      apply Z.eqb_neq in Hty. now rewrite Hty.
  - intros a Ha. destruct (Hr a Ha) as (P & HP & Hn). unfold ndcond, arg.
    rewrite HP. simpl. now rewrite Hn, Nat.eqb_refl.
Qed.

Lemma check_aligned_pass f h tc :
  arrays_typed f tc -> check_aligned op (f, h) = (CNext tt, (f, h)).
Proof.
  intros Ht. unfold check_aligned, cm_bind, cm_get, cm_lift. simpl.
  rewrite any_cond_false; [reflexivity|].
  intros a Ha; destruct (Ht a Ha) as (P & HP & _ & _ & Hal).
  unfold aligncond, arg. rewrite HP. simpl. now rewrite Hal.
Qed.

(** One unaligned array: [GA_UNALIGNED_ERROR]. *)
Lemma check_aligned_fail f h b B :
  (forall a, In a (array_args op) -> exists P, alookup (f_args f) (arg_name a) = Some P) ->
  In b (array_args op) -> alookup (f_args f) (arg_name b) = Some B -> is_aligned B = false ->
  check_aligned op (f, h) = (CReturn GA_UNALIGNED_ERROR, (f, h)).
Proof.
  intros Hr Hb HB Hal. unfold check_aligned, cm_bind, cm_get, cm_lift. simpl.
  rewrite any_cond_exists; [reflexivity| |].
  - intros a Ha. destruct (Hr a Ha) as (P & HP). unfold aligncond, arg. rewrite HP. simpl. eauto.
  - exists b. split; [assumption|]. unfold aligncond, arg. rewrite HB. simpl. now rewrite Hal.
Qed.

Lemma set_elsize_eq f h fa A :
  firsta op = Some fa -> alookup (f_args f) fa = Some A ->
  set_elsize op (f, h) = (CNext tt, (with_elsize f (gpuarray_get_elsize (typecode A)), h)).
Proof. intros Hf HA. unfold set_elsize. now rewrite Hf, HA. Qed.

(** An array argument that needs no fallback: a matrix in one segment,
    a vector not negatively strided; and one that does. *)
Definition contiguous_arg (f : frame) (a : Argument) : Prop :=
  exists P, alookup (f_args f) (arg_name a) = Some P /\
    (if ismatrix a then GpuArray_ISONESEGMENT P = true
     else exists s, stride P 0 = Some s /\ (0 <= s)%Z).

Definition defective_arg (f : frame) (a : Argument) : Prop :=
  exists P, alookup (f_args f) (arg_name a) = Some P /\
    (if ismatrix a then GpuArray_ISONESEGMENT P = false
     else exists s, stride P 0 = Some s /\ (s < 0)%Z).

Definition arrays_contiguous (f : frame) : Prop :=
  forall a, In a (array_args op) -> contiguous_arg f a.

Lemma contig_one_pass f h a :
  isarray a = true -> contiguous_arg f a -> contig_one a (f, h) = (CNext tt, (f, h)).
Proof.
  intros Harr (P & HP & HPc).
  unfold contig_one, cm_bind, cm_get, cm_lift, arg.
  destruct a; try discriminate; simpl in *; rewrite HP; simpl.
  - now rewrite HPc.
  - destruct HPc as (s & Hs & Hpos). rewrite Hs. simpl.
    destruct (Z.ltb_spec s 0); [lia|reflexivity].
Qed.

Lemma contig_iter_pass f h l :
  (forall a, In a l -> isarray a = true /\ contiguous_arg f a) ->
  cm_iter contig_one l (f, h) = (CNext tt, (f, h)).
Proof.
  intros Hl. induction l as [|a l IH]; [reflexivity|]. simpl.
  destruct (Hl a (or_introl eq_refl)) as [Ha Hc].
  erewrite cm_bind_next; [apply IH; intros; apply Hl; now right|].
  now apply contig_one_pass.
Qed.

(** The first defective array stops the fallback stage: an output is
    rejected with [GA_VALUE_ERROR] through the cleanup, an input under
    [nocopy] with [GA_COPY_ERROR] by a plain [return]; the state is
    untouched. *)
Lemma contig_one_defect f h a :
  isarray a = true -> defective_arg f a -> isoutput a = true \/ f_nocopy f = true ->
  contig_one a (f, h) =
    (if isoutput a then CGoto GA_VALUE_ERROR else CReturn GA_COPY_ERROR, (f, h)).
Proof.
  intros Harr (P & HP & HPd) Hout.
  unfold contig_one, cm_bind, cm_get, cm_lift, arg.
  destruct a as [? ? ?|? ? ?|? ? ?|? ? ?|nm out|nm out]; try discriminate; simpl in *; rewrite HP; simpl.
  - rewrite HPd. destruct out; [reflexivity|]. destruct Hout as [Ho| ->]; [discriminate|reflexivity].
  - destruct HPd as (s & Hs & Hneg). rewrite Hs. simpl.
    destruct (Z.ltb_spec s 0); [|lia]. simpl.
    destruct out; [reflexivity|]. destruct Hout as [Ho| ->]; [discriminate|reflexivity].
Qed.

Lemma contig_iter_defect f h l1 a l2 :
  (forall x, In x l1 -> isarray x = true /\ contiguous_arg f x) ->
  isarray a = true -> defective_arg f a -> isoutput a = true \/ f_nocopy f = true ->
  cm_iter contig_one (l1 ++ a :: l2) (f, h) =
    (if isoutput a then CGoto GA_VALUE_ERROR else CReturn GA_COPY_ERROR, (f, h)).
Proof.
  intros Hl Ha Hd Hout. induction l1 as [|x l1 IH]; simpl.
  - unfold cm_bind. rewrite contig_one_defect by assumption. now destruct (isoutput a).
  - destruct (Hl x (or_introl eq_refl)) as [Hx Hc].
    erewrite cm_bind_next; [apply IH; intros; apply Hl; now right|].
    now apply contig_one_pass.
Qed.

Lemma contig_all_pass f h : arrays_contiguous f -> contig_all op (f, h) = (CNext tt, (f, h)).
Proof.
  intros Hc. unfold contig_all. apply contig_iter_pass. intros a Ha. split; [|now apply Hc].
  now apply (array_args_isarray op).
Qed.

Lemma get_ctx_eq f h fa P ctx :
  firsta op = Some fa -> alookup (f_ptr f) fa = Some P ->
  rt_buffer_ctx (data P) = (GA_NO_ERROR, ctx) ->
  get_ctx op (f, h) = (CNext tt, (with_ctx f ctx, h)).
Proof. intros Hf HP Hc. unfold get_ctx. now rewrite Hf, HP, Hc. Qed.

Lemma get_blas_setup_eq f h :
  rt_ctx_blas (f_ctx f) = GA_NO_ERROR -> rt_setup (f_ctx f) = GA_NO_ERROR ->
  get_blas_setup (f, h) = (CNext tt, (f, h)).
Proof.
  intros Hb Hs. unfold get_blas_setup, check_status, cm_bind, cm_get. simpl.
  now rewrite Hb, Hs.
Qed.

Lemma call_backend_eq f h fa P o args :
  firsta op = Some fa -> alookup (f_ptr f) fa = Some P -> f_order f = Some o ->
  eval_callargs f (Dtypes.name (dtype_of_typecode (typecode P))) (arguments op) = CNext args ->
  let entry := Dtypes.c (dtype_of_typecode (typecode P)) ++ name op in
  call_backend op (f, h) =
    (CNext (rt_call (f_ctx f) entry (CA_order o :: args)),
     (f, with_call h (mkCall (f_ctx f) entry (CA_order o :: args)))).
Proof. intros Hf HP Ho He. unfold call_backend. now rewrite Hf, HP, Ho, He. Qed.

(** Without copies the cleanup does nothing. *)
Lemma cleanup_nocopy f h : f_copied f = [] -> cleanup op f h = h.
Proof.
  intros Hc. unfold cleanup. generalize h. induction (array_args op) as [|a l IH];
    intros h'; [reflexivity|]. simpl.
  unfold cleanup_one at 2. rewrite Hc. simpl. destruct (isoutput a); apply IH.
Qed.

Lemma run_next_nocopy f h err f' h' :
  body op (f, h) = (CNext err, (f', h')) -> f_copied f' = [] -> run op f h = (Some err, h').
Proof. intros Hb Hc. unfold run. rewrite Hb. now rewrite cleanup_nocopy. Qed.

Lemma run_return f h e f' h' :
  body op (f, h) = (CReturn e, (f', h')) -> run op f h = (Some e, h').
Proof. intros Hb. unfold run. now rewrite Hb. Qed.

(** Run one statement of the body whose equation is [H]. *)
Ltac step H := rewrite (cm_bind_next _ _ _ _ _ H); cbv beta.

(** The body on a frame that passes every check, its contiguity stage
    leaving the frame [f2'] and heap [h1], up to the backend call. *)
Lemma body_to_call f0 h fa A f1 f2' h1 f3 P ctx :
  firsta op = Some fa -> alookup (f_args f0) fa = Some A ->
  typecode A = GA_FLOAT \/ typecode A = GA_DOUBLE -> arrays_typed f0 (typecode A) ->
  check_dims op f0 = CNext f1 -> f_args f1 = f_args f0 ->
  let f2 := with_elsize f1 (gpuarray_get_elsize (typecode A)) in
  contig_all op (f2, h) = (CNext tt, (f2', h1)) ->
  setup_order op f2' = CNext f3 -> alookup (f_ptr f3) fa = Some P ->
  rt_buffer_ctx (data P) = (GA_NO_ERROR, ctx) -> rt_ctx_blas ctx = GA_NO_ERROR ->
  rt_setup ctx = GA_NO_ERROR ->
  body op (f0, h) = call_backend op (with_ctx f3 ctx, h1).
Proof.
  intros Hf HA Htc Ht Hd A1 f2 Hc Hs HP Hctx Hbl Hsu.
  unfold body.
  step (check_typecode_pass f0 h fa A Hf HA Htc).
  step (check_nd_type_pass f0 h fa A Hf HA (arrays_typed_ranked _ _ Ht)).
  step (check_aligned_pass f0 h _ Ht).
  step (cm_frame_next _ _ _ h Hd).
  step (set_elsize_eq f1 h fa A Hf (eq_trans (f_equal (fun l => alookup l fa) A1) HA)).
  step Hc.
  step (cm_frame_next _ _ _ h1 Hs).
  step (get_ctx_eq f3 h1 fa P ctx Hf HP Hctx).
  step (get_blas_setup_eq (with_ctx f3 ctx) h1 Hbl Hsu).
  reflexivity.
Qed.

(** The whole function on such a frame: the body makes the one backend
    call its fragments and argument list determine, and the cleanup runs
    on the frame and heap it leaves. *)
Lemma run_dispatch_gen f0 h fa A f1 f2' h1 f3 P ctx o args :
  firsta op = Some fa -> alookup (f_args f0) fa = Some A ->
  typecode A = GA_FLOAT \/ typecode A = GA_DOUBLE -> arrays_typed f0 (typecode A) ->
  check_dims op f0 = CNext f1 -> f_args f1 = f_args f0 ->
  let f2 := with_elsize f1 (gpuarray_get_elsize (typecode A)) in
  contig_all op (f2, h) = (CNext tt, (f2', h1)) ->
  setup_order op f2' = CNext f3 -> f_order f3 = Some o -> alookup (f_ptr f3) fa = Some P ->
  rt_buffer_ctx (data P) = (GA_NO_ERROR, ctx) -> rt_ctx_blas ctx = GA_NO_ERROR ->
  rt_setup ctx = GA_NO_ERROR ->
  let dt := dtype_of_typecode (typecode P) in
  eval_callargs (with_ctx f3 ctx) (Dtypes.name dt) (arguments op) = CNext args ->
  let entry := Dtypes.c dt ++ name op in
  run op f0 h = (Some (rt_call ctx entry (CA_order o :: args)),
                 cleanup op (with_ctx f3 ctx) (with_call h1 (mkCall ctx entry (CA_order o :: args)))).
Proof.
  intros Hf HA Htc Ht Hd A1 f2 Hc Hs Ho HP Hctx Hbl Hsu dt He entry.
  unfold run. rewrite (body_to_call f0 h fa A f1 f2' h1 f3 P ctx Hf HA Htc Ht Hd A1 Hc Hs HP
                         Hctx Hbl Hsu).
  now rewrite (call_backend_eq (with_ctx f3 ctx) h1 fa P o args Hf HP Ho He).
Qed.

(** The checks pass and the fallback stage jumps to the cleanup with
    [e]: no backend call. *)
Lemma run_contig_goto f0 h fa A f1 e f2' h1 :
  firsta op = Some fa -> alookup (f_args f0) fa = Some A ->
  typecode A = GA_FLOAT \/ typecode A = GA_DOUBLE -> arrays_typed f0 (typecode A) ->
  check_dims op f0 = CNext f1 -> f_args f1 = f_args f0 ->
  let f2 := with_elsize f1 (gpuarray_get_elsize (typecode A)) in
  contig_all op (f2, h) = (CGoto e, (f2', h1)) ->
  run op f0 h = (Some e, cleanup op f2' h1).
Proof.
  intros Hf HA Htc Ht Hd A1 f2 Hc.
  unfold run, body.
  step (check_typecode_pass f0 h fa A Hf HA Htc).
  step (check_nd_type_pass f0 h fa A Hf HA (arrays_typed_ranked _ _ Ht)).
  step (check_aligned_pass f0 h _ Ht).
  step (cm_frame_next _ _ _ h Hd).
  step (set_elsize_eq f1 h fa A Hf (eq_trans (f_equal (fun l => alookup l fa) A1) HA)).
  now rewrite (cm_bind_goto _ _ _ _ _ Hc).
Qed.

(** The same frame up to the order setup, which jumps to the cleanup
    with [e]: no backend call. *)
Lemma run_setup_goto f0 h fa A f1 f2' h1 e :
  firsta op = Some fa -> alookup (f_args f0) fa = Some A ->
  typecode A = GA_FLOAT \/ typecode A = GA_DOUBLE -> arrays_typed f0 (typecode A) ->
  check_dims op f0 = CNext f1 -> f_args f1 = f_args f0 ->
  let f2 := with_elsize f1 (gpuarray_get_elsize (typecode A)) in
  contig_all op (f2, h) = (CNext tt, (f2', h1)) ->
  setup_order op f2' = CGoto e ->
  run op f0 h = (Some e, cleanup op f2' h1).
Proof.
  intros Hf HA Htc Ht Hd A1 f2 Hc Hs.
  unfold run, body.
  step (check_typecode_pass f0 h fa A Hf HA Htc).
  step (check_nd_type_pass f0 h fa A Hf HA (arrays_typed_ranked _ _ Ht)).
  step (check_aligned_pass f0 h _ Ht).
  step (cm_frame_next _ _ _ h Hd).
  step (set_elsize_eq f1 h fa A Hf (eq_trans (f_equal (fun l => alookup l fa) A1) HA)).
  step Hc.
  unfold cm_bind at 1, cm_frame. now rewrite Hs.
Qed.

(** Without a copy: the cleanup has nothing to release. *)
Lemma run_dispatch f0 h fa A f1 f3 ctx o args :
  firsta op = Some fa -> alookup (f_args f0) fa = Some A -> f_ptr f0 = f_args f0 ->
  f_copied f0 = [] ->
  typecode A = GA_FLOAT \/ typecode A = GA_DOUBLE -> arrays_typed f0 (typecode A) ->
  check_dims op f0 = CNext f1 -> keeps_ptrs f0 f1 ->
  let f2 := with_elsize f1 (gpuarray_get_elsize (typecode A)) in
  arrays_contiguous f2 ->
  setup_order op f2 = CNext f3 -> keeps_ptrs f2 f3 -> f_order f3 = Some o ->
  rt_buffer_ctx (data A) = (GA_NO_ERROR, ctx) -> rt_ctx_blas ctx = GA_NO_ERROR ->
  rt_setup ctx = GA_NO_ERROR ->
  let dt := dtype_of_typecode (typecode A) in
  eval_callargs (with_ctx f3 ctx) (Dtypes.name dt) (arguments op) = CNext args ->
  let entry := Dtypes.c dt ++ name op in
  run op f0 h = (Some (rt_call ctx entry (CA_order o :: args)),
                 with_call h (mkCall ctx entry (CA_order o :: args))).
Proof.
  intros Hf HA Hpa Hcp Htc Ht Hd K1 f2 Hc Hs K2 Ho Hctx Hbl Hsu dt He entry.
  pose proof K1 as (A1 & P1 & C1 & _). pose proof K2 as (_ & P2 & C2 & _).
  assert (HpA : alookup (f_ptr f3) fa = Some A) by (rewrite P2; simpl; rewrite P1, Hpa; exact HA).
  rewrite (run_dispatch_gen f0 h fa A f1 f2 h f3 A ctx o args Hf HA Htc Ht Hd A1
             (contig_all_pass f2 h Hc) Hs Ho HpA Hctx Hbl Hsu He).
  rewrite cleanup_nocopy; [reflexivity|]. simpl. rewrite C2. simpl. congruence.
Qed.

(** The order of the fallback copy: Fortran for a matrix, any for a
    vector. *)
Definition copy_order (a : Argument) : ga_order := if ismatrix a then GA_F_ORDER else GA_ANY_ORDER.

(** The fallback of an input array that needs it, copying allowed: a
    copy that succeeds takes the next buffer of the heap and points [Ap]
    at the copy; one that fails jumps to the cleanup with its error. *)
Lemma contig_one_copy f h a A :
  isarray a = true -> isoutput a = false -> alookup (f_args f) (arg_name a) = Some A ->
  (if ismatrix a then GpuArray_ISONESEGMENT A = false
   else exists s, stride A 0 = Some s /\ (s < 0)%Z) ->
  f_nocopy f = false ->
  contig_one a (f, h) =
    match rt_copy A (copy_order a) with
    | GA_NO_ERROR =>
        (CNext tt, (with_copy f (arg_name a) (GpuArray_copy_result A (copy_order a) (next h)),
                    with_alloc h))
    | e => (CGoto e, (f, h))
    end.
Proof.
  intros Harr Hout HA HAd Hn.
  unfold contig_one, cm_bind, cm_get, cm_lift, arg, copy_into, copy_order.
  destruct a as [? ? ?|? ? ?|? ? ?|? ? ?|nm out|nm out]; try discriminate;
    simpl in *; subst out; rewrite HA; simpl.
  - now rewrite HAd, Hn.
  - destruct HAd as (s & Hs & Hneg). rewrite Hs. simpl.
    destruct (Z.ltb_spec s 0); [|lia]. simpl. now rewrite Hn.
Qed.

Lemma contiguous_arg_with_copy f nm C x :
  contiguous_arg (with_copy f nm C) x <-> contiguous_arg f x.
Proof. reflexivity. Qed.

(** ** The error exits of the whole function *)

(** An unsupported first type: [GA_INVALID_ERROR], nothing done. *)
Lemma run_invalid_type f0 h fa A :
  firsta op = Some fa -> alookup (f_args f0) fa = Some A ->
  typecode A <> GA_FLOAT -> typecode A <> GA_DOUBLE ->
  run op f0 h = (Some GA_INVALID_ERROR, h).
Proof.
  intros Hf HA H1 H2. apply (run_return f0 h _ f0 h). unfold body.
  now rewrite (cm_bind_return _ _ _ _ _ (check_typecode_fail f0 h fa A Hf HA H1 H2)).
Qed.

(** Ranks right, one array of another type: [GA_VALUE_ERROR], nothing done. *)
Lemma run_type_mismatch f0 h fa A b B :
  firsta op = Some fa -> alookup (f_args f0) fa = Some A ->
  typecode A = GA_FLOAT \/ typecode A = GA_DOUBLE ->
  (forall a, In a (array_args op) -> exists P, alookup (f_args f0) (arg_name a) = Some P /\
     nd P = (if ismatrix a then 2 else 1)%nat) ->
  In b (array_args op) -> alookup (f_args f0) (arg_name b) = Some B -> typecode B <> typecode A ->
  run op f0 h = (Some GA_VALUE_ERROR, h).
Proof.
  intros Hf HA Htc Hr Hb HB Hty. apply (run_return f0 h _ f0 h). unfold body.
  step (check_typecode_pass f0 h fa A Hf HA Htc).
  now rewrite (cm_bind_return _ _ _ _ _ (check_nd_type_mismatch f0 h fa A b B Hf HA Hr Hb HB Hty)).
Qed.

(** Ranks and types right, one array unaligned: [GA_UNALIGNED_ERROR]. *)
Lemma run_unaligned f0 h fa A b B :
  firsta op = Some fa -> alookup (f_args f0) fa = Some A ->
  typecode A = GA_FLOAT \/ typecode A = GA_DOUBLE -> arrays_ranked f0 (typecode A) ->
  In b (array_args op) -> alookup (f_args f0) (arg_name b) = Some B -> is_aligned B = false ->
  run op f0 h = (Some GA_UNALIGNED_ERROR, h).
Proof.
  intros Hf HA Htc Hr Hb HB Hal. apply (run_return f0 h _ f0 h). unfold body.
  step (check_typecode_pass f0 h fa A Hf HA Htc).
  step (check_nd_type_pass f0 h fa A Hf HA Hr).
  assert (Hb0 : forall a, In a (array_args op) ->
                  exists P, alookup (f_args f0) (arg_name a) = Some P)
    by (intros a Ha; destruct (Hr a Ha) as (P & HP & _); eauto).
  now rewrite (cm_bind_return _ _ _ _ _ (check_aligned_fail f0 h b B Hb0 Hb HB Hal)).
Qed.

(** The checks pass and the dimension fragment returns [e]: the
    function returns [e] before any copy, whatever the contiguity of the
    arrays and [nocopy]. *)
Lemma run_dims_return f0 h fa A e :
  firsta op = Some fa -> alookup (f_args f0) fa = Some A ->
  typecode A = GA_FLOAT \/ typecode A = GA_DOUBLE -> arrays_typed f0 (typecode A) ->
  check_dims op f0 = CReturn e -> run op f0 h = (Some e, h).
Proof.
  intros Hf HA Htc Ht Hd. apply (run_return f0 h _ f0 h). unfold body.
  step (check_typecode_pass f0 h fa A Hf HA Htc).
  step (check_nd_type_pass f0 h fa A Hf HA (arrays_typed_ranked _ _ Ht)).
  step (check_aligned_pass f0 h _ Ht).
  now rewrite (cm_bind_return _ _ _ _ _ (cm_frame_return _ _ _ h Hd)).
Qed.

(** The checks and the dimension fragment pass, and the array
    arguments before [a] need no fallback while [a] does: an output [a]
    fails with [GA_VALUE_ERROR], an input [a] under [nocopy] with
    [GA_COPY_ERROR]; no buffer is allocated and no backend call made. *)
Lemma run_defect f0 h fa A f1 l1 a l2 :
  firsta op = Some fa -> alookup (f_args f0) fa = Some A -> f_copied f0 = [] ->
  typecode A = GA_FLOAT \/ typecode A = GA_DOUBLE -> arrays_typed f0 (typecode A) ->
  check_dims op f0 = CNext f1 -> keeps_ptrs f0 f1 ->
  array_args op = (l1 ++ a :: l2)%list ->
  let f2 := with_elsize f1 (gpuarray_get_elsize (typecode A)) in
  (forall x, In x l1 -> contiguous_arg f2 x) -> defective_arg f2 a ->
  isoutput a = true \/ f_nocopy f0 = true ->
  run op f0 h = (Some (if isoutput a then GA_VALUE_ERROR else GA_COPY_ERROR), h).
Proof.
  intros Hf HA Hcp Htc Ht Hd K1 Hsplit f2 Hpre Hdef Hout.
  destruct K1 as (A1 & _ & C1 & N1 & _).
  assert (Harr : forall x, In x (l1 ++ a :: l2)%list -> isarray x = true)
    by (intros x Hx; apply (array_args_isarray op); now rewrite Hsplit).
  assert (Hc : cm_iter contig_one (l1 ++ a :: l2)%list (f2, h) =
               (if isoutput a then CGoto GA_VALUE_ERROR else CReturn GA_COPY_ERROR, (f2, h))).
  { apply contig_iter_defect.
    - intros x Hx. split; [apply Harr; apply in_or_app; now left | now apply Hpre].
    - apply Harr. apply in_or_app. right. now left.
    - exact Hdef.
    - simpl. congruence. }
  unfold run, body.
  step (check_typecode_pass f0 h fa A Hf HA Htc).
  step (check_nd_type_pass f0 h fa A Hf HA (arrays_typed_ranked _ _ Ht)).
  step (check_aligned_pass f0 h _ Ht).
  step (cm_frame_next _ _ _ h Hd).
  step (set_elsize_eq f1 h fa A Hf (eq_trans (f_equal (fun l => alookup l fa) A1) HA)).
  unfold contig_all. rewrite Hsplit. destruct (isoutput a).
  - rewrite (cm_bind_goto _ _ _ _ _ Hc). rewrite cleanup_nocopy; [reflexivity|].
    simpl. congruence.
  - now rewrite (cm_bind_return _ _ _ _ _ Hc).
Qed.

End Steps.
