(* ===== verification/PipelineProps.v ===== *)
(** * What [GpuArray_r<op>] leaves live

    The fallback copies of lines 611-645 allocate buffers, and the code
    after the [cleanup:] label (lines 665-672) releases them with
    [if (Ap == &copyA) GpuArray_clear(&copyA);].  The invariant [inv C]
    of the pipeline's state says that the buffers live are the buffers
    of the copies the frame holds followed by those live at entry; that
    every input array is copied at most once, and only if its name is in
    [C]; and that under [nocopy] nothing is copied.  Each statement of
    the body keeps it on each of its exits ([return], [goto cleanup],
    falling through), and a [return] happens only before any copy.  The
    cleanup then releases exactly the copies: a call that returns a
    status leaves live exactly the buffers live before it. *)

From Stdlib Require Import String List Bool ZArith Floats Lia.
From S2P Require Import Prelude Dtype Runtime Args BlasOp Layout Ops Pipeline Fixtures PipelineSteps.
Import ListNotations.
Open Scope string_scope.
Open Scope blas_scope.
Open Scope cm_scope.

(** A heap whose live buffers are distinct, not NULL and below the next
    fresh handle. *)
Definition heap_wf (h : heap) : Prop :=
  NoDup (live h) /\ Forall (fun d => (0 < d < next h)%nat) (live h) /\ (0 < next h)%nat.

Lemma heap_wf_alloc h : heap_wf h -> heap_wf (with_alloc h).
Proof.
  intros (Hnd & Hlt & Hpos). repeat split; simpl.
  - constructor; [|exact Hnd]. intros Hx. rewrite Forall_forall in Hlt.
    specialize (Hlt _ Hx). lia.
  - constructor; [lia|]. eapply Forall_impl; [|exact Hlt]. simpl. intros; lia.
  - lia.
Qed.

Lemma heap_wf_not_null h : heap_wf h -> ~ In 0%nat (live h).
Proof.
  intros (_ & Hlt & _) Hin. rewrite Forall_forall in Hlt. specialize (Hlt _ Hin). lia.
Qed.

(** The buffer [copy<nm>.data] the frame holds for a copied array. *)
Definition copy_handle (f : frame) (nm : string) : nat :=
  match alookup (f_ptr f) nm with Some P => data P | None => 0%nat end.

Definition copy_handles (f : frame) : list nat := map (copy_handle f) (f_copied f).

(** The names of the input arrays of a list of arguments: those the
    fallback may copy and the cleanup releases. *)
Definition input_names (l : list Argument) : list string :=
  map arg_name (filter (fun a => negb (isoutput a)) l).

Lemma copy_handles_with_copy f nm C :
  ~ In nm (f_copied f) -> copy_handles (with_copy f nm C) = data C :: copy_handles f.
Proof.
  intros Hn. unfold copy_handles, copy_handle, with_copy. cbn [map f_copied f_ptr].
  rewrite alookup_aset_eq. f_equal.
  apply map_ext_in. intros x Hx. rewrite alookup_aset_ne; [reflexivity|].
  intros ->. contradiction.
Qed.

(** ** Statements that keep the copies and the live buffers *)

Definition same (s s' : cstate) : Prop :=
  f_ptr (fst s') = f_ptr (fst s) /\ f_copied (fst s') = f_copied (fst s) /\
  f_nocopy (fst s') = f_nocopy (fst s) /\ live (snd s') = live (snd s) /\
  next (snd s') = next (snd s).

Definition stable {A} (c : CM A) : Prop := forall s, same s (snd (c s)).

Lemma same_refl s : same s s.
Proof. repeat split. Qed.

Lemma same_trans s1 s2 s3 : same s1 s2 -> same s2 s3 -> same s1 s3.
Proof. unfold same. intuition congruence. Qed.

Lemma stable_bind {A B} (c : CM A) (k : A -> CM B) :
  stable c -> (forall a, stable (k a)) -> stable (cm_bind c k).
Proof.
  intros Hc Hk s. specialize (Hc s). unfold cm_bind.
  destruct (c s) as [[a|e|e|] s']; simpl in *; auto.
  eapply same_trans; [exact Hc | apply Hk].
Qed.

Lemma stable_ret {A} (a : A) : stable (cm_ret a).
Proof. intros s. apply same_refl. Qed.

Lemma stable_get : stable cm_get.
Proof. intros [f h]. apply same_refl. Qed.

Lemma stable_lift {A} (r : cres gaerr A) : stable (cm_lift r).
Proof. intros s. apply same_refl. Qed.

Lemma stable_frame (t : frame -> cres gaerr frame) :
  (forall f f', t f = CNext f' -> keeps_ptrs f f') -> stable (cm_frame t).
Proof.
  intros Ht [f h]. unfold cm_frame. destruct (t f) as [f'|e|e|] eqn:E; try apply same_refl.
  destruct (Ht _ _ E) as (_ & Hp & Hc & Hn & _). repeat split; assumption.
Qed.

#[local] Hint Resolve stable_ret stable_get stable_lift same_refl : blas.

Ltac stable_tac :=
  repeat first
    [ apply stable_bind; [| intros ?]
    | progress (eauto with blas)
    | match goal with
      | |- stable (if ?b then _ else _) => destruct b
      | |- stable (match ?x with _ => _ end) => destruct x
      | |- same (?f, ?h) (snd (match ?x with _ => _ end)) => destruct x
      end ].

(** A statement that never executes [return]. *)
Definition cm_no_return {A} (c : CM A) : Prop := forall s, no_return (fst (c s)).

Section Live.
Context {RT : BlasRuntime}.
Variable op : BlasOp.
Variable l0 : list nat.

Record inv (C : list string) (s : cstate) : Prop := {
  inv_wf : heap_wf (snd s);
  inv_live : live (snd s) = (copy_handles (fst s) ++ l0)%list;
  inv_nodup : NoDup (f_copied (fst s));
  inv_incl : incl (f_copied (fst s)) C;
  inv_nocopy : f_nocopy (fst s) = true -> f_copied (fst s) = []
}.

Lemma inv_mono C C' s : incl C C' -> inv C s -> inv C' s.
Proof. intros Hi [Hw Hl Hn Hc Hnc]. constructor; auto. eapply incl_tran; eauto. Qed.

Lemma inv_same C s s' : same s s' -> inv C s -> inv C s'.
Proof.
  destruct s as [f h], s' as [f' h']. intros (Hp & Hc & Hn & Hl & Hx) [Hw Hl0 Hnd Hi Hnc].
  simpl in *. constructor; simpl; unfold copy_handles, copy_handle in *.
  - unfold heap_wf in *. rewrite Hl, Hx. exact Hw.
  - rewrite Hl, Hp, Hc. exact Hl0.
  - rewrite Hc. exact Hnd.
  - rewrite Hc. exact Hi.
  - rewrite Hc, Hn. exact Hnc.
Qed.

(** What a statement leaves on each exit: the invariant for [C], and
    no copy if it executed [return]. *)
Definition post {A} (C : list string) (r : cres gaerr A * cstate) : Prop :=
  inv C (snd r) /\ (forall e, fst r = CReturn e -> f_copied (fst (snd r)) = []).

Lemma post_mono {A} C C' (r : cres gaerr A * cstate) : incl C C' -> post C r -> post C' r.
Proof. intros Hi [H1 H2]. split; [eapply inv_mono|]; eauto. Qed.

Definition ok_stmt {A} (C C' : list string) (c : CM A) : Prop :=
  forall s, inv C s -> post C' (c s).

Lemma ok_bind {A B} C C' C'' (c : CM A) (k : A -> CM B) :
  incl C' C'' -> ok_stmt C C' c -> (forall a, ok_stmt C' C'' (k a)) -> ok_stmt C C'' (cm_bind c k).
Proof.
  intros Hi Hc Hk s Hs. specialize (Hc s Hs). unfold cm_bind.
  destruct (c s) as [[a|e|e|] s']; [exact (Hk a s' (proj1 Hc)) | ..];
    destruct Hc as [H1 H2]; (split; [exact (inv_mono _ _ _ Hi H1) |]);
    simpl in *; intros e' [= <-]; exact (H2 e eq_refl).
Qed.

Lemma ok_weaken {A} C C1 C2 (c : CM A) : incl C1 C2 -> ok_stmt C C1 c -> ok_stmt C C2 c.
Proof. intros Hi Hc s Hs. exact (post_mono _ _ _ Hi (Hc s Hs)). Qed.

(** Before any copy, a statement that keeps the copies is safe whatever
    its exit. *)
Lemma ok_stable_nil {A} (c : CM A) : stable c -> ok_stmt [] [] c.
Proof.
  intros Hc s Hs. pose proof (inv_same _ _ _ (Hc s) Hs) as Hs'. split; [exact Hs'|].
  intros e _. apply incl_l_nil, (inv_incl _ _ Hs').
Qed.

(** After the copies, it must not [return]. *)
Lemma ok_stable {A} C (c : CM A) : stable c -> cm_no_return c -> ok_stmt C C c.
Proof.
  intros Hc Hr s Hs. split; [exact (inv_same _ _ _ (Hc s) Hs)|].
  intros e E. exfalso. exact (Hr s e E).
Qed.

(** ** The fallback copy *)

Lemma inv_copy C f h nm A ord :
  inv C (f, h) -> ~ In nm (f_copied f) -> f_nocopy f = false ->
  inv (nm :: C) (with_copy f nm (GpuArray_copy_result A ord (next h)), with_alloc h).
Proof.
  intros [Hw Hl Hnd Hi Hnc] Hn Hf. simpl in *. constructor; cbn [fst snd].
  - now apply heap_wf_alloc.
  - rewrite copy_handles_with_copy by exact Hn. simpl. now rewrite Hl.
  - constructor; assumption.
  - apply incl_cons; [now left | now apply incl_tl].
  - simpl. rewrite Hf. discriminate.
Qed.

(** The block for [a], an array not copied yet: on every exit the
    invariant holds, [a] added to the copies allowed if it is an input. *)
Lemma ok_contig_one C a :
  ~ In (arg_name a) C -> ok_stmt C (input_names [a] ++ C) (contig_one a).
Proof.
  intros Hn [f h] Hs.
  assert (Hn' : ~ In (arg_name a) (f_copied f)) by (intros H; apply Hn, (inv_incl _ _ Hs), H).
  assert (Hm : inv (input_names [a] ++ C) (f, h))
    by (eapply inv_mono; [|exact Hs]; apply incl_appr, incl_refl).
  assert (Hnext : post (input_names [a] ++ C) (CNext tt, (f, h))) by (split; [exact Hm | discriminate]).
  assert (Hgoto : forall e, post (input_names [a] ++ C) (@CGoto gaerr unit e, (f, h)))
    by (split; [exact Hm | discriminate]).
  unfold contig_one, cm_bind, cm_get, cm_lift, cm_ret, arg, copy_into, cread.
  destruct a as [? ? ?|? ? ?|? ? ?|? ? ?|nm out|nm out]; try exact Hnext; simpl in *;
    destruct (alookup (f_args f) nm) as [A|]; try (split; [exact Hm | discriminate]);
    [destruct (GpuArray_ISONESEGMENT A)
    |destruct (stride A 0) as [s0|]; try (split; [exact Hm | discriminate]);
     destruct (negb (s0 <? 0)%Z)]; try exact Hnext;
    destruct out; try apply Hgoto;
    (destruct (f_nocopy f) eqn:Hnc; [split; [exact Hm | intros e _; exact (inv_nocopy _ _ Hs Hnc)]|]);
    (destruct (rt_copy A _); [split; [apply inv_copy; assumption | discriminate] | apply Hgoto ..]).
Qed.

Lemma ok_contig_iter l C :
  NoDup (map arg_name l) -> (forall a, In a l -> ~ In (arg_name a) C) ->
  ok_stmt C (input_names l ++ C) (cm_iter contig_one l).
Proof.
  revert C. induction l as [|a l IH]; intros C Hnd Hn s Hs; simpl.
  - split; [exact Hs | discriminate].
  - inversion Hnd as [|? ? Ha Hnd']; subst.
    assert (Hi : incl (input_names l ++ input_names [a] ++ C) (input_names (a :: l) ++ C)).
    { unfold input_names. simpl. destruct (isoutput a); simpl; intros x;
        rewrite ?in_app_iff; simpl; rewrite ?in_app_iff; tauto. }
    assert (Hi1 : incl (input_names [a] ++ C) (input_names (a :: l) ++ C))
      by (eapply incl_tran; [apply incl_appr, incl_refl | exact Hi]).
    refine (ok_bind _ _ _ _ _ Hi1 (ok_contig_one C a (Hn a (or_introl eq_refl))) _ s Hs).
    intros []. apply (ok_weaken _ _ _ _ Hi). apply IH; [exact Hnd'|].
    intros a' Ha' Hin. unfold input_names in Hin. simpl in Hin.
    destruct (isoutput a); simpl in Hin; [|destruct Hin as [E|Hin]].
    + exact (Hn a' (or_intror Ha') Hin).
    + apply Ha. rewrite E. now apply in_map.
    + exact (Hn a' (or_intror Ha') Hin).
Qed.

(** ** The body *)

Hypothesis dims_keeps : forall f f', check_dims op f = CNext f' -> keeps_ptrs f f'.
Hypothesis order_keeps : forall f f', setup_order op f = CNext f' -> keeps_ptrs f f'.
Hypothesis order_no_return : forall f, no_return (setup_order op f).
Hypothesis names_nodup : NoDup (map arg_name (array_args op)).

Lemma stable_set_elsize : stable (set_elsize op).
Proof.
  intros [f h]. unfold set_elsize.
  destruct (firsta op); [destruct (alookup (f_args f) s)|]; repeat split.
Qed.

Lemma stable_get_ctx : stable (get_ctx op).
Proof.
  intros [f h]. unfold get_ctx.
  destruct (firsta op); [destruct (alookup (f_ptr f) s) as [g|]|]; [|repeat split ..].
  destruct (rt_buffer_ctx (data g)) as [[] ctx]; repeat split.
Qed.

Lemma stable_get_blas_setup : stable get_blas_setup.
Proof. unfold get_blas_setup, check_status. stable_tac. Qed.

Lemma stable_call_backend : stable (call_backend op).
Proof.
  intros [f h]. unfold call_backend.
  destruct (firsta op); [|repeat split].
  destruct (alookup (f_ptr f) s), (f_order f); [|repeat split ..].
  destruct (eval_callargs f _ _); repeat split.
Qed.

Lemma no_return_get_ctx : cm_no_return (get_ctx op).
Proof.
  intros [f h]. unfold get_ctx.
  destruct (firsta op); [destruct (alookup (f_ptr f) s)|]; try apply no_return_ub.
  destruct (rt_buffer_ctx (data g)) as [[] ctx]; simpl; eauto with blas.
Qed.

Lemma no_return_get_blas_setup : cm_no_return get_blas_setup.
Proof.
  intros [f h]. unfold get_blas_setup, check_status, cm_bind, cm_get, cm_ret, cm_lift.
  destruct (rt_ctx_blas (f_ctx f)), (rt_setup (f_ctx f)); simpl; eauto with blas.
Qed.

Lemma no_return_call_backend : cm_no_return (call_backend op).
Proof.
  intros [f h]. unfold call_backend.
  destruct (firsta op); [|apply no_return_ub].
  destruct (alookup (f_ptr f) s), (f_order f); try apply no_return_ub.
  destruct (eval_callargs f _ _); simpl; eauto with blas.
Qed.

Lemma no_return_setup_order : cm_no_return (cm_frame (setup_order op)).
Proof.
  intros [f h] e. unfold cm_frame. pose proof (order_no_return f e) as H.
  destruct (setup_order op f); simpl; congruence.
Qed.

(** The checks keep everything before the copies; the copies follow the
    arguments; the steps after them never [return]. *)
Lemma ok_body : ok_stmt [] (input_names (array_args op)) (body op).
Proof.
  set (IN := input_names (array_args op)).
  assert (Hin : incl IN IN) by apply incl_refl.
  unfold body.
  apply (ok_bind _ [] _); [apply incl_nil_l | apply ok_stable_nil; unfold check_typecode, arg; stable_tac | intros []].
  apply (ok_bind _ [] _); [apply incl_nil_l | apply ok_stable_nil; unfold check_nd_type, arg; stable_tac | intros []].
  apply (ok_bind _ [] _); [apply incl_nil_l | apply ok_stable_nil; unfold check_aligned; stable_tac | intros []].
  apply (ok_bind _ [] _); [apply incl_nil_l | apply ok_stable_nil, stable_frame, dims_keeps | intros []].
  apply (ok_bind _ [] _); [apply incl_nil_l | apply ok_stable_nil, stable_set_elsize | intros []].
  apply (ok_bind _ IN _); [exact Hin | | intros []].
  { unfold contig_all. rewrite <- (app_nil_r IN). apply ok_contig_iter; [exact names_nodup|].
    intros a _ []. }
  apply (ok_bind _ IN _); [exact Hin | apply ok_stable; [apply stable_frame, order_keeps | apply no_return_setup_order] | intros []].
  apply (ok_bind _ IN _); [exact Hin | apply ok_stable; [apply stable_get_ctx | apply no_return_get_ctx] | intros []].
  apply (ok_bind _ IN _); [exact Hin | apply ok_stable; [apply stable_get_blas_setup | apply no_return_get_blas_setup] | intros []].
  apply ok_stable; [apply stable_call_backend | apply no_return_call_backend].
Qed.

End Live.

(** ** The cleanup releases exactly the copies *)

(** [x] is the buffer [cleanup_one] releases for [a]. *)
Definition freed (f : frame) (x : nat) (a : Argument) : bool :=
  negb (isoutput a) && existsb (String.eqb (arg_name a)) (f_copied f) &&
  match alookup (f_ptr f) (arg_name a) with Some P => Nat.eqb x (data P) | None => false end.

Lemma cleanup_one_live f h a :
  live (cleanup_one f h a) = filter (fun x => negb (freed f x a)) (live h).
Proof.
  unfold cleanup_one, freed. destruct (isoutput a); simpl; [symmetry; apply filter_all_true; auto|].
  destruct (existsb _ _); simpl; [|symmetry; apply filter_all_true; auto].
  destruct (alookup _ _); simpl; [reflexivity | symmetry; apply filter_all_true; auto].
Qed.

Lemma cleanup_live {RT : BlasRuntime} op f h :
  live (cleanup op f h) = filter (fun x => negb (existsb (freed f x) (array_args op))) (live h).
Proof.
  unfold cleanup. revert h. induction (array_args op) as [|a l IH]; intros h; simpl.
  - symmetry. apply filter_all_true. auto.
  - rewrite IH, cleanup_one_live, filter_filter_andb. apply filter_ext. intros x.
    now rewrite negb_orb.
Qed.

Lemma cleanup_releases_copies {RT : BlasRuntime} op l0 f h :
  inv l0 (input_names (array_args op)) (f, h) -> live (cleanup op f h) = l0.
Proof.
  intros [Hw Hl Hnd Hi Hnc]. simpl in *. rewrite cleanup_live, Hl, filter_app.
  rewrite filter_all_false, filter_all_true; [reflexivity| |].
  - intros x Hx. apply negb_true_iff, not_true_iff_false. intros Hex.
    apply existsb_exists in Hex as (a & _ & Ha). unfold freed in Ha.
    rewrite !andb_true_iff in Ha. destruct Ha as [[_ Hc] Hx'].
    apply existsb_exists in Hc as (nm & Hnm & E). apply String.eqb_eq in E. subst nm.
    destruct (alookup (f_ptr f) (arg_name a)) as [P|] eqn:EP; [|discriminate].
    apply Nat.eqb_eq in Hx'. subst x.
    assert (Hch : In (data P) (copy_handles f)).
    { apply in_map_iff. exists (arg_name a). unfold copy_handle. now rewrite EP. }
    destruct Hw as [Hnd' _]. rewrite Hl in Hnd'. exact (NoDup_app_disjoint _ _ _ Hnd' Hch Hx).
  - intros x Hx. apply negb_false_iff. apply in_map_iff in Hx as (nm & <- & Hnm).
    pose proof (Hi nm Hnm) as Hin. unfold input_names in Hin.
    apply in_map_iff in Hin as (a & <- & Ha). apply filter_In in Ha as [Ha Hout].
    apply existsb_exists. exists a. split; [exact Ha|]. unfold freed, copy_handle.
    rewrite Hout. simpl.
    assert (Hex : existsb (String.eqb (arg_name a)) (f_copied f) = true)
      by (apply existsb_exists; exists (arg_name a); split; [exact Hnm | apply String.eqb_refl]).
    rewrite Hex. simpl. destruct (alookup (f_ptr f) (arg_name a)) as [P|] eqn:EP.
    + apply Nat.eqb_refl.
    + exfalso. apply (heap_wf_not_null h Hw). rewrite Hl. apply in_or_app. left.
      apply in_map_iff. exists (arg_name a). unfold copy_handle. now rewrite EP.
Qed.

(** ** The whole call *)

Lemma run_live {RT : BlasRuntime} op f h e h' :
  (forall f f', check_dims op f = CNext f' -> keeps_ptrs f f') ->
  (forall f f', setup_order op f = CNext f' -> keeps_ptrs f f') ->
  (forall f, no_return (setup_order op f)) -> NoDup (map arg_name (array_args op)) ->
  heap_wf h -> f_copied f = [] -> run op f h = (Some e, h') -> live h' = live h.
Proof.
  intros Hd Ho Hr Hnd Hwf Hc Hrun.
  assert (Hi : inv (live h) [] (f, h)).
  { constructor; simpl; unfold copy_handles; rewrite ?Hc; auto using NoDup_nil, incl_refl. }
  pose proof (ok_body op (live h) Hd Ho Hr Hnd (f, h) Hi) as [Hb Hret].
  unfold run in Hrun.
  destruct (body op (f, h)) as [[err|err|err|] [f' h'']]; inversion Hrun; subst; simpl in *.
  - exact (cleanup_releases_copies op _ _ _ Hb).
  - pose proof (inv_live _ _ _ Hb) as L. simpl in L. rewrite L. unfold copy_handles.
    rewrite (Hret _ eq_refl). reflexivity.
  - exact (cleanup_releases_copies op _ _ _ Hb).
Qed.

Lemma bind_params_copied l vs f f' :
  bind_params l vs f = Some f' -> f_copied f' = f_copied f.
Proof.
  revert vs f; induction l as [|a l IH]; intros [|v vs] f H; simpl in H; try discriminate.
  - congruence.
  - destruct a, v; try discriminate; apply IH in H; exact H.
Qed.

(** What [run_live] needs of an operation, for the three of the table. *)
Lemma make_ops_live {RT : BlasRuntime} op :
  In op make_ops ->
  (forall f f', check_dims op f = CNext f' -> keeps_ptrs f f') /\
  (forall f f', setup_order op f = CNext f' -> keeps_ptrs f f') /\
  (forall f, no_return (setup_order op f)) /\ NoDup (map arg_name (array_args op)).
Proof.
  simpl. intros [<-|[<-|[<-|[]]]]; simpl; refine (conj _ (conj _ (conj _ _)));
    eauto using check_dims_gemv_keeps, check_dims_gemm_keeps, check_dims_ger_keeps,
      order_defining_keeps, setup_order_gemm_keeps, order_defining_no_return,
      setup_order_gemm_no_return;
    repeat constructor; simpl; intuition discriminate.
Qed.

(** C2.  For every operation of the table, a call of [GpuArray_r<op>]
    that returns a status leaves live exactly the buffers that were live
    before it: every fallback copy it allocated is released by its
    cleanup, on the call path and on every error exit after the copy,
    and nothing live before the call is released. *)
Theorem GpuArray_r_live {RT : BlasRuntime} op vs nocopy h e h' :
  In op make_ops -> heap_wf h -> GpuArray_r op vs nocopy h = (Some e, h') -> live h' = live h.
Proof.
  intros Hop Hwf Hr. unfold GpuArray_r in Hr.
  destruct (bind_params _ vs _) as [f|] eqn:Hb; [|discriminate].
  destruct (make_ops_live op Hop) as (Hd & Ho & Hnr & Hnd).
  eapply run_live; eauto. apply bind_params_copied in Hb. exact Hb.
Qed.

(** The [gemm] example with a non-contiguous [A], copying allowed: the
    call copies [A] into a fresh buffer, makes the backend call, and
    releases the copy. *)
Lemma GpuArray_r_live_witness :
  let r := @GpuArray_r rt_ok (@gemm_op rt_ok)
             [VTrans cb_no_trans; VTrans cb_no_trans; VScal 1%float;
              VArr (ncmat 1 2 3); VArr (cmat 2 3 4); VScal 0%float; VArr (cmat 3 2 4)]
             false heap0 in
  next (snd r) = S (next heap0) /\ length (calls (snd r)) = 1%nat /\ live (snd r) = live heap0.
Proof.
  intros r. assert (E : r = (Some GA_NO_ERROR, snd r)) by (vm_compute; reflexivity).
  split; [vm_compute; reflexivity|]. split; [vm_compute; reflexivity|].
  apply (@GpuArray_r_live rt_ok (@gemm_op rt_ok)
           [VTrans cb_no_trans; VTrans cb_no_trans; VScal 1%float;
            VArr (ncmat 1 2 3); VArr (cmat 2 3 4); VScal 0%float; VArr (cmat 3 2 4)]
           false heap0 GA_NO_ERROR (snd r)).
  - simpl; auto.
  - repeat split; [constructor | constructor | simpl; lia].
  - exact E.
Defined.

(** ** Under [nocopy], nothing is allocated *)

(** A statement that keeps the copies and the live buffers when
    [nocopy] is set. *)
Definition stable_nc {A} (c : CM A) : Prop :=
  forall s, f_nocopy (fst s) = true -> same s (snd (c s)).

Lemma stable_nc_of {A} (c : CM A) : stable c -> stable_nc c.
Proof. intros Hc s _. apply Hc. Qed.

Lemma stable_nc_bind {A B} (c : CM A) (k : A -> CM B) :
  stable_nc c -> (forall a, stable_nc (k a)) -> stable_nc (cm_bind c k).
Proof.
  intros Hc Hk s Hs. specialize (Hc s Hs). unfold cm_bind.
  destruct (c s) as [[a|e|e|] s']; simpl in *; auto.
  eapply same_trans; [exact Hc | apply Hk]. destruct Hc as (_ & _ & Hn & _). congruence.
Qed.

(** The fallback block returns [GA_COPY_ERROR] before [copy_into]. *)
Lemma stable_nc_contig_one {RT : BlasRuntime} a : stable_nc (contig_one a).
Proof.
  intros [f h] Hn. simpl in Hn.
  unfold contig_one, cm_bind, cm_get, cm_lift, cm_ret, arg, cread.
  destruct a as [? ? ?|? ? ?|? ? ?|? ? ?|nm out|nm out]; try apply same_refl; simpl;
    destruct (alookup (f_args f) nm) as [A|]; try apply same_refl;
    [destruct (GpuArray_ISONESEGMENT A)
    |destruct (stride A 0) as [s0|]; try apply same_refl; destruct (negb (s0 <? 0)%Z)];
    try apply same_refl; destruct out; try apply same_refl; rewrite Hn; apply same_refl.
Qed.

Lemma stable_nc_iter {A} (c : A -> CM unit) l :
  (forall a, stable_nc (c a)) -> stable_nc (cm_iter c l).
Proof.
  intros Hc. induction l as [|a l IH]; simpl; [apply stable_nc_of, stable_ret|].
  apply stable_nc_bind; auto.
Qed.

Lemma bind_params_nocopy l vs f f' :
  bind_params l vs f = Some f' -> f_nocopy f' = f_nocopy f.
Proof.
  revert vs f; induction l as [|a l IH]; intros [|v vs] f H; simpl in H; try discriminate.
  - congruence.
  - destruct a, v; try discriminate; apply IH in H; exact H.
Qed.

(** C12.  For every operation of the table, a call of
    [GpuArray_r<op>] with [nocopy] set that returns a status allocates
    and releases no buffer: every fallback path under [nocopy] returns
    [GA_COPY_ERROR] before [GpuArray_copy]. *)
Theorem GpuArray_r_nocopy_no_alloc {RT : BlasRuntime} op vs h e h' :
  In op make_ops -> GpuArray_r op vs true h = (Some e, h') ->
  live h' = live h /\ next h' = next h.
Proof.
  intros Hop Hr. unfold GpuArray_r in Hr.
  destruct (bind_params _ vs _) as [f|] eqn:Hb; [|discriminate].
  destruct (make_ops_live op Hop) as (Hd & Ho & _ & _).
  assert (Hbody : stable_nc (body op)).
  { unfold body.
    apply stable_nc_bind; [apply stable_nc_of; unfold check_typecode, arg; stable_tac | intros _].
    apply stable_nc_bind; [apply stable_nc_of; unfold check_nd_type, arg; stable_tac | intros _].
    apply stable_nc_bind; [apply stable_nc_of; unfold check_aligned; stable_tac | intros _].
    apply stable_nc_bind; [apply stable_nc_of, stable_frame, Hd | intros _].
    apply stable_nc_bind; [apply stable_nc_of, stable_set_elsize | intros _].
    apply stable_nc_bind; [apply stable_nc_iter, stable_nc_contig_one | intros _].
    apply stable_nc_bind; [apply stable_nc_of, stable_frame, Ho | intros _].
    apply stable_nc_bind; [apply stable_nc_of, stable_get_ctx | intros _].
    apply stable_nc_bind; [apply stable_nc_of, stable_get_blas_setup | intros _].
    apply stable_nc_of, stable_call_backend. }
  pose proof (bind_params_nocopy _ _ _ _ Hb) as Hn. pose proof (bind_params_copied _ _ _ _ Hb) as Hc.
  specialize (Hbody (f, h) Hn). unfold run in Hr.
  destruct (body op (f, h)) as [[err|err|err|] [f' h'']];
    destruct Hbody as (_ & Hc' & _ & Hl & Hx); simpl in *; inversion Hr; subst;
    rewrite ?cleanup_nocopy by congruence; auto.
Qed.

(** The [gemm] example of [C2] under [nocopy]: [A] is not one segment,
    the call returns [GA_COPY_ERROR] and allocates nothing. *)
Lemma GpuArray_r_nocopy_no_alloc_witness :
  let r := @GpuArray_r rt_ok (@gemm_op rt_ok)
             [VTrans cb_no_trans; VTrans cb_no_trans; VScal 1%float;
              VArr (ncmat 1 2 3); VArr (cmat 2 3 4); VScal 0%float; VArr (cmat 3 2 4)]
             true heap0 in
  fst r = Some GA_COPY_ERROR /\ live (snd r) = live heap0 /\ next (snd r) = next heap0.
Proof.
  intros r. assert (E : r = (Some GA_COPY_ERROR, snd r)) by (vm_compute; reflexivity).
  split; [rewrite E; reflexivity|].
  apply (@GpuArray_r_nocopy_no_alloc rt_ok (@gemm_op rt_ok)
           [VTrans cb_no_trans; VTrans cb_no_trans; VScal 1%float;
            VArr (ncmat 1 2 3); VArr (cmat 2 3 4); VScal 0%float; VArr (cmat 3 2 4)]
           heap0 GA_COPY_ERROR (snd r)).
  - simpl; auto.
  - exact E.
Defined.
