(* ===== verification/Safety.v ===== *)
(** * [GpuArray_r<op>] never reads what it has not set

    The model of [Pipeline] makes every read of a local, a parameter, a
    dimension or a stride an explicit [cread]: a read of something the
    code has not set, or of an index past an array's rank, is undefined
    behaviour ([CUB]).  This file proves that on well-formed parameters
    the body of every operation of the table never reaches [CUB]: the
    generated C function always returns a status.

    The proof is a small Hoare logic over [CM]: [csafe Q r] says that a
    result is not undefined behaviour and that [Q] holds of the value it
    falls through with; [triple P c Q] lifts it to statements.  The
    frame invariants of the stages ([entry_frame] at entry,
    [shaped_frame] once ranks are checked, [ok_frame] once sizes and the
    order are set) are preserved by the generic statements of the body,
    and the operation-specific fragments discharge the interface
    [SafeOp]: an instance per operation of [make_ops].  A fallback copy
    that succeeds has the rank and dimensions of its source; one that
    fails jumps to the cleanup: no assumption on the runtime is needed. *)

From Stdlib Require Import String List Bool ZArith Floats Lia.
From S2P Require Import Prelude Dtype Runtime Args BlasOp Layout Ops Pipeline LayoutProps.
Import ListNotations.
Open Scope string_scope.

(** ** Results that are not undefined behaviour *)

Definition csafe {E A} (Q : A -> Prop) (r : cres E A) : Prop :=
  match r with CNext a => Q a | CUB => False | _ => True end.

Lemma csafe_bind {E A B} (Q : A -> Prop) (R : B -> Prop) (r : cres E A) (k : A -> cres E B) :
  csafe Q r -> (forall a, Q a -> csafe R (k a)) -> csafe R (cbind r k).
Proof. destruct r; simpl; auto. Qed.

Lemma csafe_weaken {E A} (Q Q' : A -> Prop) (r : cres E A) :
  csafe Q r -> (forall a, Q a -> Q' a) -> csafe Q' r.
Proof. destruct r; simpl; auto. Qed.

Lemma csafe_cread {E A} (Q : A -> Prop) (o : option A) a :
  o = Some a -> Q a -> @csafe E A Q (cread o).
Proof. intros ->; simpl; auto. Qed.

(** ** Triples over the statements of the body *)

Definition triple {A} (P : cstate -> Prop) (c : CM A) (Q : A -> cstate -> Prop) : Prop :=
  forall s, P s -> let '(r, s') := c s in csafe (fun a => Q a s') r.

Lemma triple_bind {A B} P (c : CM A) (k : A -> CM B) Q R :
  triple P c Q -> (forall a, triple (Q a) (k a) R) -> triple P (cm_bind c k) R.
Proof.
  intros Hc Hk s Hs. specialize (Hc s Hs). unfold cm_bind.
  destruct (c s) as [[a| e | e |] s']; simpl in *; auto. exact (Hk a s' Hc).
Qed.

Lemma triple_ret {A} P Q (a : A) : (forall s, P s -> Q a s) -> triple P (cm_ret a) Q.
Proof. intros H s Hs. exact (H s Hs). Qed.

Lemma triple_get P : triple P cm_get (fun f s => P s /\ fst s = f).
Proof. intros [f h] Hs. simpl. auto. Qed.

Lemma triple_lift {A} P Q (r : cres gaerr A) :
  (forall s, P s -> csafe (fun a => Q a s) r) -> triple P (cm_lift r) Q.
Proof. intros H s Hs. exact (H s Hs). Qed.

Lemma triple_frame P Q (t : frame -> cres gaerr frame) :
  (forall f h, P (f, h) -> csafe (fun f' => Q tt (f', h)) (t f)) -> triple P (cm_frame t) Q.
Proof.
  intros H [f h] Hs. specialize (H f h Hs). unfold cm_frame.
  destruct (t f); simpl in *; auto.
Qed.

Lemma triple_iter {A} (c : A -> CM unit) l (I : cstate -> Prop) :
  (forall x, In x l -> triple I (c x) (fun _ => I)) -> triple I (cm_iter c l) (fun _ => I).
Proof.
  induction l as [|x l IH]; simpl; intros H.
  - apply triple_ret. auto.
  - apply triple_bind with (Q := fun _ => I); auto.
Qed.

Lemma triple_pre {A} (P P' : cstate -> Prop) (c : CM A) Q :
  (forall s, P s -> P' s) -> triple P' c Q -> triple P c Q.
Proof. intros HP H s Hs. exact (H s (HP s Hs)). Qed.

(** [any_cond c l] falls through with [false] only when every operand
    does. *)
Lemma any_cond_false_inv c l :
  any_cond c l = CNext false -> forall a, In a l -> c a = CNext false.
Proof.
  induction l as [|b l IH]; simpl; [contradiction|].
  destruct (c b) as [[|]| | |] eqn:Hb; simpl; try discriminate.
  intros Hl a [<-|Ha]; auto.
Qed.

Lemma any_cond_safe c l :
  (forall a, In a l -> exists v, c a = CNext v) -> exists v, any_cond c l = CNext v.
Proof.
  induction l as [|b l IH]; simpl; intros H; [eauto|].
  destruct (H b (or_introl eq_refl)) as [[|] Hb]; rewrite Hb; simpl; eauto.
Qed.

(** ** Well-formed arrays and the frame invariants *)

(** A [GpuArray] whose [dimensions] and [strides] have [nd] entries. *)
Definition wf_array (A : GpuArray) : bool :=
  Nat.eqb (length (dimensions A)) (nd A) && Nat.eqb (length (strides A)) (nd A).

Definition rank (a : Argument) : nat := if ismatrix a then 2 else 1.

Definition bound {V} (l : alist V) (k : string) : Prop := exists v, alookup l k = Some v.

Definition shaped_at (l : alist GpuArray) (a : Argument) : Prop :=
  exists P, alookup l (arg_name a) = Some P /\ nd P = rank a /\ wf_array P = true.

Lemma shaped_mat l nm o :
  shaped_at l (matrix nm o) -> exists P d0 d1, mat_at l nm P d0 d1.
Proof.
  intros (P & HP & Hn & Hw). unfold wf_array in Hw. simpl in Hn.
  rewrite Hn in Hw. apply andb_true_iff in Hw as [Hd _]. apply Nat.eqb_eq in Hd.
  destruct (dimensions P) as [|d0 [|d1 [|]]] eqn:Hds; try discriminate.
  exists P, d0, d1. repeat split; assumption.
Qed.

Lemma shaped_vec l nm o :
  shaped_at l (vector nm o) -> exists P d0 s0, vec_at l nm P d0 /\ stride P 0 = Some s0.
Proof.
  intros (P & HP & Hn & Hw). unfold wf_array in Hw. simpl in Hn.
  rewrite Hn in Hw. apply andb_true_iff in Hw as [Hd Hs]. apply Nat.eqb_eq in Hd, Hs.
  destruct (dimensions P) as [|d0 [|]] eqn:Hds; try discriminate.
  destruct (strides P) as [|s0 [|]] eqn:Hss; try discriminate.
  exists P, d0, s0. unfold stride. rewrite Hn, Hss. repeat split; assumption.
Qed.

Lemma bound_aset {V} (l : alist V) k v k' : bound l k' -> bound (aset k v l) k'.
Proof.
  intros [w Hw]. destruct (String.eqb_spec k k') as [<-|Hne].
  - exists v. apply alookup_aset_eq.
  - exists w. rewrite alookup_aset_ne; auto.
Qed.

Lemma bound_aset_eq {V} (l : alist V) k v : bound (aset k v l) k.
Proof. exists v. apply alookup_aset_eq. Qed.

#[export] Hint Resolve bound_aset bound_aset_eq : blas.

Section Invariants.
Context {RT : BlasRuntime}.
Variable op : BlasOp.

(** Every [trans] and [scalar] parameter the body reads is bound. *)
Definition params_bound (f : frame) : Prop :=
  forall a, In a (arguments op) ->
    match a with
    | trans n _ _ => bound (f_trans f) n
    | scalar n _ _ => bound (f_scal f) n
    | _ => True
    end.

(** At entry: every array parameter is bound to a well-formed array and
    its pointer [Ap] to the same array. *)
Record entry_frame (f : frame) : Prop := {
  ef_arrays : forall a, In a (array_args op) -> exists A,
      alookup (f_args f) (arg_name a) = Some A /\ alookup (f_ptr f) (arg_name a) = Some A /\
      wf_array A = true;
  ef_params : params_bound f }.

(** Once the ranks are checked: every array parameter and every array
    pointer has the rank of its argument. *)
Record shaped_frame (f : frame) : Prop := {
  sf_args : forall a, In a (array_args op) -> shaped_at (f_args f) a;
  sf_ptr : forall a, In a (array_args op) -> shaped_at (f_ptr f) a;
  sf_params : params_bound f }.

Definition sizes_bound (f : frame) (l : list string) : Prop :=
  forall k, In k l -> bound (f_size f) k.

(** A shaped frame whose size locals [sizes] are set, and whose order
    [o] is set when [ordered]. *)
Record ok_frame (sizes : list string) (ordered : bool) (f : frame) : Prop := {
  ok_shaped : shaped_frame f;
  ok_sizes : sizes_bound f sizes;
  ok_order : ordered = true -> f_order f <> None }.

Lemma params_bound_set_size f k v : params_bound f -> params_bound (set_size k v f).
Proof. unfold params_bound. auto. Qed.

Lemma params_bound_set_trans f k t : params_bound f -> params_bound (set_trans k t f).
Proof.
  intros H a Ha. specialize (H a Ha). destruct a; simpl in *; auto with blas.
Qed.

Lemma shaped_set_size f k v : shaped_frame f -> shaped_frame (set_size k v f).
Proof. intros [] ; constructor; auto using params_bound_set_size. Qed.

Lemma shaped_set_trans f k t : shaped_frame f -> shaped_frame (set_trans k t f).
Proof. intros [] ; constructor; auto using params_bound_set_trans. Qed.

Lemma shaped_set_order f o : shaped_frame f -> shaped_frame (set_order o f).
Proof. intros [] ; constructor; auto. Qed.

Lemma ok_with_elsize S b f e : ok_frame S b f -> ok_frame S b (with_elsize f e).
Proof. intros [[] ? ?]; repeat constructor; auto. Qed.

Lemma ok_with_ctx S b f c : ok_frame S b f -> ok_frame S b (with_ctx f c).
Proof. intros [[] ? ?]; repeat constructor; auto. Qed.

(** A copy of the array [A] bound to [nm], of the same rank and well
    formed, keeps the frame shaped. *)
Lemma ok_with_copy S b f nm A C :
  ok_frame S b f -> alookup (f_args f) nm = Some A -> nd C = nd A -> wf_array C = true ->
  ok_frame S b (with_copy f nm C).
Proof.
  intros [[Ha Hp Hpar] Hs Ho] HA Hn Hw. repeat constructor; auto.
  intros x Hx. unfold shaped_at. change (f_ptr (with_copy f nm C)) with (aset nm C (f_ptr f)).
  destruct (String.eqb_spec nm (arg_name x)) as [Heq|Hne].
  - destruct (Ha x Hx) as (P & HP & HnP & _). rewrite <- Heq, HA in HP. injection HP as <-.
    exists C. rewrite <- Heq, alookup_aset_eq. repeat split; congruence.
  - destruct (Hp x Hx) as (P & HP & HnP & HwP). exists P.
    rewrite alookup_aset_ne; auto.
Qed.

End Invariants.

#[export] Hint Resolve shaped_set_size shaped_set_trans shaped_set_order : blas.

(** ** What the backend call reads *)

(** The argument [a] of [blas->s<op>(o, ...)] can be evaluated in [f]:
    the parameter, local or pointer it names is set, and for an
    increment the pointer of its vector has a first stride. *)
Definition callarg_ready (f : frame) (a : Argument) : Prop :=
  match a with
  | scalar n _ _ => bound (f_scal f) n
  | size n _ _ => bound (f_size f) (py_lower n)
  | inc n _ _ => exists l P s, py_last n = Some l /\ alookup (f_ptr f) l = Some P /\ stride P 0 = Some s
  | trans n _ _ => bound (f_trans f) n
  | matrix n _ | vector n _ => bound (f_ptr f) n
  end.

Lemma eval_callarg_safe f ctype a :
  callarg_ready f a -> exists c, eval_callarg f ctype a = CNext c.
Proof.
  destruct a; simpl;
    [intros [v Hv] | intros [v Hv] | intros (l & P & s & Hl & HP & Hs)
    | intros [v Hv] | intros [v Hv] | intros [v Hv]];
    unfold ptr, trans_of; crunch; eauto.
Qed.

Lemma eval_callargs_safe f ctype l :
  (forall a, In a l -> callarg_ready f a) -> exists cs, eval_callargs f ctype l = CNext cs.
Proof.
  induction l as [|a l IH]; simpl; intros H; [eauto|].
  destruct (eval_callarg_safe f ctype a (H a (or_introl eq_refl))) as [c Hc].
  destruct IH as [cs Hcs]; [auto|]. rewrite Hc, Hcs. simpl. eauto.
Qed.

(** ** The interface of an operation's fragments

    What the pipeline needs of the [check_dims] and [setup_order]
    fragments of an operation: on a shaped frame the dimension check
    reads nothing unset and sets the sizes [dims_sizes]; the order setup
    then sets the order and the sizes [setup_sizes]; and with these set,
    every argument of the backend call can be evaluated. *)
Class SafeOp (op : BlasOp) := {
  dims_sizes : list string;
  setup_sizes : list string;
  safe_first : array_args op <> [];
  dims_safe : forall f, shaped_frame op f -> csafe (ok_frame op dims_sizes false) (check_dims op f);
  setup_safe : forall f, ok_frame op dims_sizes false f ->
    csafe (ok_frame op (dims_sizes ++ setup_sizes) true) (setup_order op f);
  args_ready : forall f, ok_frame op (dims_sizes ++ setup_sizes) true f ->
    forall a, In a (arguments op) -> callarg_ready f a }.

(** ** The statements of the body *)

Section Stages.
Context {RT : BlasRuntime}.
Variable op : BlasOp.
Hypothesis has_array : array_args op <> [].

Lemma firsta_in : exists a, firsta op = Some (arg_name a) /\ In a (array_args op).
Proof.
  unfold firsta. destruct (array_args op) as [|a l]; [contradiction|].
  exists a. simpl. auto.
Qed.

Lemma check_typecode_safe :
  triple (fun s => entry_frame op (fst s)) (check_typecode op) (fun _ s => entry_frame op (fst s)).
Proof.
  intros [f h] Hf. simpl in Hf. destruct firsta_in as (a & Hfa & Ha).
  destruct (ef_arrays _ _ Hf a Ha) as (A & HA & _ & _).
  unfold check_typecode, cm_bind, cm_get, cm_lift, cm_ret, arg. simpl.
  rewrite Hfa. simpl. rewrite HA. simpl.
  destruct (_ && _); simpl; auto.
Qed.

(** The rank and type checks: once they fall through, every array has
    the rank of its argument. *)
Lemma check_nd_type_safe :
  triple (fun s => entry_frame op (fst s)) (check_nd_type op) (fun _ s => shaped_frame op (fst s)).
Proof.
  intros [f h] Hf. simpl in Hf. destruct firsta_in as (a & Hfa & Ha).
  destruct (ef_arrays _ _ Hf a Ha) as (A & HA & _ & _).
  assert (Hb : forall c : Argument -> cres gaerr bool,
             (forall x X, alookup (f_args f) (arg_name x) = Some X -> exists v, c x = CNext v) ->
             exists v, any_cond c (array_args op) = CNext v).
  { intros c Hc. apply any_cond_safe. intros x Hx.
    destruct (ef_arrays _ _ Hf x Hx) as (X & HX & _). eauto. }
  destruct (Hb (ndcond f)) as [bnd Hbnd].
  { intros x X HX. unfold ndcond, arg. rewrite HX. simpl. eauto. }
  destruct (Hb (typecond f A)) as [bty Hbty].
  { intros x X HX. unfold typecond, arg. rewrite HX. simpl. eauto. }
  unfold check_nd_type, cm_bind, cm_get, cm_lift, cm_ret, arg. simpl.
  rewrite Hfa. simpl. rewrite HA. simpl. rewrite Hbnd. simpl.
  destruct bnd; simpl; [exact I|]. rewrite Hbty. simpl.
  destruct bty; simpl; [exact I|].
  pose proof (any_cond_false_inv _ _ Hbnd) as Hnd.
  constructor; [ | | exact (ef_params _ _ Hf)]; intros x Hx;
    destruct (ef_arrays _ _ Hf x Hx) as (X & HX & HpX & Hw);
    specialize (Hnd x Hx); unfold ndcond, arg in Hnd; rewrite HX in Hnd; simpl in Hnd;
    injection Hnd as Hnd; apply negb_false_iff, Nat.eqb_eq in Hnd;
    exists X; auto.
Qed.

Lemma check_aligned_safe :
  triple (fun s => shaped_frame op (fst s)) (check_aligned op) (fun _ s => shaped_frame op (fst s)).
Proof.
  intros [f h] Hf. simpl in Hf.
  destruct (any_cond_safe (aligncond f) (array_args op)) as [b Hb].
  { intros x Hx. destruct (sf_args _ _ Hf x Hx) as (X & HX & _).
    unfold aligncond, arg. rewrite HX. simpl. eauto. }
  unfold check_aligned, cm_bind, cm_get, cm_lift, cm_ret. simpl. rewrite Hb.
  destruct b; simpl; auto.
Qed.

Lemma set_elsize_safe S b :
  triple (fun s => ok_frame op S b (fst s)) (set_elsize op) (fun _ s => ok_frame op S b (fst s)).
Proof.
  intros [f h] Hf. simpl in Hf. destruct firsta_in as (a & Hfa & Ha).
  destruct (sf_args _ _ (ok_shaped _ _ _ _ Hf) a Ha) as (A & HA & _).
  unfold set_elsize. rewrite Hfa, HA. simpl. auto using ok_with_elsize.
Qed.

Lemma get_ctx_safe S b :
  triple (fun s => ok_frame op S b (fst s)) (get_ctx op) (fun _ s => ok_frame op S b (fst s)).
Proof.
  intros [f h] Hf. simpl in Hf. destruct firsta_in as (a & Hfa & Ha).
  destruct (sf_ptr _ _ (ok_shaped _ _ _ _ Hf) a Ha) as (P & HP & _).
  unfold get_ctx. rewrite Hfa, HP. destruct (rt_buffer_ctx (data P)) as [[] ctx];
    simpl; auto using ok_with_ctx.
Qed.

Lemma check_status_safe (P : cstate -> Prop) e :
  triple P (check_status e) (fun _ => P).
Proof. intros s Hs. destruct e; simpl; auto. Qed.

Lemma get_blas_setup_safe (P : cstate -> Prop) :
  triple P get_blas_setup (fun _ => P).
Proof.
  unfold get_blas_setup. eapply triple_bind; [apply triple_get|].
  intros f. eapply triple_bind; [apply triple_pre with (P' := P); [tauto | apply check_status_safe]|].
  intros u. apply check_status_safe.
Qed.

(** The backend call: the order is set and every argument can be
    evaluated. *)
Lemma call_backend_safe S :
  (forall f, ok_frame op S true f -> forall a, In a (arguments op) -> callarg_ready f a) ->
  triple (fun s => ok_frame op S true (fst s)) (call_backend op) (fun _ _ => True).
Proof.
  intros Hr [f h] Hf. simpl in Hf. destruct firsta_in as (a & Hfa & Ha).
  destruct (sf_ptr _ _ (ok_shaped _ _ _ _ Hf) a Ha) as (P & HP & _).
  destruct (f_order f) as [o|] eqn:Ho; [|exfalso; exact (ok_order _ _ _ _ Hf eq_refl Ho)].
  unfold call_backend. rewrite Hfa, HP, Ho.
  destruct (eval_callargs_safe f (Dtypes.name (dtype_of_typecode (typecode P))) (arguments op)
              (Hr f Hf)) as [cs Hcs].
  rewrite Hcs. simpl. exact I.
Qed.

End Stages.

(** ** The body never reaches undefined behaviour *)

Section Body.
Context {RT : BlasRuntime}.
Variable op : BlasOp.
Context `{SafeOp op}.

Lemma wf_copy A ord d : wf_array A = true -> wf_array (GpuArray_copy_result A ord d) = true.
Proof.
  unfold wf_array. rewrite copy_strides_length. simpl.
  rewrite !andb_true_iff. intros [Hd _]. split; exact Hd.
Qed.

(** A copy that succeeds keeps the frame shaped; one that fails jumps
    to the cleanup. *)
Lemma copy_into_safe S b nm A ord f h :
  ok_frame op S b f -> alookup (f_args f) nm = Some A -> wf_array A = true ->
  let '(r, s') := copy_into nm A ord (f, h) in csafe (fun _ => ok_frame op S b (fst s')) r.
Proof.
  intros Hf HA Hw. unfold copy_into.
  destruct (rt_copy A ord); simpl; [|exact I ..].
  apply (ok_with_copy _ _ _ _ _ _ _ Hf HA); [reflexivity | apply wf_copy, Hw].
Qed.

Lemma contig_one_safe S b x :
  In x (array_args op) ->
  triple (fun s => ok_frame op S b (fst s)) (contig_one x) (fun _ s => ok_frame op S b (fst s)).
Proof.
  intros Hx [f h] Hf. simpl in Hf.
  pose proof (sf_args _ _ (ok_shaped _ _ _ _ Hf) x Hx) as Hsx.
  pose proof Hsx as (P & HP & _ & HwP).
  unfold contig_one, cm_bind, cm_get, cm_lift, cm_ret, arg.
  destruct x as [| | | | nm out | nm out]; try exact Hf.
  - destruct (shaped_mat _ _ _ Hsx) as (A & d0 & d1 & HA & _). simpl. rewrite HA. simpl.
    simpl in HP. rewrite HA in HP. injection HP as <-.
    destruct (GpuArray_ISONESEGMENT A); [exact Hf|]. destruct out; [exact I|].
    destruct (f_nocopy f); [exact I|]. apply copy_into_safe; assumption.
  - destruct (shaped_vec _ _ _ Hsx) as (A & d0 & s0 & (HA & _) & Hs). simpl. rewrite HA. simpl.
    simpl in HP. rewrite HA in HP. injection HP as <-.
    rewrite Hs. simpl. destruct (negb (s0 <? 0)%Z); [exact Hf|]. destruct out; [exact I|].
    destruct (f_nocopy f); [exact I|]. apply copy_into_safe; assumption.
Qed.

Lemma body_safe : triple (fun s => entry_frame op (fst s)) (body op) (fun _ _ => True).
Proof.
  pose proof safe_first as Hne.
  unfold body.
  eapply triple_bind; [apply check_typecode_safe, Hne|]. intros u1.
  eapply triple_bind; [apply check_nd_type_safe, Hne|]. intros u2.
  eapply triple_bind; [apply check_aligned_safe|]. intros u3.
  eapply triple_bind.
  { apply triple_frame with (Q := fun _ s => ok_frame op dims_sizes false (fst s)).
    intros f h Hf. apply dims_safe, Hf. }
  intros u4. eapply triple_bind; [apply set_elsize_safe, Hne|]. intros u5.
  eapply triple_bind; [apply triple_iter; intros x Hx; apply contig_one_safe, Hx|]. intros u6.
  eapply triple_bind.
  { apply triple_frame with (Q := fun _ s => ok_frame op (dims_sizes ++ setup_sizes) true (fst s)).
    intros f h Hf. apply setup_safe, Hf. }
  intros u7. eapply triple_bind; [apply get_ctx_safe, Hne|]. intros u8.
  eapply triple_bind; [apply get_blas_setup_safe|]. intros u9.
  apply call_backend_safe; [exact Hne | exact args_ready].
Qed.

(** The whole function on an entry frame returns a status. *)
Lemma run_total f h : entry_frame op f -> exists e h', run op f h = (Some e, h').
Proof.
  intros Hf. pose proof (body_safe (f, h) Hf) as Hb. unfold run.
  destruct (body op (f, h)) as [[e|e|e|] [f' h']]; simpl in Hb; eauto; contradiction.
Qed.

End Body.
