(* ===== verification/SafeOps.v ===== *)
(** * Every call of a generated [GpuArray_r<op>] returns a status

    The fragments of the three operations of [make_ops] discharge the
    interface [Safety.SafeOp]: [check_dims_gemv/gemm/ger] read only the
    bound arrays, their first dimensions and the transpose flags, and
    set [m], [n] (and [k]); [setup_order_gemv/gemm/ger] read only the
    array pointers and set the order and the leading dimensions; and
    every argument of the backend call is then readable.  With the
    binding of the simplified parameters ([bind_params]), this gives
    the totality of [GpuArray_r] on well-formed parameters. *)

From Stdlib Require Import String List Bool ZArith Floats Lia.
From S2P Require Import Prelude Dtype Runtime Args BlasOp Layout Ops Pipeline Fixtures LayoutProps Safety.
Import ListNotations.
Open Scope string_scope.

(** ** Frame updates of the fragments *)

Section Updates.
Variable op : BlasOp.

Lemma ok_of_shaped f : shaped_frame op f -> ok_frame op [] false f.
Proof. intros Hs. constructor; [exact Hs | intros k [] | discriminate]. Qed.

Lemma ok_set_size S b f k v : ok_frame op S b f -> ok_frame op (k :: S) b (set_size k v f).
Proof.
  intros [Hs HS Ho]. constructor; [auto with blas | | exact Ho].
  intros k' [<-|Hk]; simpl; [apply bound_aset_eq | apply bound_aset, HS, Hk].
Qed.

Lemma ok_set_trans S b f k t : ok_frame op S b f -> ok_frame op S b (set_trans k t f).
Proof. intros [Hs HS Ho]. constructor; auto with blas. Qed.

Lemma ok_set_order S b f o : ok_frame op S b f -> ok_frame op S true (set_order o f).
Proof. intros [Hs HS Ho]. constructor; auto with blas. discriminate. Qed.

Lemma ok_incl S S' b f : incl S' S -> ok_frame op S b f -> ok_frame op S' b f.
Proof. intros Hi [Hs HS Ho]. constructor; auto. intros k Hk. apply HS, Hi, Hk. Qed.

(** The order-defining block of a matrix argument sets the order and
    its leading dimension, or jumps to the cleanup. *)
Lemma order_defining_ok S b f mat o ld :
  ok_frame op S b f -> In (matrix mat o) (array_args op) ->
  csafe (ok_frame op (ld :: S) true) (order_defining mat ld f).
Proof.
  intros Hf Hin.
  destruct (shaped_mat _ _ _ (sf_ptr _ _ (ok_shaped _ _ _ _ Hf) _ Hin)) as (P & d0 & d1 & HP).
  unfold order_defining, ptr, dimc. frame_facts. crunch.
  destruct (is_f_flag P); [|destruct (is_c_flag P)]; crunch; try exact I;
    apply ok_set_size; eapply ok_set_order; exact Hf.
Qed.

(** The block of a matrix that follows the order: it sets the leading
    dimension and possibly its flag, or jumps to the cleanup. *)
Lemma order_following_ok S f mat o tr c p ld :
  ok_frame op S true f -> In (matrix mat o) (array_args op) -> In (trans tr c p) (arguments op) ->
  csafe (ok_frame op (ld :: S) true) (order_following mat tr ld f).
Proof.
  intros Hf Hin Htr.
  destruct (shaped_mat _ _ _ (sf_ptr _ _ (ok_shaped _ _ _ _ Hf) _ Hin)) as (P & d0 & d1 & HP).
  destruct (sf_params _ _ (ok_shaped _ _ _ _ Hf) _ Htr) as [t Ht].
  destruct (f_order f) as [ord|] eqn:Ho; [|exfalso; exact (ok_order _ _ _ _ Hf eq_refl Ho)].
  unfold order_following, ptr, trans_of, dimc. frame_facts. crunch.
  destruct (is_f_flag P); [|destruct (is_c_flag P)]; crunch; try exact I;
    destruct (cb_order_eqb ord _); crunch;
    first [apply ok_set_trans, ok_set_size, Hf | apply ok_set_size, Hf].
Qed.

(** The readable arguments of the backend call. *)
Lemma ready_array f a : shaped_frame op f -> In a (array_args op) -> bound (f_ptr f) (arg_name a).
Proof. intros Hs Hin. destruct (sf_ptr _ _ Hs _ Hin) as (P & HP & _). exists P. exact HP. Qed.

Lemma ready_inc f n c p l o :
  shaped_frame op f -> py_last n = Some l -> In (vector l o) (array_args op) ->
  callarg_ready f (inc n c p).
Proof.
  intros Hs Hl Hin.
  destruct (shaped_vec _ _ _ (sf_ptr _ _ Hs _ Hin)) as (P & d0 & s0 & (HP & _) & Hst).
  exists l, P, s0. auto.
Qed.

End Updates.

(** Membership in the concrete argument lists of the table. *)
Ltac in_tac := simpl; eauto 20.

Ltac incl_tac := let k := fresh in let Hk := fresh in intros k Hk; simpl in *; tauto.

(** Every argument of the backend call of an operation is readable in
    a frame whose sizes and order are set. *)
Ltac ready_tac :=
  let f := fresh "f" in let Hf := fresh "Hf" in let a := fresh "a" in
  let Ha := fresh "Ha" in let Ha' := fresh "Ha" in let Hs := fresh "Hs" in
  intros f Hf a Ha; pose proof (ok_shaped _ _ _ _ Hf) as Hs;
  pose proof Ha as Ha'; simpl in Ha'; repeat destruct Ha' as [<-|Ha']; try contradiction;
  lazymatch goal with
  | |- callarg_ready _ (trans _ _ _) => exact (sf_params _ _ Hs _ Ha)
  | |- callarg_ready _ (scalar _ _ _) => exact (sf_params _ _ Hs _ Ha)
  | |- callarg_ready _ (size _ _ _) => apply (ok_sizes _ _ _ _ Hf); vm_compute; tauto
  | |- callarg_ready _ (inc _ _ _) => eapply ready_inc; [exact Hs | reflexivity | in_tac]
  | |- callarg_ready _ ?x => exact (ready_array _ _ x Hs ltac:(in_tac))
  end.

(** ** The three operations *)

Section Instances.
Context {RT : BlasRuntime}.

Lemma gemv_dims_safe f :
  shaped_frame gemv_op f -> csafe (ok_frame gemv_op ["m"; "n"] false) (check_dims gemv_op f).
Proof.
  intros Hs.
  destruct (shaped_mat _ _ _ (sf_args _ _ Hs (matrix "A" false) ltac:(in_tac))) as (A & a0 & a1 & HA).
  destruct (shaped_vec _ _ _ (sf_args _ _ Hs (vector "X" false) ltac:(in_tac))) as (X & x0 & ? & HX & _).
  destruct (shaped_vec _ _ _ (sf_args _ _ Hs (vector "Y" true) ltac:(in_tac))) as (Y & y0 & ? & HY & _).
  destruct (sf_params _ _ Hs (trans "transA" false None) ltac:(in_tac)) as [ta Hta].
  pose proof (check_dims_gemv_eq f A X Y a0 a1 x0 y0 ta HA HX HY Hta) as E.
  destruct (op_shape ta a0 a1) as [m n]. change (check_dims gemv_op f) with (check_dims_gemv f).
  rewrite E. destruct (_ && _); simpl; [|exact I].
  eapply ok_incl; [|repeat apply ok_set_size; apply ok_of_shaped, Hs]. incl_tac.
Qed.

Lemma gemm_dims_safe f :
  shaped_frame gemm_op f -> csafe (ok_frame gemm_op ["m"; "k"; "n"] false) (check_dims gemm_op f).
Proof.
  intros Hs.
  destruct (shaped_mat _ _ _ (sf_args _ _ Hs (matrix "A" false) ltac:(in_tac))) as (A & a0 & a1 & HA).
  destruct (shaped_mat _ _ _ (sf_args _ _ Hs (matrix "B" false) ltac:(in_tac))) as (B & b0 & b1 & HB).
  destruct (shaped_mat _ _ _ (sf_args _ _ Hs (matrix "C" true) ltac:(in_tac))) as (C & c0 & c1 & HC).
  destruct (sf_params _ _ Hs (trans "transA" false None) ltac:(in_tac)) as [ta Hta].
  destruct (sf_params _ _ Hs (trans "transB" false None) ltac:(in_tac)) as [tb Htb].
  pose proof (check_dims_gemm_eq f A B C a0 a1 b0 b1 c0 c1 ta tb HA HB HC Hta Htb) as E.
  destruct (op_shape ta a0 a1) as [m k], (op_shape tb b0 b1) as [kb n].
  change (check_dims gemm_op f) with (check_dims_gemm f).
  rewrite E. destruct (_ && _); simpl; [|exact I].
  eapply ok_incl; [|repeat apply ok_set_size; apply ok_of_shaped, Hs]. incl_tac.
Qed.

Lemma ger_dims_safe f :
  shaped_frame ger_op f -> csafe (ok_frame ger_op ["m"; "n"] false) (check_dims ger_op f).
Proof.
  intros Hs.
  destruct (shaped_mat _ _ _ (sf_args _ _ Hs (matrix "A" true) ltac:(in_tac))) as (A & a0 & a1 & HA).
  destruct (shaped_vec _ _ _ (sf_args _ _ Hs (vector "X" false) ltac:(in_tac))) as (X & x0 & ? & HX & _).
  destruct (shaped_vec _ _ _ (sf_args _ _ Hs (vector "Y" false) ltac:(in_tac))) as (Y & y0 & ? & HY & _).
  change (check_dims ger_op f) with (check_dims_ger f).
  rewrite (check_dims_ger_eq f A X Y a0 a1 x0 y0 HA HX HY).
  destruct (_ && _); simpl; [|exact I].
  eapply ok_incl; [|repeat apply ok_set_size; apply ok_of_shaped, Hs]. incl_tac.
Qed.

(** [setup_order_gemv] and [setup_order_ger] are the order-defining
    block of [A]; [setup_order_gemm] that of [C] followed by the blocks
    of [A] and [B]. *)
Lemma gemv_setup_safe f :
  ok_frame gemv_op ["m"; "n"] false f ->
  csafe (ok_frame gemv_op (["m"; "n"] ++ ["lda"]) true) (setup_order gemv_op f).
Proof.
  intros Hf. change (setup_order gemv_op f) with (order_defining "A" "lda" f).
  eapply csafe_weaken; [apply (order_defining_ok _ _ _ _ "A" false "lda" Hf); in_tac|].
  intros f' Hf'. eapply ok_incl; [|exact Hf']. incl_tac.
Qed.

Lemma ger_setup_safe f :
  ok_frame ger_op ["m"; "n"] false f ->
  csafe (ok_frame ger_op (["m"; "n"] ++ ["lda"]) true) (setup_order ger_op f).
Proof.
  intros Hf. change (setup_order ger_op f) with (order_defining "A" "lda" f).
  eapply csafe_weaken; [apply (order_defining_ok _ _ _ _ "A" true "lda" Hf); in_tac|].
  intros f' Hf'. eapply ok_incl; [|exact Hf']. incl_tac.
Qed.

Lemma gemm_setup_safe f :
  ok_frame gemm_op ["m"; "k"; "n"] false f ->
  csafe (ok_frame gemm_op (["m"; "k"; "n"] ++ ["ldc"; "lda"; "ldb"]) true) (setup_order gemm_op f).
Proof.
  intros Hf. change (setup_order gemm_op f) with (setup_order_gemm f). unfold setup_order_gemm.
  eapply csafe_bind; [apply (order_defining_ok _ _ _ _ "C" true "ldc" Hf); in_tac|].
  intros f1 H1.
  eapply csafe_bind; [apply (order_following_ok _ _ _ "A" false "transA" false None "lda" H1); in_tac|].
  intros f2 H2.
  eapply csafe_weaken; [apply (order_following_ok _ _ _ "B" false "transB" false None "ldb" H2); in_tac|].
  intros f3 H3. eapply ok_incl; [|exact H3]. incl_tac.
Qed.

Lemma gemv_ready f :
  ok_frame gemv_op (["m"; "n"] ++ ["lda"]) true f ->
  forall a, In a (arguments gemv_op) -> callarg_ready f a.
Proof. revert f. ready_tac. Qed.

Lemma gemm_ready f :
  ok_frame gemm_op (["m"; "k"; "n"] ++ ["ldc"; "lda"; "ldb"]) true f ->
  forall a, In a (arguments gemm_op) -> callarg_ready f a.
Proof. revert f. ready_tac. Qed.

Lemma ger_ready f :
  ok_frame ger_op (["m"; "n"] ++ ["lda"]) true f ->
  forall a, In a (arguments ger_op) -> callarg_ready f a.
Proof. revert f. ready_tac. Qed.

Lemma gemv_first : array_args gemv_op <> [].
Proof. simpl. discriminate. Qed.

Lemma gemm_first : array_args gemm_op <> [].
Proof. simpl. discriminate. Qed.

Lemma ger_first : array_args ger_op <> [].
Proof. simpl. discriminate. Qed.

#[export] Instance gemv_safe : SafeOp gemv_op := {|
  dims_sizes := ["m"; "n"]; setup_sizes := ["lda"]; safe_first := gemv_first;
  dims_safe := gemv_dims_safe; setup_safe := gemv_setup_safe; args_ready := gemv_ready |}.

#[export] Instance gemm_safe : SafeOp gemm_op := {|
  dims_sizes := ["m"; "k"; "n"]; setup_sizes := ["ldc"; "lda"; "ldb"]; safe_first := gemm_first;
  dims_safe := gemm_dims_safe; setup_safe := gemm_setup_safe; args_ready := gemm_ready |}.

#[export] Instance ger_safe : SafeOp ger_op := {|
  dims_sizes := ["m"; "n"]; setup_sizes := ["lda"]; safe_first := ger_first;
  dims_safe := ger_dims_safe; setup_safe := ger_setup_safe; args_ready := ger_ready |}.

End Instances.

(** ** Binding the simplified parameters *)

(** A parameter value of the kind of its argument; an array must be
    well formed. *)
Definition param_ok (a : Argument) (v : cval) : bool :=
  match a, v with
  | trans _ _ _, VTrans _ | scalar _ _ _, VScal _ => true
  | matrix _ _, VArr A | vector _ _, VArr A => wf_array A
  | _, _ => false
  end.

Fixpoint params_ok (l : list Argument) (vs : list cval) : bool :=
  match l, vs with
  | [], [] => true
  | a :: l', v :: vs' => param_ok a v && params_ok l' vs'
  | _, _ => false
  end.

(** The frame holds the value [v] of the parameter [a]. *)
Definition binds (f : frame) (a : Argument) (v : cval) : Prop :=
  match a, v with
  | trans n _ _, VTrans t => alookup (f_trans f) n = Some t
  | scalar n _ _, VScal d => alookup (f_scal f) n = Some d
  | matrix n _, VArr A | vector n _, VArr A =>
      alookup (f_args f) n = Some A /\ alookup (f_ptr f) n = Some A
  | _, _ => False
  end.

Lemma bind_params_other l vs f f' k :
  bind_params l vs f = Some f' -> ~ In k (map arg_name l) ->
  alookup (f_args f') k = alookup (f_args f) k /\ alookup (f_ptr f') k = alookup (f_ptr f) k /\
  alookup (f_trans f') k = alookup (f_trans f) k /\ alookup (f_scal f') k = alookup (f_scal f) k.
Proof.
  revert vs f. induction l as [|a l IH]; intros [|v vs] f Hb Hk; simpl in Hb; try discriminate.
  - injection Hb as <-. auto.
  - simpl in Hk. apply Decidable.not_or in Hk as [Hak Hk].
    destruct a, v; try discriminate; destruct (IH _ _ Hb Hk) as (E1 & E2 & E3 & E4);
      rewrite E1, E2, E3, E4; unfold set_trans, bind_scal, bind_arr;
      cbn [f_args f_ptr f_trans f_scal]; rewrite ?alookup_aset_ne by exact Hak; auto.
Qed.

Lemma bind_params_binds l vs f :
  NoDup (map arg_name l) -> params_ok l vs = true ->
  exists f', bind_params l vs f = Some f' /\
    forall a, In a l -> exists v, binds f' a v /\ param_ok a v = true.
Proof.
  revert vs f. induction l as [|a l IH]; intros [|v vs] f Hnd Hok; simpl in Hok; try discriminate.
  - exists f. split; [reflexivity | intros a []].
  - apply andb_true_iff in Hok as [Hv Hok]. inversion Hnd as [|? ? Hna Hnd']; subst.
    destruct a as [n c p|n c p|n c p|n c p|n o|n o], v as [t|d|A]; try discriminate Hv; simpl;
      match goal with
      | |- exists f', bind_params l vs ?g = Some f' /\ _ =>
          destruct (IH vs g Hnd' Hok) as (f' & Hb & Hall)
      end;
      exists f'; (split; [exact Hb|]); (intros x [<-|Hx]; [|exact (Hall x Hx)]);
      destruct (bind_params_other _ _ _ _ n Hb Hna) as (E1 & E2 & E3 & E4);
      eexists; (split; [|exact Hv]); simpl; rewrite ?E1, ?E2, ?E3, ?E4;
      unfold set_trans, bind_scal, bind_arr; cbn [f_args f_ptr f_trans f_scal];
      rewrite ?alookup_aset_eq; auto.
Qed.

(** A frame that binds every simplified parameter to a value of its
    kind is an entry frame. *)
Lemma entry_of_binds op f :
  (forall a, In a (simple_args op) -> exists v, binds f a v /\ param_ok a v = true) ->
  entry_frame op f.
Proof.
  intros Hall. constructor.
  - intros a Ha. unfold array_args in Ha. apply filter_In in Ha as [Ha Hi].
    assert (Hs : In a (simple_args op)) by (apply filter_In; rewrite Hi; auto).
    destruct (Hall a Hs) as ([t|d|A] & Hb & Hok);
      destruct a; simpl in Hb, Hi; try contradiction; try discriminate;
      exists A; destruct Hb; auto.
  - intros a Ha. destruct a as [n c p|n c p|n c p|n c p|n o|n o]; try exact I;
      (match type of Ha with In ?x _ =>
         assert (Hs : In x (simple_args op)) by (apply filter_In; split; [exact Ha | reflexivity])
       end;
       destruct (Hall _ Hs) as ([t|d|A] & Hb & _); simpl in Hb; try contradiction;
       eexists; exact Hb).
Qed.

Lemma simple_names_nodup {RT : BlasRuntime} op :
  In op make_ops -> NoDup (map arg_name (simple_args op)).
Proof.
  intros [<-|[<-|[<-|[]]]]; vm_compute; repeat constructor; simpl; intuition discriminate.
Qed.

(** C3.  Totality of the generated function: for every operation of
    [make_ops], on simplified parameters of the kinds of its arguments
    whose arrays are well formed, [GpuArray_r<op>] returns a status,
    whatever the ranks, shapes, types, flags and strides of the arrays
    and whatever the runtime answers: no path of the body reads an
    unset local or an index past an array's rank, whether its
    fallback copies succeed or fail. *)
Theorem GpuArray_r_total {RT : BlasRuntime} op vs nocopy h :
  In op make_ops -> params_ok (simple_args op) vs = true ->
  exists e h', GpuArray_r op vs nocopy h = (Some e, h').
Proof.
  intros Hop Hok.
  destruct (bind_params_binds (simple_args op) vs (empty_frame nocopy)) as (f & Hb & Hall);
    [exact (simple_names_nodup op Hop) | exact Hok |].
  unfold GpuArray_r. rewrite Hb.
  destruct Hop as [<-|[<-|[<-|[]]]]; refine (run_total _ f h _); apply entry_of_binds, Hall.
Qed.

(** Totality at [gemm] on the arrays of the spec's example, on the
    runtime whose copies fail. *)
Lemma GpuArray_r_total_witness :
  In (@gemm_op rt_nomem) (@make_ops rt_nomem) /\
  exists e h', @GpuArray_r rt_nomem (@gemm_op rt_nomem)
    [VTrans cb_no_trans; VTrans cb_trans; VScal 1%float; VArr (ncmat 1 2 3);
     VArr (cmat 2 3 4); VScal 0%float; VArr (fmat 3 2 4)] false heap0 = (Some e, h').
Proof.
  split; [simpl; auto|].
  apply (GpuArray_r_total (RT := rt_nomem) (@gemm_op rt_nomem)); [simpl; auto | vm_compute; reflexivity].
Defined.
