(* ===== verification/Dispatch.v ===== *)
(** * What [GpuArray_r<op>] sends to the backend

    End-to-end behaviour of the pipeline of [Pipeline] for each
    operation of [make_ops]: on arguments that pass every check, the
    exact call made to the backend entry [s<op>]/[d<op>] (order,
    corrected flags, sizes, scalars, buffers and offsets, leading
    dimensions, increments) and the status returned.  Each proof binds
    the parameters, discharges the hypotheses of
    [PipelineSteps.run_dispatch] with the fragment specifications of
    [LayoutProps], and evaluates the argument list. *)

From Stdlib Require Import String List Bool ZArith Floats Lia.
From S2P Require Import Prelude Dtype Runtime Args BlasOp Layout Ops Pipeline Fixtures LayoutProps PipelineSteps.
Import ListNotations.
Open Scope string_scope.

(** Compute the names the templates synthesise ([lower()], [[-1]]). *)
Ltac py_names :=
  repeat match goal with
  | |- context [py_lower ?s] => let v := eval vm_compute in (py_lower s) in
                                change (py_lower s) with v
  | |- context [py_last ?s] => let v := eval vm_compute in (py_last s) in
                               change (py_last s) with v
  end.

(** Split [keeps_ptrs] into its field equations. *)
Ltac keeps_facts H :=
  let a := fresh "Eargs" in let p := fresh "Eptr" in let c := fresh "Ecop" in
  let n := fresh "Enoc" in let e := fresh "Eels" in let x := fresh "Ectx" in
  let s := fresh "Escal" in destruct H as (a & p & c & n & e & x & s).

(** The per-array facts [arrays_typed] and [arrays_contiguous] of a
    concrete frame, one array argument at a time. *)
Ltac array_facts :=
  let a := fresh "a" in let Ha := fresh "Ha" in
  intros a Ha; simpl in Ha; repeat destruct Ha as [<-|Ha]; try contradiction;
  eexists; (split; [reflexivity|]); simpl;
  first [ repeat split; assumption | eexists; split; eassumption ].

(** The argument list of the call, on a frame whose lookups are known. *)
Ltac eval_args :=
  simpl; unfold trans_of, ptr; simpl; py_names; simpl.

Section Dispatch.
Context {RT : BlasRuntime}.

(** The frames [GpuArray_r<op>] starts from: its parameters bound, its
    array pointers [Ap = A], nothing copied. *)
Definition gemm_frame ta tb alpha beta A B C nocopy : frame :=
  bind_arr "C" C (bind_scal "beta" beta (bind_arr "B" B (bind_arr "A" A
    (bind_scal "alpha" alpha (set_trans "transB" tb (set_trans "transA" ta
      (empty_frame nocopy))))))).

Definition gemv_frame ta alpha beta A X Y nocopy : frame :=
  bind_arr "Y" Y (bind_scal "beta" beta (bind_arr "X" X (bind_arr "A" A
    (bind_scal "alpha" alpha (set_trans "transA" ta (empty_frame nocopy)))))).

Definition ger_frame alpha X Y A nocopy : frame :=
  bind_arr "A" A (bind_arr "Y" Y (bind_arr "X" X (bind_scal "alpha" alpha (empty_frame nocopy)))).

Lemma gemm_bind ta tb alpha beta A B C nocopy h :
  GpuArray_r gemm_op [VTrans ta; VTrans tb; VScal alpha; VArr A; VArr B; VScal beta; VArr C]
    nocopy h = run gemm_op (gemm_frame ta tb alpha beta A B C nocopy) h.
Proof. reflexivity. Qed.

Lemma gemv_bind ta alpha beta A X Y nocopy h :
  GpuArray_r gemv_op [VTrans ta; VScal alpha; VArr A; VArr X; VScal beta; VArr Y] nocopy h
  = run gemv_op (gemv_frame ta alpha beta A X Y nocopy) h.
Proof. reflexivity. Qed.

Lemma ger_bind alpha X Y A nocopy h :
  GpuArray_r ger_op [VScal alpha; VArr X; VArr Y; VArr A] nocopy h
  = run ger_op (ger_frame alpha X Y A nocopy) h.
Proof. reflexivity. Qed.

(** The dimension fragments on agreeing shapes, as the calls bind them. *)
Lemma gemm_dims_pass f A B C a0 a1 b0 b1 c0 c1 k ta tb :
  mat_at (f_args f) "A" A a0 a1 -> mat_at (f_args f) "B" B b0 b1 ->
  mat_at (f_args f) "C" C c0 c1 ->
  alookup (f_trans f) "transA" = Some ta -> alookup (f_trans f) "transB" = Some tb ->
  op_shape ta a0 a1 = (c0, k) -> op_shape tb b0 b1 = (k, c1) ->
  check_dims gemm_op f = CNext (set_size "n" c1 (set_size "k" k (set_size "m" c0 f))).
Proof.
  intros HA HB HC Hta Htb Hsa Hsb.
  pose proof (check_dims_gemm_eq f A B C a0 a1 b0 b1 c0 c1 ta tb HA HB HC Hta Htb) as H.
  rewrite Hsa, Hsb in H. cbv beta iota in H. now rewrite !Z.eqb_refl in H.
Qed.

Lemma gemv_dims_pass f A X Y a0 a1 x0 y0 ta :
  mat_at (f_args f) "A" A a0 a1 -> vec_at (f_args f) "X" X x0 ->
  vec_at (f_args f) "Y" Y y0 -> alookup (f_trans f) "transA" = Some ta ->
  op_shape ta a0 a1 = (y0, x0) ->
  check_dims gemv_op f =
    CNext (set_size "n" a1 (set_size "m" a0 (set_size "n" x0 (set_size "m" y0 f)))).
Proof.
  intros HA HX HY Hta Hsa.
  pose proof (check_dims_gemv_eq f A X Y a0 a1 x0 y0 ta HA HX HY Hta) as H.
  rewrite Hsa in H. cbv beta iota in H. now rewrite !Z.eqb_refl in H.
Qed.

(** The call [GpuArray_rgemm] makes on valid arguments, as an equation
    that the end-to-end theorems rewrite with. *)
Lemma gemm_dispatch_eq ta tb alpha beta A B C a0 a1 b0 b1 c0 c1 k nocopy h ctx :
  typecode A = GA_FLOAT \/ typecode A = GA_DOUBLE ->
  typecode B = typecode A -> typecode C = typecode A ->
  nd A = 2%nat -> nd B = 2%nat -> nd C = 2%nat ->
  dimensions A = [a0; a1] -> dimensions B = [b0; b1] -> dimensions C = [c0; c1] ->
  is_aligned A = true -> is_aligned B = true -> is_aligned C = true ->
  GpuArray_ISONESEGMENT A = true -> GpuArray_ISONESEGMENT B = true ->
  GpuArray_ISONESEGMENT C = true ->
  op_shape ta a0 a1 = (c0, k) -> op_shape tb b0 b1 = (k, c1) ->
  rt_buffer_ctx (data A) = (GA_NO_ERROR, ctx) -> rt_ctx_blas ctx = GA_NO_ERROR ->
  rt_setup ctx = GA_NO_ERROR ->
  let o := native_order C in
  let dt := dtype_of_typecode (typecode A) in
  let es := gpuarray_get_elsize (typecode A) in
  let args :=
    [CA_order o; CA_trans (corrected_trans o A ta); CA_trans (corrected_trans o B tb);
     CA_size c0; CA_size c1; CA_size k; CA_scal (Dtypes.name dt) alpha;
     CA_buf (data A) (offset A / es); CA_size (native_ld A a0 a1);
     CA_buf (data B) (offset B / es); CA_size (native_ld B b0 b1);
     CA_scal (Dtypes.name dt) beta;
     CA_buf (data C) (offset C / es); CA_size (native_ld C c0 c1)] in
  let entry := Dtypes.c dt ++ "gemm" in
  GpuArray_r gemm_op [VTrans ta; VTrans tb; VScal alpha; VArr A; VArr B; VScal beta; VArr C]
    nocopy h
  = (Some (rt_call ctx entry args), with_call h (mkCall ctx entry args)).
Proof.
  intros Htc HtB HtC HnA HnB HnC HdA HdB HdC HaA HaB HaC SA SB SC Hsa Hsb Hctx Hbl Hsu.
  intros o dt es args entry.
  pose (f0 := gemm_frame ta tb alpha beta A B C nocopy).
  pose (f1 := set_size "n" c1 (set_size "k" k (set_size "m" c0 f0))).
  assert (Hd : check_dims gemm_op f0 = CNext f1)
    by (apply (gemm_dims_pass _ A B C a0 a1 b0 b1 c0 c1 k ta tb); try reflexivity; auto; repeat split; auto).
  destruct (setup_order_gemm_eq (with_elsize f1 es) A B C a0 a1 b0 b1 c0 c1 ta tb)
    as (f3 & Hs & Ho & Hldc & Hlda & Hldb & HtA & HtB' & Hsz & Hk);
    try (repeat split; assumption); try reflexivity; auto.
  rewrite gemm_bind.
  apply (run_dispatch gemm_op f0 h "A" A f1 f3 ctx o (tl args));
    try reflexivity; try assumption; try array_facts.
  - exact (check_dims_gemm_keeps _ _ Hd).
  - keeps_facts Hk. eval_args.
    rewrite HtA, HtB', Hlda, Hldb, Hldc, Eptr, Escal, Eels.
    rewrite !Hsz by discriminate. reflexivity.
Qed.

(** C7.  A [GpuArray_rgemm] call on three aligned,
    one-segment single- or double-precision matrices whose shapes agree
    ([op(A)] is [c0 x k], [op(B)] is [k x c1], [C] is [c0 x c1]), with a
    context whose backend table and setup are available, makes exactly
    one backend call, to [sgemm] or [dgemm], in [C]'s storage order, with
    the flags of [A] and [B] corrected for that order, [M], [N], [K] the
    product's shape, each leading dimension from its own matrix, each
    buffer with its offset in elements; it returns that call's status
    and allocates nothing. *)
Theorem GpuArray_rgemm_dispatch ta tb alpha beta A B C a0 a1 b0 b1 c0 c1 k nocopy h ctx :
  typecode A = GA_FLOAT \/ typecode A = GA_DOUBLE ->
  typecode B = typecode A -> typecode C = typecode A ->
  nd A = 2%nat -> nd B = 2%nat -> nd C = 2%nat ->
  dimensions A = [a0; a1] -> dimensions B = [b0; b1] -> dimensions C = [c0; c1] ->
  is_aligned A = true -> is_aligned B = true -> is_aligned C = true ->
  GpuArray_ISONESEGMENT A = true -> GpuArray_ISONESEGMENT B = true ->
  GpuArray_ISONESEGMENT C = true ->
  op_shape ta a0 a1 = (c0, k) -> op_shape tb b0 b1 = (k, c1) ->
  rt_buffer_ctx (data A) = (GA_NO_ERROR, ctx) -> rt_ctx_blas ctx = GA_NO_ERROR ->
  rt_setup ctx = GA_NO_ERROR ->
  let o := native_order C in
  let dt := dtype_of_typecode (typecode A) in
  let es := gpuarray_get_elsize (typecode A) in
  let args :=
    [CA_order o; CA_trans (corrected_trans o A ta); CA_trans (corrected_trans o B tb);
     CA_size c0; CA_size c1; CA_size k; CA_scal (Dtypes.name dt) alpha;
     CA_buf (data A) (offset A / es); CA_size (native_ld A a0 a1);
     CA_buf (data B) (offset B / es); CA_size (native_ld B b0 b1);
     CA_scal (Dtypes.name dt) beta;
     CA_buf (data C) (offset C / es); CA_size (native_ld C c0 c1)] in
  let entry := Dtypes.c dt ++ "gemm" in
  GpuArray_r gemm_op [VTrans ta; VTrans tb; VScal alpha; VArr A; VArr B; VScal beta; VArr C]
    nocopy h
  = (Some (rt_call ctx entry args), with_call h (mkCall ctx entry args)).
Proof. apply gemm_dispatch_eq. Qed.

(** C8.  A [GpuArray_rgemv] call on an aligned one-segment
    matrix [A] ([a0 x a1]) and aligned, not negatively strided vectors
    [X], [Y] whose lengths are the columns and rows of [op(A)] makes one
    backend call, to [sgemv] or [dgemv], in [A]'s own storage order,
    with the caller's flag unchanged, [M] and [N] the dimensions of [A]
    itself, [A]'s native leading dimension, and each increment the
    vector's byte stride divided by the element size (as a [size_t],
    truncated to [int]). *)
Theorem GpuArray_rgemv_dispatch ta alpha beta A X Y a0 a1 x0 y0 sx sy nocopy h ctx :
  typecode A = GA_FLOAT \/ typecode A = GA_DOUBLE ->
  typecode X = typecode A -> typecode Y = typecode A ->
  nd A = 2%nat -> nd X = 1%nat -> nd Y = 1%nat ->
  dimensions A = [a0; a1] -> dimensions X = [x0] -> dimensions Y = [y0] ->
  is_aligned A = true -> is_aligned X = true -> is_aligned Y = true ->
  GpuArray_ISONESEGMENT A = true ->
  stride X 0 = Some sx -> stride Y 0 = Some sy -> (0 <= sx)%Z -> (0 <= sy)%Z ->
  op_shape ta a0 a1 = (y0, x0) ->
  rt_buffer_ctx (data A) = (GA_NO_ERROR, ctx) -> rt_ctx_blas ctx = GA_NO_ERROR ->
  rt_setup ctx = GA_NO_ERROR ->
  let o := native_order A in
  let dt := dtype_of_typecode (typecode A) in
  let es := gpuarray_get_elsize (typecode A) in
  let inc s := CA_int (int_of_size_t (size_t_of_ssize s / es)) in
  let args :=
    [CA_order o; CA_trans ta; CA_size a0; CA_size a1; CA_scal (Dtypes.name dt) alpha;
     CA_buf (data A) (offset A / es); CA_size (native_ld A a0 a1);
     CA_buf (data X) (offset X / es); inc sx; CA_scal (Dtypes.name dt) beta;
     CA_buf (data Y) (offset Y / es); inc sy] in
  let entry := Dtypes.c dt ++ "gemv" in
  GpuArray_r gemv_op [VTrans ta; VScal alpha; VArr A; VArr X; VScal beta; VArr Y] nocopy h
  = (Some (rt_call ctx entry args), with_call h (mkCall ctx entry args)).
Proof.
  intros Htc HtX HtY HnA HnX HnY HdA HdX HdY HaA HaX HaY SA Hsx Hsy Px Py Hsa Hctx Hbl Hsu.
  intros o dt es inc args entry.
  pose (f0 := gemv_frame ta alpha beta A X Y nocopy).
  pose (f1 := set_size "n" a1 (set_size "m" a0 (set_size "n" x0 (set_size "m" y0 f0)))).
  assert (Hd : check_dims gemv_op f0 = CNext f1)
    by (apply (gemv_dims_pass _ A X Y a0 a1 x0 y0 ta); try reflexivity; auto; repeat split; auto).
  pose (f2 := with_elsize f1 es).
  pose (f3 := set_size "lda" (native_ld A a0 a1) (set_order (native_order A) f2)).
  assert (Hs : setup_order gemv_op f2 = CNext f3)
    by (apply order_defining_spec; [repeat split; assumption | exact SA]).
  rewrite gemv_bind.
  apply (run_dispatch gemv_op f0 h "A" A f1 f3 ctx o (tl args));
    try reflexivity; try assumption; try array_facts.
  - exact (check_dims_gemv_keeps _ _ Hd).
  - exact (order_defining_keeps _ _ _ _ Hs).
  - eval_args. rewrite Hsx, Hsy. reflexivity.
Qed.

(** C9.  A [GpuArray_rger] call on aligned, not negatively
    strided vectors [X] ([m] elements) and [Y] ([n] elements) and an
    aligned one-segment [m x n] matrix [A] makes one backend call, to
    [sger] or [dger] by [X]'s type (the first array argument), in [A]'s
    storage order, with [M = m], [N = n], the increments of [X] and [Y]
    and [A]'s native leading dimension. *)
Theorem GpuArray_rger_dispatch alpha X Y A m n sx sy nocopy h ctx :
  typecode X = GA_FLOAT \/ typecode X = GA_DOUBLE ->
  typecode Y = typecode X -> typecode A = typecode X ->
  nd X = 1%nat -> nd Y = 1%nat -> nd A = 2%nat ->
  dimensions X = [m] -> dimensions Y = [n] -> dimensions A = [m; n] ->
  is_aligned X = true -> is_aligned Y = true -> is_aligned A = true ->
  GpuArray_ISONESEGMENT A = true ->
  stride X 0 = Some sx -> stride Y 0 = Some sy -> (0 <= sx)%Z -> (0 <= sy)%Z ->
  rt_buffer_ctx (data X) = (GA_NO_ERROR, ctx) -> rt_ctx_blas ctx = GA_NO_ERROR ->
  rt_setup ctx = GA_NO_ERROR ->
  let o := native_order A in
  let dt := dtype_of_typecode (typecode X) in
  let es := gpuarray_get_elsize (typecode X) in
  let inc s := CA_int (int_of_size_t (size_t_of_ssize s / es)) in
  let args :=
    [CA_order o; CA_size m; CA_size n; CA_scal (Dtypes.name dt) alpha;
     CA_buf (data X) (offset X / es); inc sx; CA_buf (data Y) (offset Y / es); inc sy;
     CA_buf (data A) (offset A / es); CA_size (native_ld A m n)] in
  let entry := Dtypes.c dt ++ "ger" in
  GpuArray_r ger_op [VScal alpha; VArr X; VArr Y; VArr A] nocopy h
  = (Some (rt_call ctx entry args), with_call h (mkCall ctx entry args)).
Proof.
  intros Htc HtY HtA HnX HnY HnA HdX HdY HdA HaX HaY HaA SA Hsx Hsy Px Py Hctx Hbl Hsu.
  intros o dt es inc args entry.
  pose (f0 := ger_frame alpha X Y A nocopy).
  pose (f1 := set_size "n" n (set_size "m" m f0)).
  assert (Hd : check_dims ger_op f0 = CNext f1).
  { pose proof (check_dims_ger_eq f0 A X Y m n m n) as H.
    rewrite !Z.eqb_refl in H. apply H; repeat split; assumption. }
  pose (f2 := with_elsize f1 es).
  pose (f3 := set_size "lda" (native_ld A m n) (set_order (native_order A) f2)).
  assert (Hs : setup_order ger_op f2 = CNext f3)
    by (apply order_defining_spec; [repeat split; assumption | exact SA]).
  rewrite ger_bind.
  apply (run_dispatch ger_op f0 h "X" X f1 f3 ctx o (tl args));
    try reflexivity; try assumption; try array_facts.
  - exact (check_dims_ger_keeps _ _ Hd).
  - exact (order_defining_keeps _ _ _ _ Hs).
  - eval_args. rewrite Hsx, Hsy. reflexivity.
Qed.

End Dispatch.

(** The [gemm] theorem at the spec's example: [C = A B] with [A] a
    C-ordered [2 x 3] and [B] a C-ordered [3 x 4] float matrix. *)
Lemma GpuArray_rgemm_dispatch_witness :
  @GpuArray_r rt_ok (@gemm_op rt_ok)
    [VTrans cb_no_trans; VTrans cb_no_trans; VScal 1%float; VArr (cmat 1 2 3);
     VArr (cmat 2 3 4); VScal 0%float; VArr (cmat 3 2 4)] false heap0
  = (Some GA_NO_ERROR,
     with_call heap0 (mkCall 7 "sgemm"
       [CA_order cb_c; CA_trans cb_no_trans; CA_trans cb_no_trans; CA_size 2; CA_size 4;
        CA_size 3; CA_scal "float" 1%float; CA_buf 1 0; CA_size 3; CA_buf 2 0; CA_size 4;
        CA_scal "float" 0%float; CA_buf 3 0; CA_size 4])).
Proof.
  apply (GpuArray_rgemm_dispatch (RT := rt_ok) cb_no_trans cb_no_trans 1%float 0%float
           (cmat 1 2 3) (cmat 2 3 4) (cmat 3 2 4) 2 3 3 4 2 4 3 false heap0 7);
    solve [reflexivity | left; reflexivity].
Defined.

(** The [gemv] theorem on a Fortran-ordered [3 x 2] matrix, transposed,
    with contiguous vectors: the call is column-major with [lda = 3]. *)
Lemma GpuArray_rgemv_dispatch_witness :
  @GpuArray_r rt_ok (@gemv_op rt_ok)
    [VTrans cb_trans; VScal 1%float; VArr (fmat 1 3 2); VArr (fvec 2 3 4);
     VScal 0%float; VArr (fvec 3 2 4)] false heap0
  = (Some GA_NO_ERROR,
     with_call heap0 (mkCall 7 "sgemv"
       [CA_order cb_fortran; CA_trans cb_trans; CA_size 3; CA_size 2;
        CA_scal "float" 1%float; CA_buf 1 0; CA_size 3; CA_buf 2 0; CA_int 1;
        CA_scal "float" 0%float; CA_buf 3 0; CA_int 1])).
Proof.
  apply (GpuArray_rgemv_dispatch (RT := rt_ok) cb_trans 1%float 0%float
           (fmat 1 3 2) (fvec 2 3 4) (fvec 3 2 4) 3 2 3 2 4 4 false heap0 7);
    solve [reflexivity | left; reflexivity | lia].
Defined.

(** The [ger] theorem on vectors of 5 and 7 elements and a C-ordered
    [5 x 7] matrix. *)
Lemma GpuArray_rger_dispatch_witness :
  @GpuArray_r rt_ok (@ger_op rt_ok)
    [VScal 1%float; VArr (fvec 1 5 4); VArr (fvec 2 7 8); VArr (cmat 3 5 7)] false heap0
  = (Some GA_NO_ERROR,
     with_call heap0 (mkCall 7 "sger"
       [CA_order cb_c; CA_size 5; CA_size 7; CA_scal "float" 1%float; CA_buf 1 0; CA_int 1;
        CA_buf 2 0; CA_int 2; CA_buf 3 0; CA_size 7])).
Proof.
  apply (GpuArray_rger_dispatch (RT := rt_ok) 1%float (fvec 1 5 4) (fvec 2 7 8) (cmat 3 5 7)
           5 7 4 8 false heap0 7);
    solve [reflexivity | left; reflexivity | lia].
Defined.
