(* ===== verification/ErrorPaths.v ===== *)
(** * The error exits of [GpuArray_r<op>]

    What the generated C function returns when a check fails, and that a
    failed check changes nothing: no buffer allocated, no backend call
    (the heap is returned unchanged).  The theorems are stated on
    [GpuArray_rgemm] (and [GpuArray_rgemv] for a vector argument), from
    the generic run lemmas of [PipelineSteps]: an unsupported type, a
    type mismatch, an unaligned array, a dimension mismatch, an output
    that is not contiguous, an input that is not contiguous under
    [nocopy].  Together they show the order of the checks in the code:
    the dimension check comes before the contiguity fallback. *)

From Stdlib Require Import String List Bool ZArith Floats Lia.
From S2P Require Import Prelude Dtype Runtime Args BlasOp Layout Ops Pipeline Fixtures LayoutProps PipelineSteps Dispatch.
Import ListNotations.
Open Scope string_scope.

Section Errors.
Context {RT : BlasRuntime}.

(** C28.  If [A], the first array argument, is neither single
    nor double precision, [GpuArray_rgemm] returns [GA_INVALID_ERROR] and
    changes nothing, whatever the other arguments. *)
Theorem GpuArray_rgemm_invalid_type ta tb alpha beta A B C nocopy h :
  typecode A <> GA_FLOAT -> typecode A <> GA_DOUBLE ->
  GpuArray_r gemm_op [VTrans ta; VTrans tb; VScal alpha; VArr A; VArr B; VScal beta; VArr C]
    nocopy h = (Some GA_INVALID_ERROR, h).
Proof.
  intros H1 H2. rewrite gemm_bind.
  exact (run_invalid_type gemm_op (gemm_frame ta tb alpha beta A B C nocopy) h "A" A
           eq_refl eq_refl H1 H2).
Qed.

(** C27.  Matrices of the right rank whose types differ
    ([B] is not of [A]'s type): [GA_VALUE_ERROR], the code the rank
    check also returns, and nothing changed. *)
Theorem GpuArray_rgemm_type_mismatch ta tb alpha beta A B C nocopy h :
  typecode A = GA_FLOAT \/ typecode A = GA_DOUBLE ->
  nd A = 2%nat -> nd B = 2%nat -> nd C = 2%nat -> typecode B <> typecode A ->
  GpuArray_r gemm_op [VTrans ta; VTrans tb; VScal alpha; VArr A; VArr B; VScal beta; VArr C]
    nocopy h = (Some GA_VALUE_ERROR, h).
Proof.
  intros Htc HnA HnB HnC Hty. rewrite gemm_bind.
  apply (run_type_mismatch gemm_op (gemm_frame ta tb alpha beta A B C nocopy) h "A" A (matrix "B" false) B);
    try reflexivity; try assumption; try (simpl; tauto).
  intros a Ha; simpl in Ha; repeat destruct Ha as [<-|Ha]; try contradiction;
    eexists; (split; [reflexivity|assumption]).
Qed.

(** C29.  Matrices of the right rank and type, [C]
    unaligned: [GA_UNALIGNED_ERROR], nothing changed. *)
Theorem GpuArray_rgemm_unaligned ta tb alpha beta A B C nocopy h :
  typecode A = GA_FLOAT \/ typecode A = GA_DOUBLE ->
  typecode B = typecode A -> typecode C = typecode A ->
  nd A = 2%nat -> nd B = 2%nat -> nd C = 2%nat -> is_aligned C = false ->
  GpuArray_r gemm_op [VTrans ta; VTrans tb; VScal alpha; VArr A; VArr B; VScal beta; VArr C]
    nocopy h = (Some GA_UNALIGNED_ERROR, h).
Proof.
  intros Htc HtB HtC HnA HnB HnC Hal. rewrite gemm_bind.
  apply (run_unaligned gemm_op (gemm_frame ta tb alpha beta A B C nocopy) h "A" A (matrix "C" true) C);
    try reflexivity; try assumption; try (simpl; tauto).
  intros a Ha; simpl in Ha; repeat destruct Ha as [<-|Ha]; try contradiction;
    eexists; (split; [reflexivity|split; [assumption|first [reflexivity|assumption]]]).
Qed.

(** C23.  Aligned matrices of the right rank and type whose
    shapes disagree ([op(A)] is [m x k], [op(B)] is [kb x n], and [kb <> k]
    or [C] is not [m x n]): [GA_VALUE_ERROR], nothing changed, whatever the
    contiguity of the matrices and [nocopy].  The dimension check comes
    before the contiguity fallback: a non-contiguous input under [nocopy]
    with a dimension mismatch is a dimension error, not a copy error. *)
Theorem GpuArray_rgemm_dims_error ta tb alpha beta A B C a0 a1 b0 b1 c0 c1 m k kb n nocopy h :
  typecode A = GA_FLOAT \/ typecode A = GA_DOUBLE ->
  typecode B = typecode A -> typecode C = typecode A ->
  nd A = 2%nat -> nd B = 2%nat -> nd C = 2%nat ->
  dimensions A = [a0; a1] -> dimensions B = [b0; b1] -> dimensions C = [c0; c1] ->
  is_aligned A = true -> is_aligned B = true -> is_aligned C = true ->
  op_shape ta a0 a1 = (m, k) -> op_shape tb b0 b1 = (kb, n) ->
  kb <> k \/ c0 <> m \/ c1 <> n ->
  GpuArray_r gemm_op [VTrans ta; VTrans tb; VScal alpha; VArr A; VArr B; VScal beta; VArr C]
    nocopy h = (Some GA_VALUE_ERROR, h).
Proof.
  intros Htc HtB HtC HnA HnB HnC HdA HdB HdC HaA HaB HaC Hsa Hsb Hne. rewrite gemm_bind.
  apply (run_dims_return gemm_op (gemm_frame ta tb alpha beta A B C nocopy) h "A" A); try reflexivity; try assumption; try array_facts.
  pose proof (check_dims_gemm_eq (gemm_frame ta tb alpha beta A B C nocopy)
                A B C a0 a1 b0 b1 c0 c1 ta tb) as H.
  rewrite Hsa, Hsb in H. cbv beta iota in H. change (check_dims gemm_op) with check_dims_gemm.
  rewrite H by (try reflexivity; repeat split; assumption).
  destruct (Z.eqb_spec kb k), (Z.eqb_spec c0 m), (Z.eqb_spec c1 n); simpl;
    try reflexivity; lia.
Qed.

(** C24.  Shapes that agree and an input [A] that is not one
    segment, with copying disabled: [GA_COPY_ERROR]; no buffer is
    allocated and no backend call made (the heap is unchanged). *)
Theorem GpuArray_rgemm_nocopy_error ta tb alpha beta A B C a0 a1 b0 b1 c0 c1 k h :
  typecode A = GA_FLOAT \/ typecode A = GA_DOUBLE ->
  typecode B = typecode A -> typecode C = typecode A ->
  nd A = 2%nat -> nd B = 2%nat -> nd C = 2%nat ->
  dimensions A = [a0; a1] -> dimensions B = [b0; b1] -> dimensions C = [c0; c1] ->
  is_aligned A = true -> is_aligned B = true -> is_aligned C = true ->
  GpuArray_ISONESEGMENT A = false ->
  op_shape ta a0 a1 = (c0, k) -> op_shape tb b0 b1 = (k, c1) ->
  GpuArray_r gemm_op [VTrans ta; VTrans tb; VScal alpha; VArr A; VArr B; VScal beta; VArr C]
    true h = (Some GA_COPY_ERROR, h).
Proof.
  intros Htc HtB HtC HnA HnB HnC HdA HdB HdC HaA HaB HaC SA Hsa Hsb. rewrite gemm_bind.
  pose (f0 := gemm_frame ta tb alpha beta A B C true).
  pose (f1 := set_size "n" c1 (set_size "k" k (set_size "m" c0 f0))).
  assert (Hd : check_dims gemm_op f0 = CNext f1)
    by (apply (gemm_dims_pass _ A B C a0 a1 b0 b1 c0 c1 k ta tb); try reflexivity; auto;
        repeat split; auto).
  apply (run_defect gemm_op f0 h "A" A f1 [] (matrix "A" false) [matrix "B" false; matrix "C" true]
           eq_refl eq_refl eq_refl Htc);
    try reflexivity; try exact Hd; try array_facts.
  - exact (check_dims_gemm_keeps _ _ Hd).
  - eexists; split; [reflexivity|assumption].
  - now right.
Qed.

(** C25.  Shapes that agree, inputs in one segment and an
    output [C] that is not: [GA_VALUE_ERROR] whether or not copying is
    allowed (outputs are never copied), nothing changed. *)
Theorem GpuArray_rgemm_output_error ta tb alpha beta A B C a0 a1 b0 b1 c0 c1 k nocopy h :
  typecode A = GA_FLOAT \/ typecode A = GA_DOUBLE ->
  typecode B = typecode A -> typecode C = typecode A ->
  nd A = 2%nat -> nd B = 2%nat -> nd C = 2%nat ->
  dimensions A = [a0; a1] -> dimensions B = [b0; b1] -> dimensions C = [c0; c1] ->
  is_aligned A = true -> is_aligned B = true -> is_aligned C = true ->
  GpuArray_ISONESEGMENT A = true -> GpuArray_ISONESEGMENT B = true ->
  GpuArray_ISONESEGMENT C = false ->
  op_shape ta a0 a1 = (c0, k) -> op_shape tb b0 b1 = (k, c1) ->
  GpuArray_r gemm_op [VTrans ta; VTrans tb; VScal alpha; VArr A; VArr B; VScal beta; VArr C]
    nocopy h = (Some GA_VALUE_ERROR, h).
Proof.
  intros Htc HtB HtC HnA HnB HnC HdA HdB HdC HaA HaB HaC SA SB SC Hsa Hsb. rewrite gemm_bind.
  pose (f0 := gemm_frame ta tb alpha beta A B C nocopy).
  pose (f1 := set_size "n" c1 (set_size "k" k (set_size "m" c0 f0))).
  assert (Hd : check_dims gemm_op f0 = CNext f1)
    by (apply (gemm_dims_pass _ A B C a0 a1 b0 b1 c0 c1 k ta tb); try reflexivity; auto;
        repeat split; auto).
  apply (run_defect gemm_op f0 h "A" A f1 [matrix "A" false; matrix "B" false] (matrix "C" true) []
           eq_refl eq_refl eq_refl Htc);
    try reflexivity; try exact Hd; try array_facts.
  - exact (check_dims_gemm_keeps _ _ Hd).
  - eexists; split; [reflexivity|assumption].
  - now left.
Qed.

(** C26.  [GpuArray_rgemv] with [A] in one segment and a
    negatively strided input vector [X], copying disabled:
    [GA_COPY_ERROR], nothing changed. *)
Theorem GpuArray_rgemv_nocopy_error ta alpha beta A X Y a0 a1 x0 y0 sx h :
  typecode A = GA_FLOAT \/ typecode A = GA_DOUBLE ->
  typecode X = typecode A -> typecode Y = typecode A ->
  nd A = 2%nat -> nd X = 1%nat -> nd Y = 1%nat ->
  dimensions A = [a0; a1] -> dimensions X = [x0] -> dimensions Y = [y0] ->
  is_aligned A = true -> is_aligned X = true -> is_aligned Y = true ->
  GpuArray_ISONESEGMENT A = true -> stride X 0 = Some sx -> (sx < 0)%Z ->
  op_shape ta a0 a1 = (y0, x0) ->
  GpuArray_r gemv_op [VTrans ta; VScal alpha; VArr A; VArr X; VScal beta; VArr Y] true h
  = (Some GA_COPY_ERROR, h).
Proof.
  intros Htc HtX HtY HnA HnX HnY HdA HdX HdY HaA HaX HaY SA Hsx Px Hsa. rewrite gemv_bind.
  pose (f0 := gemv_frame ta alpha beta A X Y true).
  pose (f1 := set_size "n" a1 (set_size "m" a0 (set_size "n" x0 (set_size "m" y0 f0)))).
  assert (Hd : check_dims gemv_op f0 = CNext f1)
    by (apply (gemv_dims_pass _ A X Y a0 a1 x0 y0 ta); try reflexivity; auto; repeat split; auto).
  apply (run_defect gemv_op f0 h "A" A f1 [matrix "A" false] (vector "X" false) [vector "Y" true]
           eq_refl eq_refl eq_refl Htc);
    try reflexivity; try exact Hd; try array_facts.
  - exact (check_dims_gemv_keeps _ _ Hd).
  - eexists; split; [reflexivity|]. simpl. eauto.
  - now right.
Qed.

End Errors.

(** The unsupported-type theorem on an [int] matrix [A]. *)
Lemma GpuArray_rgemm_invalid_type_witness :
  @GpuArray_r rt_ok (@gemm_op rt_ok)
    [VTrans cb_no_trans; VTrans cb_no_trans; VScal 1%float; VArr (imat 1 2 3);
     VArr (cmat 2 3 4); VScal 0%float; VArr (cmat 3 2 4)] false heap0
  = (Some GA_INVALID_ERROR, heap0).
Proof.
  apply (GpuArray_rgemm_invalid_type (RT := rt_ok) cb_no_trans cb_no_trans 1%float 0%float
           (imat 1 2 3) (cmat 2 3 4) (cmat 3 2 4) false heap0); vm_compute; lia.
Defined.

(** The mismatch theorem on a float [A] and a double [B]. *)
Lemma GpuArray_rgemm_type_mismatch_witness :
  @GpuArray_r rt_ok (@gemm_op rt_ok)
    [VTrans cb_no_trans; VTrans cb_no_trans; VScal 1%float; VArr (cmat 1 2 3);
     VArr (dmat 2 3 4); VScal 0%float; VArr (cmat 3 2 4)] false heap0
  = (Some GA_VALUE_ERROR, heap0).
Proof.
  apply (GpuArray_rgemm_type_mismatch (RT := rt_ok) cb_no_trans cb_no_trans 1%float 0%float
           (cmat 1 2 3) (dmat 2 3 4) (cmat 3 2 4) false heap0);
    solve [reflexivity | left; reflexivity | vm_compute; lia].
Defined.

(** The alignment theorem on an unaligned output [C]. *)
Lemma GpuArray_rgemm_unaligned_witness :
  @GpuArray_r rt_ok (@gemm_op rt_ok)
    [VTrans cb_no_trans; VTrans cb_no_trans; VScal 1%float; VArr (cmat 1 2 3);
     VArr (cmat 2 3 4); VScal 0%float; VArr (umat 3 2 4)] false heap0
  = (Some GA_UNALIGNED_ERROR, heap0).
Proof.
  apply (GpuArray_rgemm_unaligned (RT := rt_ok) cb_no_trans cb_no_trans 1%float 0%float
           (cmat 1 2 3) (cmat 2 3 4) (umat 3 2 4) false heap0);
    solve [reflexivity | left; reflexivity].
Defined.

(** The dimension theorem at the spec's example: [A] is [2 x 3], [B]
    is [3 x 4] and [C] is [2 x 5]; [A] is not one segment and copying is
    disabled, and the error is still the dimension error. *)
Lemma GpuArray_rgemm_dims_error_witness :
  @GpuArray_r rt_ok (@gemm_op rt_ok)
    [VTrans cb_no_trans; VTrans cb_no_trans; VScal 1%float; VArr (ncmat 1 2 3);
     VArr (cmat 2 3 4); VScal 0%float; VArr (cmat 3 2 5)] true heap0
  = (Some GA_VALUE_ERROR, heap0).
Proof.
  apply (GpuArray_rgemm_dims_error (RT := rt_ok) cb_no_trans cb_no_trans 1%float 0%float
           (ncmat 1 2 3) (cmat 2 3 4) (cmat 3 2 5) 2 3 3 4 2 5 2 3 3 4 true heap0);
    solve [reflexivity | left; reflexivity | right; right; lia].
Defined.

(** The copy-error theorem on a non-contiguous [A] with agreeing shapes. *)
Lemma GpuArray_rgemm_nocopy_error_witness :
  @GpuArray_r rt_ok (@gemm_op rt_ok)
    [VTrans cb_no_trans; VTrans cb_no_trans; VScal 1%float; VArr (ncmat 1 2 3);
     VArr (cmat 2 3 4); VScal 0%float; VArr (cmat 3 2 4)] true heap0
  = (Some GA_COPY_ERROR, heap0).
Proof.
  apply (GpuArray_rgemm_nocopy_error (RT := rt_ok) cb_no_trans cb_no_trans 1%float 0%float
           (ncmat 1 2 3) (cmat 2 3 4) (cmat 3 2 4) 2 3 3 4 2 4 3 heap0);
    solve [reflexivity | left; reflexivity].
Defined.

(** The output theorem on a non-contiguous [C], copying allowed. *)
Lemma GpuArray_rgemm_output_error_witness :
  @GpuArray_r rt_ok (@gemm_op rt_ok)
    [VTrans cb_no_trans; VTrans cb_no_trans; VScal 1%float; VArr (cmat 1 2 3);
     VArr (cmat 2 3 4); VScal 0%float; VArr (ncmat 3 2 4)] false heap0
  = (Some GA_VALUE_ERROR, heap0).
Proof.
  apply (GpuArray_rgemm_output_error (RT := rt_ok) cb_no_trans cb_no_trans 1%float 0%float
           (cmat 1 2 3) (cmat 2 3 4) (ncmat 3 2 4) 2 3 3 4 2 4 3 false heap0);
    solve [reflexivity | left; reflexivity].
Defined.

(** The vector theorem on a [3 x 2] matrix and a reversed [X]. *)
Lemma GpuArray_rgemv_nocopy_error_witness :
  @GpuArray_r rt_ok (@gemv_op rt_ok)
    [VTrans cb_no_trans; VScal 1%float; VArr (cmat 1 3 2); VArr (fvec 2 2 (-4));
     VScal 0%float; VArr (fvec 3 3 4)] true heap0
  = (Some GA_COPY_ERROR, heap0).
Proof.
  apply (GpuArray_rgemv_nocopy_error (RT := rt_ok) cb_no_trans 1%float 0%float
           (cmat 1 3 2) (fvec 2 2 (-4)) (fvec 3 3 4) 3 2 2 3 (-4) heap0);
    solve [reflexivity | left; reflexivity | lia].
Defined.
