(* ===== verification/PyProps.v ===== *)
(** * The output inference of the Python binding

    What the [py_ensure_output_<op>] fragments of [Layout] do when the
    caller omits the output: the shape each infers (the spec's table of
    section 4.2), the [beta = 0] requirement of [gemv] and [gemm], the
    zero-filled allocation of [ger], and the unchecked rank of [ger]'s
    vectors.  A last group runs the whole binding [py_op] of
    [PyBinding] on the spec's examples. *)

From Stdlib Require Import String List Bool ZArith Floats Lia.
From S2P Require Import Prelude Dtype Runtime Args BlasOp Layout Ops Pipeline PyBinding Fixtures LayoutProps.
Import ListNotations.
Open Scope string_scope.

(** A Python argument bound to an array of the given shape. *)
Definition py_mat_at (p : pyframe) (nm : string) (A : GpuArray) (d0 d1 : Z) : Prop :=
  alookup (p_arrays p) nm = Some (Some A) /\ nd A = 2%nat /\ dimensions A = [d0; d1].

Definition py_vec_at (p : pyframe) (nm : string) (X : GpuArray) (d0 : Z) : Prop :=
  alookup (p_arrays p) nm = Some (Some X) /\ nd X = 1%nat /\ dimensions X = [d0].

(** The facts of the bound arguments, as rewrite equations. *)
Ltac py_facts :=
  repeat match goal with
  | H : py_mat_at _ _ _ _ _ |- _ => destruct H as (? & ? & ?)
  | H : py_vec_at _ _ _ _ |- _ => destruct H as (? & ? & ?)
  end.

(** Evaluate a fragment on symbolic arguments whose facts are known. *)
Ltac py_run :=
  unfold py_arr, py_is_none, py_scal, py_trans, py_opt, pygpu_alloc, dimc, dim in *;
  repeat (simpl; match goal with
                 | H : ?x = _ |- context [?x] => rewrite H
                 end); simpl.

(** The array a fresh allocation holds: the inferred shape, the type of
    the array it was inferred from, the next buffer of the heap. *)
Definition fresh_array (A : GpuArray) (shape : list Z) (tc : Z) (h : heap) : Prop :=
  A = alloc_array shape tc (next h).

Section Inference.
Context {RT : BlasRuntime}.

(** C33.  [gemv] called without [Y] and with [beta = 0] (a float
    equal to zero, [-0.0] included): [Y] becomes a fresh array of the
    type of [A] with as many elements as [op(A)] has rows, and is marked
    to be overwritten rather than copied. *)
Theorem py_gemv_infer_Y p h A a0 a1 ta beta :
  py_mat_at p "A" A a0 a1 -> alookup (p_trans p) "transA" = Some ta ->
  alookup (p_arrays p) "Y" = Some None -> alookup (p_scal p) "beta" = Some beta ->
  PrimFloat.eqb beta 0%float = true ->
  let m := fst (op_shape ta a0 a1) in
  rt_alloc [m] (typecode A) = GA_NO_ERROR ->
  exists p' h' Y,
    py_ensure_output_gemv p h = CNext (p', h') /\
    alookup (p_arrays p') "Y" = Some (Some Y) /\ fresh_array Y [m] (typecode A) h /\
    alookup (p_opts p') "overwrite_y" = Some true /\ next h' = S (next h).
Proof.
  intros HA Hta HY Hb Hz m Hal. py_facts. unfold py_ensure_output_gemv, m, op_shape in *.
  destruct ta; simpl in Hal; py_run; do 3 eexists; (split; [reflexivity|]); simpl;
    rewrite ?String.eqb_refl; repeat split; reflexivity.
Qed.

(** C34.  [gemv] called without [Y] and with a [beta] that is
    not zero (a NaN included) raises [ValueError]; nothing is allocated. *)
Theorem py_gemv_beta_error p h A a0 a1 ta beta :
  py_mat_at p "A" A a0 a1 -> alookup (p_trans p) "transA" = Some ta ->
  alookup (p_arrays p) "Y" = Some None -> alookup (p_scal p) "beta" = Some beta ->
  PrimFloat.eqb beta 0%float = false ->
  py_ensure_output_gemv p h = CReturn (ValueError "Y not provided and beta != 0").
Proof.
  intros HA Hta HY Hb Hz. py_facts. unfold py_ensure_output_gemv.
  destruct ta; py_run; reflexivity.
Qed.

(** C35.  [gemm] called without [C] and with [beta = 0]: [C]
    becomes a fresh [m x n] array, [m] the rows of [op(A)] and [n] the
    columns of [op(B)]. *)
Theorem py_gemm_infer_C p h A B a0 a1 b0 b1 ta tb beta :
  py_mat_at p "A" A a0 a1 -> py_mat_at p "B" B b0 b1 ->
  alookup (p_trans p) "transA" = Some ta -> alookup (p_trans p) "transB" = Some tb ->
  alookup (p_arrays p) "C" = Some None -> alookup (p_scal p) "beta" = Some beta ->
  PrimFloat.eqb beta 0%float = true ->
  let m := fst (op_shape ta a0 a1) in
  let n := snd (op_shape tb b0 b1) in
  rt_alloc [m; n] (typecode A) = GA_NO_ERROR ->
  exists p' h' C,
    py_ensure_output_gemm p h = CNext (p', h') /\
    alookup (p_arrays p') "C" = Some (Some C) /\ fresh_array C [m; n] (typecode A) h /\
    alookup (p_opts p') "overwrite_c" = Some true /\ next h' = S (next h).
Proof.
  intros HA HB Hta Htb HC Hb Hz m n Hal. py_facts.
  unfold py_ensure_output_gemm, m, n, op_shape in *.
  destruct ta, tb; simpl in Hal; py_run; do 3 eexists; (split; [reflexivity|]); simpl;
    rewrite ?String.eqb_refl; repeat split; reflexivity.
Qed.

(** C36.  [ger] called without [A]: [A] becomes a fresh
    zero-filled [len X x len Y] array of [X]'s type, whatever [alpha]
    (no [beta] to check). *)
Theorem py_ger_infer_A p h X Y x0 y0 :
  py_vec_at p "X" X x0 -> py_vec_at p "Y" Y y0 -> alookup (p_arrays p) "A" = Some None ->
  rt_alloc [x0; y0] (typecode X) = GA_NO_ERROR ->
  exists p' h' A,
    py_ensure_output_ger p h = CNext (p', h') /\
    alookup (p_arrays p') "A" = Some (Some A) /\ fresh_array A [x0; y0] (typecode X) h /\
    In (data A) (zeroed h') /\ alookup (p_opts p') "overwrite_a" = Some true.
Proof.
  intros HX HY HA Hal. py_facts. unfold py_ensure_output_ger.
  py_run. do 3 eexists; (split; [reflexivity|]); simpl;
    rewrite ?String.eqb_refl; repeat split; simpl; auto.
Qed.

(** C37.  [py_ensure_output_ger] reads [X.ga.dimensions[0]]
    without checking [X]'s rank, unlike [gemv] and [gemm], which check
    that [A] is a matrix: for a 0-dimensional [X] the read is outside the
    dimensions array. *)
Theorem py_ger_rank0_X p h X :
  alookup (p_arrays p) "A" = Some None -> alookup (p_arrays p) "X" = Some (Some X) ->
  nd X = 0%nat -> py_ensure_output_ger p h = CUB.
Proof. intros HA HX Hn. unfold py_ensure_output_ger. py_run. reflexivity. Qed.

End Inference.

(** ** The binding end to end, at the spec's examples *)

(** [gemv(1.0, A, X)] with [A] a C-ordered [3 x 4]
    float matrix and [X] of length 4, no [Y]: the binding allocates [Y]
    of length 3 (buffer 100), calls [sgemv] on it in row-major order and
    returns it. *)
Example py_gemv_example :
  @py_op rt_ok (@gemv_op rt_ok)
    (py_call [("A", Some (cmat 1 3 4)); ("X", Some (fvec 2 4 4)); ("Y", None)]
             [("alpha", 1%float); ("beta", 0%float)] [("trans_a", false); ("overwrite_y", false)])
    heap0
  = CNext ([alloc_array [3] GA_FLOAT 100],
           mkHeap [] 101
             [mkCall 7 "sgemv"
                [CA_order cb_c; CA_trans cb_no_trans; CA_size 3; CA_size 4;
                 CA_scal "float" 1%float; CA_buf 1 0; CA_size 4; CA_buf 2 0; CA_int 1;
                 CA_scal "float" 0%float; CA_buf 100 0; CA_int 1]] []).
Proof. vm_compute. reflexivity. Qed.

(** [gemm(1.0, A, B, trans_b=True)] with [A] a
    [2 x 3] and [B] a [4 x 3] C-ordered float matrix: the inner
    dimension 3 matches, [C] is allocated [2 x 4], and [sgemm] is called
    with [B]'s flag [cb_trans] and [ldb = 3]. *)
Example py_gemm_example :
  @py_op rt_ok (@gemm_op rt_ok)
    (py_call [("A", Some (cmat 1 2 3)); ("B", Some (cmat 2 4 3)); ("C", None)]
             [("alpha", 1%float); ("beta", 0%float)]
             [("trans_a", false); ("trans_b", true); ("overwrite_c", false)])
    heap0
  = CNext ([alloc_array [2; 4] GA_FLOAT 100],
           mkHeap [] 101
             [mkCall 7 "sgemm"
                [CA_order cb_c; CA_trans cb_no_trans; CA_trans cb_trans; CA_size 2; CA_size 4;
                 CA_size 3; CA_scal "float" 1%float; CA_buf 1 0; CA_size 3; CA_buf 2 0;
                 CA_size 3; CA_scal "float" 0%float; CA_buf 100 0; CA_size 4]] []).
Proof. vm_compute. reflexivity. Qed.

(** [ger(1.0, X, Y)] with [X] of length 5 and [Y] of
    length 7: [A] is allocated zero-filled [5 x 7] and updated by
    [sger]. *)
Example py_ger_example :
  @py_op rt_ok (@ger_op rt_ok)
    (py_call [("X", Some (fvec 1 5 4)); ("Y", Some (fvec 2 7 4)); ("A", None)]
             [("alpha", 1%float)] [("overwrite_a", false)])
    heap0
  = CNext ([alloc_array [5; 7] GA_FLOAT 100],
           mkHeap [] 101
             [mkCall 7 "sger"
                [CA_order cb_c; CA_size 5; CA_size 7; CA_scal "float" 1%float; CA_buf 1 0;
                 CA_int 1; CA_buf 2 0; CA_int 1; CA_buf 100 0; CA_size 7]] [100%nat]).
Proof. vm_compute. reflexivity. Qed.

(** ** The inference theorems at the spec's examples *)

(** The binding's locals of a call, its transpose options already
    turned into [cb_transpose] values. *)
Definition py_locals (arrays : alist (option GpuArray)) (scal : alist float)
  (tr : alist cb_transpose) : pyframe :=
  {| p_arrays := arrays; p_scal := scal; p_opts := []; p_trans := tr; p_shp := [] |}.

Lemma py_gemv_infer_Y_witness :
  exists p' h' Y,
    @py_ensure_output_gemv rt_ok
      (py_locals [("A", Some (cmat 1 3 4)); ("X", Some (fvec 2 4 4)); ("Y", None)]
                 [("beta", 0%float)] [("transA", cb_no_trans)]) heap0 = CNext (p', h') /\
    alookup (p_arrays p') "Y" = Some (Some Y) /\ fresh_array Y [3] GA_FLOAT heap0 /\
    alookup (p_opts p') "overwrite_y" = Some true /\ next h' = S (next heap0).
Proof.
  apply (py_gemv_infer_Y (RT := rt_ok) _ heap0 (cmat 1 3 4) 3 4 cb_no_trans 0%float);
    try (repeat split); reflexivity.
Defined.

Lemma py_gemv_beta_error_witness :
  @py_ensure_output_gemv rt_ok
    (py_locals [("A", Some (cmat 1 3 4)); ("X", Some (fvec 2 4 4)); ("Y", None)]
               [("beta", 1%float)] [("transA", cb_no_trans)]) heap0
  = CReturn (ValueError "Y not provided and beta != 0").
Proof.
  apply (py_gemv_beta_error (RT := rt_ok) _ heap0 (cmat 1 3 4) 3 4 cb_no_trans 1%float);
    try (repeat split); reflexivity.
Defined.

Lemma py_gemm_infer_C_witness :
  exists p' h' C,
    @py_ensure_output_gemm rt_ok
      (py_locals [("A", Some (cmat 1 2 3)); ("B", Some (cmat 2 4 3)); ("C", None)]
                 [("beta", 0%float)] [("transA", cb_no_trans); ("transB", cb_trans)]) heap0
    = CNext (p', h') /\
    alookup (p_arrays p') "C" = Some (Some C) /\ fresh_array C [2; 4] GA_FLOAT heap0 /\
    alookup (p_opts p') "overwrite_c" = Some true /\ next h' = S (next heap0).
Proof.
  apply (py_gemm_infer_C (RT := rt_ok) _ heap0 (cmat 1 2 3) (cmat 2 4 3) 2 3 4 3
           cb_no_trans cb_trans 0%float);
    try (repeat split); reflexivity.
Defined.

Lemma py_ger_infer_A_witness :
  exists p' h' A,
    @py_ensure_output_ger rt_ok
      (py_locals [("X", Some (fvec 1 5 4)); ("Y", Some (fvec 2 7 4)); ("A", None)]
                 [("alpha", 1%float)] []) heap0 = CNext (p', h') /\
    alookup (p_arrays p') "A" = Some (Some A) /\ fresh_array A [5; 7] GA_FLOAT heap0 /\
    In (data A) (zeroed h') /\ alookup (p_opts p') "overwrite_a" = Some true.
Proof.
  apply (py_ger_infer_A (RT := rt_ok) _ heap0 (fvec 1 5 4) (fvec 2 7 4) 5 7);
    try (repeat split); reflexivity.
Defined.

(** A 0-dimensional float array. *)
Definition scalar_array (b : nat) : GpuArray := mkGpuArray b 0 [] [] 0 GA_FLOAT flags_c.

Lemma py_ger_rank0_X_witness :
  @py_ensure_output_ger rt_ok
    (py_locals [("X", Some (scalar_array 1)); ("Y", Some (fvec 2 7 4)); ("A", None)]
               [("alpha", 1%float)] []) heap0 = CUB.
Proof.
  apply (py_ger_rank0_X (RT := rt_ok) _ heap0 (scalar_array 1)); reflexivity.
Defined.
