(* ===== verification/EndToEnd.v ===== *)
(** * The Python binding over the pipeline, end to end

    [def gemm(...)] of [BLAS_PYX_TMPL] (lines 707-742) sets the transpose
    flags from the [trans_<m>] options, infers a missing output
    ([py_ensure_output_gemm], lines 326-344), copies a supplied output
    unless [overwrite_c] is set (lines 727-732), calls
    [pygpu_blas_rgemm] (lines 697-705), which calls [GpuArray_rgemm] with
    copying allowed, and returns [C].  This file composes the components'
    own equations: the binding's steps on the Python frame, the equation
    [Dispatch.gemm_dispatch_eq] of the pipeline, and the facts of
    [Runtime] on fresh arrays and copies.

    What comes out: called without [C] and with [beta = 0], [gemm]
    allocates [C] and makes exactly one backend call, whose output buffer
    is the new [C], and returns it; called with a [C] and without
    [overwrite_c], it makes its one call on a fresh copy of [C] and
    returns the copy, so the caller's [C] is never written. *)

From Stdlib Require Import String List Bool ZArith Floats Lia.
From S2P Require Import Prelude Dtype Runtime Args BlasOp Layout Ops Pipeline PyBinding Fixtures LayoutProps PipelineSteps Dispatch PyProps.
Import ListNotations.
Open Scope string_scope.

Section EndToEnd.
Context {RT : BlasRuntime}.

(** The Python frame of [gemm(alpha, A, B, beta, C, trans_a, trans_b,
    overwrite_c)]. *)
Definition gemm_pycall (alpha beta : float) (A B : GpuArray) (C : option GpuArray)
  (bta btb ow : bool) : pyframe :=
  py_call [("A", Some A); ("B", Some B); ("C", C)] [("alpha", alpha); ("beta", beta)]
          [("trans_a", bta); ("trans_b", btb); ("overwrite_c", ow)].

(** The frame after the transpose options are read (lines 716-723). *)
Lemma gemm_set_transes alpha beta A B C bta btb ow :
  py_set_transes (gemm_pycall alpha beta A B C bta btb ow)
    (filter (fun m => negb (isoutput m)) (matrix_args gemm_op))
  = CNext (set_ptrans "transB" (if btb then cb_trans else cb_no_trans)
            (set_ptrans "transA" (if bta then cb_trans else cb_no_trans)
              (gemm_pycall alpha beta A B C bta btb ow))).
Proof. reflexivity. Qed.

(** [py_ensure_output_gemm] without [C] and with [beta = 0]: the
    equation of the inference, with the allocation it makes. *)
Lemma gemm_infer_eq p h A B a0 a1 b0 b1 ta tb beta m k n :
  py_mat_at p "A" A a0 a1 -> py_mat_at p "B" B b0 b1 ->
  alookup (p_trans p) "transA" = Some ta -> alookup (p_trans p) "transB" = Some tb ->
  alookup (p_arrays p) "C" = Some None -> alookup (p_scal p) "beta" = Some beta ->
  PrimFloat.eqb beta 0%float = true ->
  op_shape ta a0 a1 = (m, k) -> op_shape tb b0 b1 = (k, n) ->
  rt_alloc [m; n] (typecode A) = GA_NO_ERROR ->
  py_ensure_output_gemm p h =
    CNext (set_opt "overwrite_c" true
             (set_arr "C" (Some (alloc_array [m; n] (typecode A) (next h)))
                (set_shp "Cshp" [m; n] p)),
           {| live := live h; next := S (next h); calls := calls h; zeroed := zeroed h |}).
Proof.
  intros HA HB Hta Htb HC Hb Hz Hsa Hsb Hal. py_facts. unfold py_ensure_output_gemm.
  unfold op_shape in Hsa, Hsb.
  destruct ta, tb; injection Hsa as <- <-; injection Hsb as -> <-; py_run; reflexivity.
Qed.

(** The arguments of the [gemm] backend call on [A], [B], [C] with the
    binding's flags and the shape [m x k] by [k x n]. *)
Definition gemm_call_args (A B C : GpuArray) (ta tb : cb_transpose) (alpha beta : float)
  (a0 a1 b0 b1 m n k : Z) : list callarg :=
  let o := native_order C in
  let dt := dtype_of_typecode (typecode A) in
  let es := gpuarray_get_elsize (typecode A) in
  [CA_order o; CA_trans (corrected_trans o A ta); CA_trans (corrected_trans o B tb);
   CA_size m; CA_size n; CA_size k; CA_scal (Dtypes.name dt) alpha;
   CA_buf (data A) (offset A / es); CA_size (native_ld A a0 a1);
   CA_buf (data B) (offset B / es); CA_size (native_ld B b0 b1);
   CA_scal (Dtypes.name dt) beta;
   CA_buf (data C) (offset C / es); CA_size (native_ld C m n)].

(** [pygpu_blas_rgemm] raises the status of a failed call. *)
Definition raise_or {A} (e : gaerr) (v : A) : cres pyexc A :=
  match e with GA_NO_ERROR => CNext v | e => CReturn (GpuArrayException e) end.

Lemma pygpu_blas_r_eq op vs nocopy h e h' :
  GpuArray_r op vs nocopy h = (Some e, h') -> pygpu_blas_r op vs nocopy h = raise_or e h'.
Proof. unfold pygpu_blas_r. intros ->. destruct e; reflexivity. Qed.

Lemma raise_or_bind {A B} e (v : A) (k : A -> cres pyexc B) :
  cbind (raise_or e v) k = match e with GA_NO_ERROR => k v | e => CReturn (GpuArrayException e) end.
Proof. destruct e; reflexivity. Qed.

(** Rewrite the wrapper's call with the pipeline's equation [Hd] and
    compare the raised status on both sides. *)
Local Ltac finish_call Hd ta tb entry args :=
  cbv zeta in Hd; apply pygpu_blas_r_eq in Hd; simpl; unfold ta, tb in Hd;
  rewrite Hd, raise_or_bind; unfold raise_or, entry, args, gemm_call_args;
  destruct (rt_call _ _ _); reflexivity.

(** C10.  The binding composed with the pipeline: [gemm(alpha, A, B)]
    called without [C] and with [beta = 0], on aligned one-segment
    single- or double-precision matrices whose shapes agree ([op(A)] is
    [m x k], [op(B)] is [k x n], the flags from [trans_a], [trans_b]),
    allocates [C] as a fresh [m x n] array of [A]'s type, makes exactly
    one backend call, [sgemm] or [dgemm], whose output buffer is the
    new [C] in [C]'s order, and returns [C]; a failing call is raised as
    [GpuArrayException] with its status. *)
Theorem py_gemm_alloc_call alpha beta A B a0 a1 b0 b1 m n k (bta btb ow : bool) h ctx :
  typecode A = GA_FLOAT \/ typecode A = GA_DOUBLE -> typecode B = typecode A ->
  nd A = 2%nat -> nd B = 2%nat -> dimensions A = [a0; a1] -> dimensions B = [b0; b1] ->
  is_aligned A = true -> is_aligned B = true ->
  GpuArray_ISONESEGMENT A = true -> GpuArray_ISONESEGMENT B = true ->
  let ta := if bta then cb_trans else cb_no_trans in
  let tb := if btb then cb_trans else cb_no_trans in
  op_shape ta a0 a1 = (m, k) -> op_shape tb b0 b1 = (k, n) ->
  PrimFloat.eqb beta 0%float = true -> rt_alloc [m; n] (typecode A) = GA_NO_ERROR ->
  rt_buffer_ctx (data A) = (GA_NO_ERROR, ctx) -> rt_ctx_blas ctx = GA_NO_ERROR ->
  rt_setup ctx = GA_NO_ERROR ->
  let C := alloc_array [m; n] (typecode A) (next h) in
  let h1 := {| live := live h; next := S (next h); calls := calls h; zeroed := zeroed h |} in
  let entry := Dtypes.c (dtype_of_typecode (typecode A)) ++ "gemm" in
  let args := gemm_call_args A B C ta tb alpha beta a0 a1 b0 b1 m n k in
  py_op gemm_op (gemm_pycall alpha beta A B None bta btb ow) h
  = raise_or (rt_call ctx entry args) ([C], with_call h1 (mkCall ctx entry args)).
Proof.
  intros Htc HtB HnA HnB HdA HdB HaA HaB SA SB ta tb Hsa Hsb Hz Hal Hctx Hbl Hsu C h1 entry args.
  unfold py_op. rewrite gemm_set_transes. cbn [cbind].
  change (py_ensure_output gemm_op) with py_ensure_output_gemm.
  rewrite (gemm_infer_eq _ h A B a0 a1 b0 b1 ta tb beta m k n); try reflexivity;
    try (repeat split; assumption); try assumption.
  cbn [cbind]. fold C h1.
  pose proof (gemm_dispatch_eq ta tb alpha beta A B C a0 a1 b0 b1 m n k false h1 ctx
                Htc HtB eq_refl HnA HnB eq_refl HdA HdB eq_refl HaA HaB (alloc_aligned _ _ _)
                SA SB (alloc_onesegment _ _ _) Hsa Hsb Hctx Hbl Hsu) as Hd.
  finish_call Hd ta tb entry args.
Qed.

(** [py_ensure_output_gemm] with a [C] given: only [Cshp] is set. *)
Lemma gemm_given_eq p h A B C a0 a1 b0 b1 ta tb m k n :
  py_mat_at p "A" A a0 a1 -> py_mat_at p "B" B b0 b1 ->
  alookup (p_trans p) "transA" = Some ta -> alookup (p_trans p) "transB" = Some tb ->
  alookup (p_arrays p) "C" = Some (Some C) ->
  op_shape ta a0 a1 = (m, k) -> op_shape tb b0 b1 = (k, n) ->
  py_ensure_output_gemm p h = CNext (set_shp "Cshp" [m; n] p, h).
Proof.
  intros HA HB Hta Htb HC Hsa Hsb. py_facts. unfold py_ensure_output_gemm.
  unfold op_shape in Hsa, Hsb.
  destruct ta, tb; injection Hsa as <- <-; injection Hsb as -> <-; py_run; reflexivity.
Qed.

(** C11.  Without [overwrite_c] the caller's [C] is never written:
    [gemm(alpha, A, B, beta, C)] on aligned one-segment matrices whose
    shapes agree, [C] of the product's shape, first copies [C] into a
    fresh array ([pygpu_copy], packed in C order), makes its one backend
    call with that copy as the output buffer and returns the copy; the
    copy's buffer is not the caller's. *)
Theorem py_gemm_copies_output alpha beta A B C a0 a1 b0 b1 m n k (bta btb : bool) h ctx :
  typecode A = GA_FLOAT \/ typecode A = GA_DOUBLE -> typecode B = typecode A ->
  typecode C = typecode A -> nd A = 2%nat -> nd B = 2%nat -> nd C = 2%nat ->
  dimensions A = [a0; a1] -> dimensions B = [b0; b1] -> dimensions C = [m; n] ->
  is_aligned A = true -> is_aligned B = true ->
  GpuArray_ISONESEGMENT A = true -> GpuArray_ISONESEGMENT B = true ->
  let ta := if bta then cb_trans else cb_no_trans in
  let tb := if btb then cb_trans else cb_no_trans in
  op_shape ta a0 a1 = (m, k) -> op_shape tb b0 b1 = (k, n) ->
  rt_copy C GA_ANY_ORDER = GA_NO_ERROR -> (data C < next h)%nat ->
  rt_buffer_ctx (data A) = (GA_NO_ERROR, ctx) -> rt_ctx_blas ctx = GA_NO_ERROR ->
  rt_setup ctx = GA_NO_ERROR ->
  let C' := GpuArray_copy_result C GA_ANY_ORDER (next h) in
  let h1 := {| live := live h; next := S (next h); calls := calls h; zeroed := zeroed h |} in
  let entry := Dtypes.c (dtype_of_typecode (typecode A)) ++ "gemm" in
  let args := gemm_call_args A B C' ta tb alpha beta a0 a1 b0 b1 m n k in
  py_op gemm_op (gemm_pycall alpha beta A B (Some C) bta btb false) h
  = raise_or (rt_call ctx entry args) ([C'], with_call h1 (mkCall ctx entry args))
  /\ data C' <> data C.
Proof.
  intros Htc HtB HtC HnA HnB HnC HdA HdB HdC HaA HaB SA SB ta tb Hsa Hsb Hcp Hlt Hctx Hbl Hsu
    C' h1 entry args.
  split; [|simpl; lia].
  unfold py_op. rewrite gemm_set_transes. cbn [cbind].
  change (py_ensure_output gemm_op) with py_ensure_output_gemm.
  rewrite (gemm_given_eq _ h A B C a0 a1 b0 b1 ta tb m k n); try reflexivity;
    try (repeat split; assumption); try assumption.
  cbn [cbind]. simpl. unfold pygpu_copy. rewrite Hcp. cbn [cbind]. fold C' h1.
  pose proof (gemm_dispatch_eq ta tb alpha beta A B C' a0 a1 b0 b1 m n k false h1 ctx
                Htc HtB HtC HnA HnB HnC HdA HdB HdC HaA HaB (copy_aligned _ _ _)
                SA SB (copy_any_onesegment _ _) Hsa Hsb Hctx Hbl Hsu) as Hd.
  finish_call Hd ta tb entry args.
Qed.

End EndToEnd.

(** The spec's example [gemm(1.0, A, B, trans_b=True)], [A] a C-ordered
    [2 x 3] and [B] a C-ordered [4 x 3] float matrix: [C] is the fresh
    [2 x 4] array of buffer 100 and [sgemm] writes it. *)
Lemma py_gemm_alloc_call_witness :
  let A := cmat 1 2 3 in let B := cmat 2 4 3 in
  let C := alloc_array [2; 4] GA_FLOAT 100 in
  let args := gemm_call_args A B C cb_no_trans cb_trans 1%float 0%float 2 3 4 3 2 4 3 in
  @py_op rt_ok (@gemm_op rt_ok) (gemm_pycall 1%float 0%float A B None false true false) heap0
  = raise_or (@rt_call rt_ok 7 "sgemm" args) ([C], with_call (mkHeap [] 101 [] []) (mkCall 7 "sgemm" args)).
Proof.
  intros A B C args.
  apply (py_gemm_alloc_call (RT := rt_ok) 1%float 0%float A B 2 3 4 3 2 4 3 false true false heap0 7);
    solve [reflexivity | left; reflexivity].
Defined.

(** The same call with a C-ordered [2 x 4] [C] of buffer 3 given: the
    call writes the copy, buffer 100, and [C]'s buffer 3 is untouched. *)
Lemma py_gemm_copies_output_witness :
  let A := cmat 1 2 3 in let B := cmat 2 4 3 in let C := cmat 3 2 4 in
  let C' := GpuArray_copy_result C GA_ANY_ORDER 100 in
  let args := gemm_call_args A B C' cb_no_trans cb_trans 1%float 0%float 2 3 4 3 2 4 3 in
  @py_op rt_ok (@gemm_op rt_ok) (gemm_pycall 1%float 0%float A B (Some C) false true false) heap0
  = raise_or (@rt_call rt_ok 7 "sgemm" args) ([C'], with_call (mkHeap [] 101 [] []) (mkCall 7 "sgemm" args))
  /\ data C' <> data C.
Proof.
  intros A B C C' args.
  apply (py_gemm_copies_output (RT := rt_ok) 1%float 0%float A B C 2 3 4 3 2 4 3 false true heap0 7);
    solve [reflexivity | left; reflexivity | simpl; lia].
Defined.
