(* ===== verification/CopyPath.v ===== *)
(** * The contiguity fallback, when copying is allowed

    The fallback block of [ARRAYBLAS_TMPL] (lines 620-624 and 636-640)
    renders as

      err = GpuArray_copy(&copyA, A, GA_F_ORDER);
      if (err != GA_NO_ERROR)
        goto cleanup;
      Ap = &copyA;

    ([Pipeline.copy_into]).  When the copy succeeds, the rest of the
    body reads the copy through [Ap]; the cleanup clears it.  The
    theorems run [GpuArray_rgemm] and [GpuArray_rgemv] through this
    path: a matrix [A] not in one segment is copied in Fortran order,
    and the backend is called on the copy (its context, its buffer at
    offset 0, its leading dimension, [transA] corrected for Fortran
    storage); a negatively strided vector [X] is copied and the backend
    gets the copy with increment 1.  In both cases the copy's buffer,
    the next of the heap, is released before the function returns. *)

From Stdlib Require Import String List Bool ZArith Floats Lia.
From S2P Require Import Prelude Dtype Runtime Args BlasOp Layout Ops Pipeline Fixtures LayoutProps PipelineSteps Dispatch.
Import ListNotations.
Open Scope string_scope.

Section Copy.
Context {RT : BlasRuntime}.

(** An F-order copy is stored column-major. *)
Lemma copy_f_native A d :
  native_order (GpuArray_copy_result A GA_F_ORDER d) = cb_fortran /\
  forall d0 d1, native_ld (GpuArray_copy_result A GA_F_ORDER d) d0 d1 = d0.
Proof. unfold native_order, native_ld. now rewrite copy_f_is_f. Qed.

(** The fallback stage of [gemm] when only [A] needs a copy and the
    copy succeeds. *)
Lemma gemm_contig_copy_A f h A :
  alookup (f_args f) "A" = Some A -> f_nocopy f = false ->
  GpuArray_ISONESEGMENT A = false -> rt_copy A GA_F_ORDER = GA_NO_ERROR ->
  contiguous_arg f (matrix "B" false) -> contiguous_arg f (matrix "C" true) ->
  contig_all gemm_op (f, h) =
    (CNext tt, (with_copy f "A" (GpuArray_copy_result A GA_F_ORDER (next h)), with_alloc h)).
Proof.
  intros HA Hn SA Hcp HB HC. unfold contig_all.
  change (cm_iter contig_one (array_args gemm_op)) with
    (cm_bind (contig_one (matrix "A" false))
             (fun _ => cm_iter contig_one [matrix "B" false; matrix "C" true])).
  pose proof (contig_one_copy f h (matrix "A" false) A eq_refl eq_refl HA SA Hn) as H1.
  change (copy_order (matrix "A" false)) with GA_F_ORDER in H1. rewrite Hcp in H1.
  rewrite (cm_bind_next _ _ _ _ _ H1).
  apply contig_iter_pass. intros x [<-|[<-|[]]]; split; try reflexivity; assumption.
Qed.

(** C1.  [GpuArray_rgemm] with copying allowed, on aligned
    matrices whose shapes agree, [B] and [C] in one segment and the input
    [A] not: when [GpuArray_copy] succeeds, [A] is copied in Fortran
    order into the next buffer of the heap and the one backend call is
    made on the copy: the context is the copy's, [A]'s buffer is the
    copy's at offset 0, [lda] is the copy's row count [a0], and [transA]
    is inverted when [C], which fixes the order, is row-major.  The
    function returns the call's status and its cleanup releases the
    copy. *)
Theorem GpuArray_rgemm_copy ta tb alpha beta A B C a0 a1 b0 b1 c0 c1 k h ctx :
  typecode A = GA_FLOAT \/ typecode A = GA_DOUBLE ->
  typecode B = typecode A -> typecode C = typecode A ->
  nd A = 2%nat -> nd B = 2%nat -> nd C = 2%nat ->
  dimensions A = [a0; a1] -> dimensions B = [b0; b1] -> dimensions C = [c0; c1] ->
  is_aligned A = true -> is_aligned B = true -> is_aligned C = true ->
  GpuArray_ISONESEGMENT A = false -> GpuArray_ISONESEGMENT B = true ->
  GpuArray_ISONESEGMENT C = true ->
  op_shape ta a0 a1 = (c0, k) -> op_shape tb b0 b1 = (k, c1) ->
  rt_copy A GA_F_ORDER = GA_NO_ERROR ->
  rt_buffer_ctx (next h) = (GA_NO_ERROR, ctx) -> rt_ctx_blas ctx = GA_NO_ERROR ->
  rt_setup ctx = GA_NO_ERROR ->
  let o := native_order C in
  let dt := dtype_of_typecode (typecode A) in
  let es := gpuarray_get_elsize (typecode A) in
  let args :=
    [CA_order o; CA_trans (if cb_order_eqb cb_fortran o then ta else flip_trans ta);
     CA_trans (corrected_trans o B tb);
     CA_size c0; CA_size c1; CA_size k; CA_scal (Dtypes.name dt) alpha;
     CA_buf (next h) 0; CA_size a0;
     CA_buf (data B) (offset B / es); CA_size (native_ld B b0 b1);
     CA_scal (Dtypes.name dt) beta;
     CA_buf (data C) (offset C / es); CA_size (native_ld C c0 c1)] in
  let entry := Dtypes.c dt ++ "gemm" in
  GpuArray_r gemm_op [VTrans ta; VTrans tb; VScal alpha; VArr A; VArr B; VScal beta; VArr C]
    false h
  = (Some (rt_call ctx entry args),
     release (next h) (with_call (with_alloc h) (mkCall ctx entry args))).
Proof.
  intros Htc HtB HtC HnA HnB HnC HdA HdB HdC HaA HaB HaC SA SB SC Hsa Hsb Hcp Hctx Hbl Hsu.
  intros o dt es args entry.
  pose (A' := GpuArray_copy_result A GA_F_ORDER (next h)).
  pose (f0 := gemm_frame ta tb alpha beta A B C false).
  pose (f1 := set_size "n" c1 (set_size "k" k (set_size "m" c0 f0))).
  pose (f2 := with_elsize f1 es).
  assert (Hd : check_dims gemm_op f0 = CNext f1)
    by (apply (gemm_dims_pass _ A B C a0 a1 b0 b1 c0 c1 k ta tb); try reflexivity; auto;
        repeat split; auto).
  assert (Hc : contig_all gemm_op (f2, h) = (CNext tt, (with_copy f2 "A" A', with_alloc h)))
    by (apply gemm_contig_copy_A; try reflexivity; try assumption;
        eexists; (split; [reflexivity | assumption])).
  destruct (setup_order_gemm_eq (with_copy f2 "A" A') A' B C a0 a1 b0 b1 c0 c1 ta tb)
    as (f3 & Hs & Ho & Hldc & Hlda & Hldb & HtA & HtB' & Hsz & Hk);
    try (repeat split; assumption); try reflexivity; try (apply copy_onesegment; reflexivity); auto.
  destruct (copy_f_native A (next h)) as [NA LA]. fold A' in NA, LA.
  rewrite gemm_bind.
  rewrite (run_dispatch_gen gemm_op f0 h "A" A f1 (with_copy f2 "A" A') (with_alloc h) f3 A' ctx
             o (tl args) eq_refl eq_refl Htc); try reflexivity; try assumption; try array_facts.
  - keeps_facts Hk. unfold cleanup, cleanup_one. simpl. rewrite Ecop, Eptr. reflexivity.
  - keeps_facts Hk. rewrite Eptr. reflexivity.
  - keeps_facts Hk. eval_args.
    rewrite HtA, HtB', Hlda, Hldb, Hldc, Eptr, Escal, Eels.
    rewrite !Hsz by discriminate. unfold corrected_trans. rewrite NA, LA.
    simpl. rewrite Zdiv_0_l. reflexivity.
Qed.

(** The increment of a packed copy of a float or double vector:
    [copyXp->strides[0] / elsize] is 1. *)
Lemma copy_inc_one tc :
  tc = GA_FLOAT \/ tc = GA_DOUBLE ->
  int_of_size_t (size_t_of_ssize (gpuarray_get_elsize tc) / gpuarray_get_elsize tc) = 1%Z.
Proof. intros [-> | ->]; vm_compute; reflexivity. Qed.

Lemma gemv_contig_copy_X f h X :
  alookup (f_args f) "X" = Some X -> f_nocopy f = false ->
  (exists s, stride X 0 = Some s /\ (s < 0)%Z) -> rt_copy X GA_ANY_ORDER = GA_NO_ERROR ->
  contiguous_arg f (matrix "A" false) -> contiguous_arg f (vector "Y" true) ->
  contig_all gemv_op (f, h) =
    (CNext tt, (with_copy f "X" (GpuArray_copy_result X GA_ANY_ORDER (next h)), with_alloc h)).
Proof.
  intros HX Hn SX Hcp HA HY. unfold contig_all.
  change (cm_iter contig_one (array_args gemv_op)) with
    (cm_bind (contig_one (matrix "A" false))
       (fun _ => cm_bind (contig_one (vector "X" false))
                   (fun _ => cm_iter contig_one [vector "Y" true]))).
  rewrite (cm_bind_next _ _ _ _ _ (contig_one_pass f h (matrix "A" false) eq_refl HA)).
  pose proof (contig_one_copy f h (vector "X" false) X eq_refl eq_refl HX SX Hn) as H1.
  change (copy_order (vector "X" false)) with GA_ANY_ORDER in H1. rewrite Hcp in H1.
  rewrite (cm_bind_next _ _ _ _ _ H1).
  apply contig_iter_pass. intros x [<-|[]]. split; [reflexivity | exact HY].
Qed.

(** C4.  [GpuArray_rgemv] with copying allowed, on a matrix in
    one segment and an input vector [X] with a negative stride: when
    [GpuArray_copy] succeeds, [X] is copied into the next buffer of the
    heap and the one backend call passes the copy's buffer at offset 0
    with increment 1 instead of [X]; the function returns the call's
    status and its cleanup releases the copy. *)
Theorem GpuArray_rgemv_copy ta alpha beta A X Y a0 a1 x0 y0 sx sy h ctx :
  typecode A = GA_FLOAT \/ typecode A = GA_DOUBLE ->
  typecode X = typecode A -> typecode Y = typecode A ->
  nd A = 2%nat -> nd X = 1%nat -> nd Y = 1%nat ->
  dimensions A = [a0; a1] -> dimensions X = [x0] -> dimensions Y = [y0] ->
  is_aligned A = true -> is_aligned X = true -> is_aligned Y = true ->
  GpuArray_ISONESEGMENT A = true ->
  stride X 0 = Some sx -> stride Y 0 = Some sy -> (sx < 0)%Z -> (0 <= sy)%Z ->
  op_shape ta a0 a1 = (y0, x0) ->
  rt_copy X GA_ANY_ORDER = GA_NO_ERROR ->
  rt_buffer_ctx (data A) = (GA_NO_ERROR, ctx) -> rt_ctx_blas ctx = GA_NO_ERROR ->
  rt_setup ctx = GA_NO_ERROR ->
  let o := native_order A in
  let dt := dtype_of_typecode (typecode A) in
  let es := gpuarray_get_elsize (typecode A) in
  let args :=
    [CA_order o; CA_trans ta; CA_size a0; CA_size a1; CA_scal (Dtypes.name dt) alpha;
     CA_buf (data A) (offset A / es); CA_size (native_ld A a0 a1);
     CA_buf (next h) 0; CA_int 1; CA_scal (Dtypes.name dt) beta;
     CA_buf (data Y) (offset Y / es); CA_int (int_of_size_t (size_t_of_ssize sy / es))] in
  let entry := Dtypes.c dt ++ "gemv" in
  GpuArray_r gemv_op [VTrans ta; VScal alpha; VArr A; VArr X; VScal beta; VArr Y] false h
  = (Some (rt_call ctx entry args),
     release (next h) (with_call (with_alloc h) (mkCall ctx entry args))).
Proof.
  intros Htc HtX HtY HnA HnX HnY HdA HdX HdY HaA HaX HaY SA Hsx Hsy Px Py Hsa Hcp Hctx Hbl Hsu.
  intros o dt es args entry.
  pose (X' := GpuArray_copy_result X GA_ANY_ORDER (next h)).
  pose (f0 := gemv_frame ta alpha beta A X Y false).
  pose (f1 := set_size "n" a1 (set_size "m" a0 (set_size "n" x0 (set_size "m" y0 f0)))).
  pose (f2 := with_elsize f1 es).
  pose (f3 := set_size "lda" (native_ld A a0 a1) (set_order (native_order A) (with_copy f2 "X" X'))).
  assert (Hd : check_dims gemv_op f0 = CNext f1)
    by (apply (gemv_dims_pass _ A X Y a0 a1 x0 y0 ta); try reflexivity; auto; repeat split; auto).
  assert (Hc : contig_all gemv_op (f2, h) = (CNext tt, (with_copy f2 "X" X', with_alloc h))).
  { apply gemv_contig_copy_X; try reflexivity; try assumption.
    - eauto.
    - eexists; split; [reflexivity | assumption].
    - eexists; split; [reflexivity|]. simpl. eauto. }
  assert (Hs : setup_order gemv_op (with_copy f2 "X" X') = CNext f3)
    by (apply order_defining_spec; [repeat split; assumption | exact SA]).
  assert (HsX' : strides X' = [es])
    by (unfold X'; rewrite (copy_vector_stride X GA_ANY_ORDER (next h) x0 HdX), HtX; reflexivity).
  rewrite gemv_bind.
  rewrite (run_dispatch_gen gemv_op f0 h "A" A f1 (with_copy f2 "X" X') (with_alloc h) f3 A ctx
             o (tl args) eq_refl eq_refl Htc); try reflexivity; try assumption; try array_facts.
  assert (HsX0 : stride X' 0 = Some es)
    by (unfold stride; rewrite HsX'; unfold X'; simpl; rewrite HnX; reflexivity).
  eval_args. rewrite HsX0, Hsy. simpl.
  unfold es. rewrite (copy_inc_one _ Htc), Zdiv_0_l. reflexivity.
Qed.

End Copy.

(** The [gemm] theorem on a [2 x 3] float matrix [A] made of every other
    row of a larger one: the backend gets buffer 100, the copy, with
    [lda = 2] and [transA] inverted for the row-major [C]; buffer 100 is
    released. *)
Lemma GpuArray_rgemm_copy_witness :
  @GpuArray_r rt_ok (@gemm_op rt_ok)
    [VTrans cb_no_trans; VTrans cb_no_trans; VScal 1%float; VArr (ncmat 1 2 3);
     VArr (cmat 2 3 4); VScal 0%float; VArr (cmat 3 2 4)] false heap0
  = (Some GA_NO_ERROR,
     mkHeap [] 101
       [mkCall 7 "sgemm"
          [CA_order cb_c; CA_trans cb_trans; CA_trans cb_no_trans; CA_size 2; CA_size 4;
           CA_size 3; CA_scal "float" 1%float; CA_buf 100 0; CA_size 2; CA_buf 2 0;
           CA_size 4; CA_scal "float" 0%float; CA_buf 3 0; CA_size 4]] []).
Proof.
  apply (GpuArray_rgemm_copy (RT := rt_ok) cb_no_trans cb_no_trans 1%float 0%float
           (ncmat 1 2 3) (cmat 2 3 4) (cmat 3 2 4) 2 3 3 4 2 4 3 heap0 7);
    solve [reflexivity | left; reflexivity].
Defined.

(** The [gemv] theorem on a reversed float vector [X] (byte stride -4):
    the backend gets buffer 100, the copy, with increment 1; buffer 100
    is released. *)
Lemma GpuArray_rgemv_copy_witness :
  @GpuArray_r rt_ok (@gemv_op rt_ok)
    [VTrans cb_no_trans; VScal 1%float; VArr (cmat 1 3 2); VArr (fvec 2 2 (-4));
     VScal 0%float; VArr (fvec 3 3 4)] false heap0
  = (Some GA_NO_ERROR,
     mkHeap [] 101
       [mkCall 7 "sgemv"
          [CA_order cb_c; CA_trans cb_no_trans; CA_size 3; CA_size 2;
           CA_scal "float" 1%float; CA_buf 1 0; CA_size 2; CA_buf 100 0; CA_int 1;
           CA_scal "float" 0%float; CA_buf 3 0; CA_int 1]] []).
Proof.
  apply (GpuArray_rgemv_copy (RT := rt_ok) cb_no_trans 1%float 0%float
           (cmat 1 3 2) (fvec 2 2 (-4)) (fvec 3 3 4) 3 2 2 3 (-4) 4 heap0 7);
    solve [reflexivity | left; reflexivity | lia].
Defined.
