(* ===== verification/FailedCopy.v ===== *)
(** * A fallback copy that fails

    When [GpuArray_copy] fails, the fallback block of [ARRAYBLAS_TMPL]
    (lines 621-623 and 637-639) jumps to the cleanup with the copy's
    error ([Pipeline.copy_into]); [Ap] is still the original array and
    nothing is marked as copied, so the cleanup releases nothing.  The
    theorems run [GpuArray_rgemm] and [GpuArray_rgemv] through this
    path: the function returns the copy's error, allocates nothing and
    makes no backend call. *)

From Stdlib Require Import String List Bool ZArith Floats Lia.
From S2P Require Import Prelude Dtype Runtime Args BlasOp Layout Ops Pipeline Fixtures LayoutProps PipelineSteps Dispatch.
Import ListNotations.
Open Scope string_scope.

Section FailedCopy.
Context {RT : BlasRuntime}.

(** C5.  [GpuArray_rgemm] with copying allowed, on aligned
    matrices whose shapes agree, [B] and [C] in one segment and the input
    [A] not: when [GpuArray_copy] of [A] fails with an error [e], the
    call returns [e], with the heap as it was: no buffer allocated or
    released and no backend call. *)
Theorem GpuArray_rgemm_copy_fails ta tb alpha beta A B C a0 a1 b0 b1 c0 c1 k h e :
  typecode A = GA_FLOAT \/ typecode A = GA_DOUBLE ->
  typecode B = typecode A -> typecode C = typecode A ->
  nd A = 2%nat -> nd B = 2%nat -> nd C = 2%nat ->
  dimensions A = [a0; a1] -> dimensions B = [b0; b1] -> dimensions C = [c0; c1] ->
  is_aligned A = true -> is_aligned B = true -> is_aligned C = true ->
  GpuArray_ISONESEGMENT A = false ->
  op_shape ta a0 a1 = (c0, k) -> op_shape tb b0 b1 = (k, c1) ->
  rt_copy A GA_F_ORDER = e -> e <> GA_NO_ERROR ->
  GpuArray_r gemm_op [VTrans ta; VTrans tb; VScal alpha; VArr A; VArr B; VScal beta; VArr C]
    false h = (Some e, h).
Proof.
  intros Htc HtB HtC HnA HnB HnC HdA HdB HdC HaA HaB HaC SA Hsa Hsb Hcp He.
  pose (f0 := gemm_frame ta tb alpha beta A B C false).
  pose (f1 := set_size "n" c1 (set_size "k" k (set_size "m" c0 f0))).
  pose (f2 := with_elsize f1 (gpuarray_get_elsize (typecode A))).
  assert (Hd : check_dims gemm_op f0 = CNext f1)
    by (apply (gemm_dims_pass _ A B C a0 a1 b0 b1 c0 c1 k ta tb); try reflexivity; auto;
        repeat split; auto).
  assert (Hc : contig_all gemm_op (f2, h) = (CGoto e, (f2, h))).
  { unfold contig_all.
    change (cm_iter contig_one (array_args gemm_op)) with
      (cm_bind (contig_one (matrix "A" false))
               (fun _ => cm_iter contig_one [matrix "B" false; matrix "C" true])).
    pose proof (contig_one_copy f2 h (matrix "A" false) A eq_refl eq_refl eq_refl SA eq_refl)
      as H1.
    change (copy_order (matrix "A" false)) with GA_F_ORDER in H1. rewrite Hcp in H1.
    destruct e; try (exfalso; exact (He eq_refl)); exact (cm_bind_goto _ _ _ _ _ H1). }
  rewrite gemm_bind.
  rewrite (run_contig_goto gemm_op f0 h "A" A f1 e f2 h eq_refl eq_refl Htc);
    try reflexivity; try exact Hd; try exact Hc; try array_facts.
Qed.

(** C6.  [GpuArray_rgemv] with copying allowed, on a matrix in
    one segment and an input vector [X] with a negative stride: when
    [GpuArray_copy] of [X] fails with an error [e], the call returns
    [e], with the heap as it was. *)
Theorem GpuArray_rgemv_copy_fails ta alpha beta A X Y a0 a1 x0 y0 sx h e :
  typecode A = GA_FLOAT \/ typecode A = GA_DOUBLE ->
  typecode X = typecode A -> typecode Y = typecode A ->
  nd A = 2%nat -> nd X = 1%nat -> nd Y = 1%nat ->
  dimensions A = [a0; a1] -> dimensions X = [x0] -> dimensions Y = [y0] ->
  is_aligned A = true -> is_aligned X = true -> is_aligned Y = true ->
  GpuArray_ISONESEGMENT A = true -> stride X 0 = Some sx -> (sx < 0)%Z ->
  op_shape ta a0 a1 = (y0, x0) ->
  rt_copy X GA_ANY_ORDER = e -> e <> GA_NO_ERROR ->
  GpuArray_r gemv_op [VTrans ta; VScal alpha; VArr A; VArr X; VScal beta; VArr Y] false h
  = (Some e, h).
Proof.
  intros Htc HtX HtY HnA HnX HnY HdA HdX HdY HaA HaX HaY SA Hsx Px Hsa Hcp He.
  pose (f0 := gemv_frame ta alpha beta A X Y false).
  pose (f1 := set_size "n" a1 (set_size "m" a0 (set_size "n" x0 (set_size "m" y0 f0)))).
  pose (f2 := with_elsize f1 (gpuarray_get_elsize (typecode A))).
  assert (Hd : check_dims gemv_op f0 = CNext f1)
    by (apply (gemv_dims_pass _ A X Y a0 a1 x0 y0 ta); try reflexivity; auto; repeat split; auto).
  assert (Hc : contig_all gemv_op (f2, h) = (CGoto e, (f2, h))).
  { unfold contig_all.
    change (cm_iter contig_one (array_args gemv_op)) with
      (cm_bind (contig_one (matrix "A" false))
         (fun _ => cm_bind (contig_one (vector "X" false))
                     (fun _ => cm_iter contig_one [vector "Y" true]))).
    rewrite (cm_bind_next _ _ _ _ _ (contig_one_pass f2 h (matrix "A" false) eq_refl
               (ex_intro _ A (conj eq_refl SA)))).
    pose proof (contig_one_copy f2 h (vector "X" false) X eq_refl eq_refl eq_refl
                  (ex_intro _ sx (conj Hsx Px)) eq_refl) as H1.
    change (copy_order (vector "X" false)) with GA_ANY_ORDER in H1. rewrite Hcp in H1.
    destruct e; try (exfalso; exact (He eq_refl)); exact (cm_bind_goto _ _ _ _ _ H1). }
  rewrite gemv_bind.
  rewrite (run_contig_goto gemv_op f0 h "A" A f1 e f2 h eq_refl eq_refl Htc);
    try reflexivity; try exact Hd; try exact Hc; try array_facts.
Qed.

End FailedCopy.

(** The [gemm] theorem when the device is out of memory for the copy of
    a non-contiguous [A]: [GA_MEMORY_ERROR], the heap unchanged. *)
Lemma GpuArray_rgemm_copy_fails_witness :
  @GpuArray_r rt_nomem (@gemm_op rt_nomem)
    [VTrans cb_no_trans; VTrans cb_no_trans; VScal 1%float; VArr (ncmat 1 2 3);
     VArr (cmat 2 3 4); VScal 0%float; VArr (cmat 3 2 4)] false heap0
  = (Some GA_MEMORY_ERROR, heap0).
Proof.
  apply (GpuArray_rgemm_copy_fails (RT := rt_nomem) cb_no_trans cb_no_trans 1%float 0%float
           (ncmat 1 2 3) (cmat 2 3 4) (cmat 3 2 4) 2 3 3 4 2 4 3 heap0 GA_MEMORY_ERROR);
    solve [reflexivity | left; reflexivity | discriminate].
Defined.

(** The [gemv] theorem on a reversed float vector when its copy runs
    out of memory: [GA_MEMORY_ERROR], the heap unchanged. *)
Lemma GpuArray_rgemv_copy_fails_witness :
  @GpuArray_r rt_nomem (@gemv_op rt_nomem)
    [VTrans cb_no_trans; VScal 1%float; VArr (cmat 1 3 2); VArr (fvec 2 2 (-4));
     VScal 0%float; VArr (fvec 3 3 4)] false heap0 = (Some GA_MEMORY_ERROR, heap0).
Proof.
  apply (GpuArray_rgemv_copy_fails (RT := rt_nomem) cb_no_trans 1%float 0%float
           (cmat 1 3 2) (fvec 2 2 (-4)) (fvec 3 3 4) 3 2 2 3 (-4) heap0 GA_MEMORY_ERROR);
    solve [reflexivity | left; reflexivity | lia | discriminate].
Defined.
