(* ===== verification/Increments.v ===== *)
(** * The increments passed to the backend

    [format_as_callarg] of an [inc] argument (lines 88-91) renders
    [<name[-1]>p->strides[0] / elsize] ([Pipeline.eval_callarg] on
    [inc]): an [ssize_t] divided by a [size_t], so the stride is
    converted to [size_t] first, and the quotient is passed to an [int]
    parameter of the backend.  [Pipeline.size_t_of_ssize] and
    [Pipeline.int_of_size_t] write these conversions out.  The theorems
    state the argument the backend receives: the stride in elements
    exactly when the stride is a multiple of the element size whose
    quotient fits in an [int], negative strides included; beyond
    [2^31] elements it wraps to a negative increment. *)

From Stdlib Require Import String List ZArith Lia.
From S2P Require Import Prelude Dtype Runtime Args Pipeline Fixtures.
Import ListNotations.
Open Scope Z_scope.

(** The two cases of the conversion of [q * es], [q] negative and
    not: the [size_t] value divided by [es] is [q] modulo [2^32]. *)
Lemma mod_div_neg es q K m :
  0 < es -> K * es = 18446744073709551616 -> K = 4294967296 * (m + 1) -> 0 <= m ->
  -2147483648 <= q < 0 ->
  ((q * es) mod 18446744073709551616 / es) mod 4294967296 = q + 4294967296.
Proof.
  intros Hes HK Hm Hm0 Hq.
  replace ((q * es) mod 18446744073709551616) with ((q + K) * es)
    by (apply (Z.mod_unique _ _ (-1)); [left; split; nia | nia]).
  rewrite Z.div_mul by lia.
  symmetry. apply (Z.mod_unique _ _ m); lia.
Qed.

Lemma mod_div_pos es q :
  0 < es <= 8 -> 0 <= q < 4294967296 ->
  ((q * es) mod 18446744073709551616 / es) mod 4294967296 = q.
Proof.
  intros Hes Hq. rewrite (Z.mod_small (q * es) 18446744073709551616) by nia.
  rewrite Z.div_mul by lia.
  apply Z.mod_small. lia.
Qed.

(** The [inc] argument of the call on a frame whose pointer [nm] has
    the byte stride [s]. *)
Lemma eval_inc f ctype n c d nm P s :
  py_last n = Some nm -> alookup (f_ptr f) nm = Some P -> stride P 0 = Some s ->
  eval_callarg f ctype (inc n c d) = CNext (CA_int (int_of_size_t (size_t_of_ssize s / f_elsize f))).
Proof. intros Hn HP Hs. unfold eval_callarg, ptr. rewrite Hn. simpl. rewrite HP. simpl. now rewrite Hs. Qed.

(** C13.  The increment argument [<X>p->strides[0] / elsize] of the
    backend call, for a vector whose byte stride is [q] elements of 4 or
    8 bytes with [q] in the range of [int], negative strides included,
    is [q]. *)
Theorem inc_callarg_exact f ctype n c d nm P q :
  py_last n = Some nm -> alookup (f_ptr f) nm = Some P ->
  stride P 0 = Some (q * f_elsize f) -> f_elsize f = 4 \/ f_elsize f = 8 ->
  -2 ^ 31 <= q < 2 ^ 31 ->
  eval_callarg f ctype (inc n c d) = CNext (CA_int q).
Proof.
  intros Hn HP Hs Hes Hq. rewrite (eval_inc f ctype n c d nm P _ Hn HP Hs). do 2 f_equal.
  unfold int_of_size_t, size_t_of_ssize.
  change (2 ^ 64) with 18446744073709551616. change (2 ^ 32) with 4294967296.
  change (2 ^ 31) with 2147483648 in *.
  destruct (Z.ltb_spec q 0).
  - destruct Hes as [-> | ->];
      [rewrite (mod_div_neg 4 q 4611686018427387904 1073741823) by lia
      |rewrite (mod_div_neg 8 q 2305843009213693952 536870911) by lia];
      destruct (Z.leb_spec 2147483648 (q + 4294967296)); lia.
  - rewrite mod_div_pos by lia.
    destruct (Z.leb_spec 2147483648 q); lia.
Qed.

(** C14.  For a byte stride of [q] elements with
    [2^31 <= q < 2^32], the increment argument of the backend call is
    [q - 2^32]: the conversion to [int] wraps, and the backend walks the
    vector backwards. *)
Theorem inc_callarg_wraps f ctype n c d nm P q :
  py_last n = Some nm -> alookup (f_ptr f) nm = Some P ->
  stride P 0 = Some (q * f_elsize f) -> f_elsize f = 4 \/ f_elsize f = 8 ->
  2 ^ 31 <= q < 2 ^ 32 ->
  eval_callarg f ctype (inc n c d) = CNext (CA_int (q - 2 ^ 32)).
Proof.
  intros Hn HP Hs Hes Hq. rewrite (eval_inc f ctype n c d nm P _ Hn HP Hs). do 2 f_equal.
  unfold int_of_size_t, size_t_of_ssize.
  change (2 ^ 64) with 18446744073709551616. change (2 ^ 32) with 4294967296 in *.
  change (2 ^ 31) with 2147483648 in *.
  rewrite mod_div_pos by lia. destruct (Z.leb_spec 2147483648 q); lia.
Qed.

(** A frame whose [X] pointer is a float vector of byte stride [s]. *)
Definition inc_frame (s : Z) : frame :=
  bind_arr "X" (fvec 2 2 s) (with_elsize (empty_frame false) 4).

(** The exact case at a reversed contiguous float vector: stride -4
    bytes, increment -1. *)
Lemma inc_callarg_exact_witness :
  eval_callarg (inc_frame (-4)) "float" (inc "incX" false None) = CNext (CA_int (-1)).
Proof.
  apply (inc_callarg_exact (inc_frame (-4)) "float" "incX" false None "X" (fvec 2 2 (-4)) (-1));
    try reflexivity; try (left; reflexivity); lia.
Defined.

(** The wrapping case: a stride of [2^31] floats reaches the backend
    as the increment [-2^31]. *)
Lemma inc_callarg_wraps_witness :
  eval_callarg (inc_frame (2 ^ 33)) "float" (inc "incX" false None) = CNext (CA_int (- 2 ^ 31)).
Proof.
  apply (inc_callarg_wraps (inc_frame (2 ^ 33)) "float" "incX" false None "X" (fvec 2 2 (2 ^ 33))
           (2 ^ 31)); try reflexivity; try (left; reflexivity); lia.
Defined.
